(** * The IPC and filesystem command pipeline of decaf-emu

    A shallow embedding of
    - [src/libdecaf/src/modules/coreinit/coreinit_ipc.cpp] (the per-core IPC
      driver and its fixed-capacity FIFO),
    - [src/libdecaf/src/kernel/kernel_ios.cpp] (device registry and handle
      allocation),
    - [src/libdecaf/src/modules/coreinit/coreinit_fs_cmdblock.cpp] (FS command
      blocks: prepare, requeue, result handling, finish functions),
    followed by the properties proved about them.

    Conventions.  Pointers are modelled by indices or addresses ([Z] or
    [nat]), a null pointer by [None].  Fixed-width integers are [Z] with the
    wrap-around written out ([int32], [uint32]).  Calls to functions of the
    repository that live outside the embedded files are either taken as
    parameters of a Section or recorded, in order, in a trace of external
    calls.  *)

From Stdlib Require Import ZArith Lia List Bool String Sorted.
From stdpp Require Import numbers list gmap strings.

Local Open Scope Z_scope.

(* ===================================================================== *)
(** * Part I: definitions                                                 *)
(* ===================================================================== *)

(** ** Machine integers *)

(** Value of a [uint32_t] after an arithmetic operation. *)
Definition uint32 (z : Z) : Z := z mod 2 ^ 32.

(** Value of an [int32_t] after an arithmetic operation or a conversion
    from [uint32_t] (two's complement). *)
Definition int32 (z : Z) : Z := (z + 2 ^ 31) mod 2 ^ 32 - 2 ^ 31.

(** ** Outcomes of a call

    A call either returns, stops the emulator through [decaf_check] /
    [decaf_abort], or runs into behaviour that C++ leaves undefined
    (an array access out of bounds, a division by zero).  [OutOfFuel] is
    only produced by the bounded unfolding of calls through a function
    pointer. *)
Inductive Outcome (A : Type) : Type :=
| Done (a : A)
| Aborted (msg : string)
| Undefined (msg : string)
| OutOfFuel.

Arguments Done {A} a.
Arguments Aborted {A} msg.
Arguments Undefined {A} msg.
Arguments OutOfFuel {A}.

Global Instance Outcome_ret : MRet Outcome := fun A a => Done a.

Global Instance Outcome_bind : MBind Outcome := fun A B k m =>
  match m with
  | Done a => k a
  | Aborted msg => Aborted msg
  | Undefined msg => Undefined msg
  | OutOfFuel => OutOfFuel
  end.

(** [decaf_check(cond)]: abort when the condition is false. *)
Definition decaf_check (cond : bool) (msg : string) : Outcome unit :=
  if cond then Done tt else Aborted msg.

(** [for (auto i = 0u; i < n; ++i) body(i)] over a state [S]. *)
Definition for_upto {S : Type} (n : nat) (body : nat -> S -> S) (s : S) : S :=
  fold_left (fun acc i => body i acc) (seq 0 n) s.

(** ** coreinit IPC driver (coreinit_ipc.cpp) *)

(** The enumerators of [IOSError] that the embedded code names. *)
Inductive IOSError : Set :=
| IOS_OK
| IOS_QFull
| IOS_QEmpty
| IOS_NotReady
| IOS_InvalidHandle
| IOS_NoExists
| IOS_FailInternal.

Global Instance IOSError_eq_dec : EqDecision IOSError.
Proof. solve_decision. Defined.

Inductive IPCDriverStatus : Set :=
| Status_Uninit
| Status_Initialised
| Status_Open
| Status_Closed.

Global Instance IPCDriverStatus_eq_dec : EqDecision IPCDriverStatus.
Proof. solve_decision. Defined.

(** A pointer to an [IPCDriverRequest] of a driver is the index of the
    request in [driver->requests]; a pointer to an [IPCBuffer] is the index
    of the buffer in the global array [sIpcData->ipcBuffers]. *)
Abbreviation RequestPtr := nat (only parsing).
Abbreviation BufferPtr := Z (only parsing).

(** [IPCDriverFIFO]: [pushIndex], [popIndex], [count] and [maxCount] are
    [int32_t]; [requests] is an array of [IPCBufferCount] request
    pointers. *)
Record IPCDriverFIFO : Type := mkFIFO {
  pushIndex : Z;
  popIndex : Z;
  count : Z;
  maxCount : Z;
  fifo_requests : list (option RequestPtr)
}.

(** [IPCDriverRequest]: the fields the embedded functions touch.
    A callback or context pointer is an address. *)
Record IPCDriverRequest : Type := mkRequest {
  allocated : bool;
  unk0x04 : Z;
  asyncCallback : option Z;
  asyncContext : option Z;
  ipcBuffer : option BufferPtr
}.

(** The part of an [IPCBuffer] that the driver reads back. *)
Record IPCBuffer : Type := mkBuffer {
  buf_reply : Z
}.

(** [IPCDriver]: [ipcBuffers] points at the first of the core's
    [IPCBufferCount] buffers. *)
Record IPCDriver : Type := mkDriver {
  status : IPCDriverStatus;
  coreId : Z;
  ipcBuffers : BufferPtr;
  initialisedRequests : bool;
  freeFifo : IPCDriverFIFO;
  outboundFifo : IPCDriverFIFO;
  requests : list IPCDriverRequest;
  waitingFreeFifo : bool;
  failedAllocateRequestBlock : Z;
  failedFreeRequestBlock : Z;
  requestsSubmitted : Z;
  requestsProcessed : Z;
  numResponses : nat;
  responses : list (option BufferPtr)
}.

Definition set_status (s : IPCDriverStatus) (d : IPCDriver) : IPCDriver :=
  mkDriver s (coreId d) (ipcBuffers d) (initialisedRequests d) (freeFifo d)
    (outboundFifo d) (requests d) (waitingFreeFifo d)
    (failedAllocateRequestBlock d) (failedFreeRequestBlock d)
    (requestsSubmitted d) (requestsProcessed d) (numResponses d) (responses d).

Definition set_initialisedRequests (b : bool) (d : IPCDriver) : IPCDriver :=
  mkDriver (status d) (coreId d) (ipcBuffers d) b (freeFifo d)
    (outboundFifo d) (requests d) (waitingFreeFifo d)
    (failedAllocateRequestBlock d) (failedFreeRequestBlock d)
    (requestsSubmitted d) (requestsProcessed d) (numResponses d) (responses d).

Definition set_freeFifo (f : IPCDriverFIFO) (d : IPCDriver) : IPCDriver :=
  mkDriver (status d) (coreId d) (ipcBuffers d) (initialisedRequests d) f
    (outboundFifo d) (requests d) (waitingFreeFifo d)
    (failedAllocateRequestBlock d) (failedFreeRequestBlock d)
    (requestsSubmitted d) (requestsProcessed d) (numResponses d) (responses d).

Definition set_outboundFifo (f : IPCDriverFIFO) (d : IPCDriver) : IPCDriver :=
  mkDriver (status d) (coreId d) (ipcBuffers d) (initialisedRequests d)
    (freeFifo d) f (requests d) (waitingFreeFifo d)
    (failedAllocateRequestBlock d) (failedFreeRequestBlock d)
    (requestsSubmitted d) (requestsProcessed d) (numResponses d) (responses d).

Definition set_requests (rs : list IPCDriverRequest) (d : IPCDriver) : IPCDriver :=
  mkDriver (status d) (coreId d) (ipcBuffers d) (initialisedRequests d)
    (freeFifo d) (outboundFifo d) rs (waitingFreeFifo d)
    (failedAllocateRequestBlock d) (failedFreeRequestBlock d)
    (requestsSubmitted d) (requestsProcessed d) (numResponses d) (responses d).

Definition set_failedFreeRequestBlock (n : Z) (d : IPCDriver) : IPCDriver :=
  mkDriver (status d) (coreId d) (ipcBuffers d) (initialisedRequests d)
    (freeFifo d) (outboundFifo d) (requests d) (waitingFreeFifo d)
    (failedAllocateRequestBlock d) n
    (requestsSubmitted d) (requestsProcessed d) (numResponses d) (responses d).

Definition set_requestsProcessed (n : Z) (d : IPCDriver) : IPCDriver :=
  mkDriver (status d) (coreId d) (ipcBuffers d) (initialisedRequests d)
    (freeFifo d) (outboundFifo d) (requests d) (waitingFreeFifo d)
    (failedAllocateRequestBlock d) (failedFreeRequestBlock d)
    (requestsSubmitted d) n (numResponses d) (responses d).

Definition set_numResponses (n : nat) (d : IPCDriver) : IPCDriver :=
  mkDriver (status d) (coreId d) (ipcBuffers d) (initialisedRequests d)
    (freeFifo d) (outboundFifo d) (requests d) (waitingFreeFifo d)
    (failedAllocateRequestBlock d) (failedFreeRequestBlock d)
    (requestsSubmitted d) (requestsProcessed d) n (responses d).

Definition set_responses (rs : list (option BufferPtr)) (d : IPCDriver) : IPCDriver :=
  mkDriver (status d) (coreId d) (ipcBuffers d) (initialisedRequests d)
    (freeFifo d) (outboundFifo d) (requests d) (waitingFreeFifo d)
    (failedAllocateRequestBlock d) (failedFreeRequestBlock d)
    (requestsSubmitted d) (requestsProcessed d) (numResponses d) rs.

(** [request->allocated = b] *)
Definition set_allocated (b : bool) (r : IPCDriverRequest) : IPCDriverRequest :=
  mkRequest b (unk0x04 r) (asyncCallback r) (asyncContext r) (ipcBuffer r).

(** Calls that leave coreinit_ipc.cpp, in the order they are made. *)
Inductive IpcCall : Type :=
| Call_OSSignalEvent (request : RequestPtr)
| Call_asyncCallback (fn : Z) (reply : Z) (context : option Z).

Section IPC.

(** [IPCBufferCount] is declared in coreinit_ipc.h, which is not part of
    the embedded sources: it is a parameter. *)
Variable IPCBufferCount : nat.

(** [ipcDriverFifoInit] *)
Definition ipcDriverFifoInit (fifo : IPCDriverFIFO) : IPCDriverFIFO :=
  for_upto IPCBufferCount
    (fun i f =>
       mkFIFO (pushIndex f) (popIndex f) (count f) (maxCount f)
         (<[i := None]> (fifo_requests f)))
    (mkFIFO 0 (-1) 0 0 (fifo_requests fifo)).

(** [ipcDriverFifoPush].  The array store is at index [pushIndex]; the
    invariant [fifo_inv] below keeps that index inside the array. *)
Definition ipcDriverFifoPush (fifo : IPCDriverFIFO) (request : RequestPtr)
  : IOSError * IPCDriverFIFO :=
  if pushIndex fifo =? popIndex fifo then (IOS_QFull, fifo)
  else
    let requests' := <[Z.to_nat (pushIndex fifo) := Some request]> (fifo_requests fifo) in
    let popIndex' := if popIndex fifo =? -1 then pushIndex fifo else popIndex fifo in
    let count' := int32 (count fifo + 1) in
    let pushIndex' := (pushIndex fifo + 1) mod Z.of_nat IPCBufferCount in
    let maxCount' := if maxCount fifo <? count' then count' else maxCount fifo in
    (IOS_OK, mkFIFO pushIndex' popIndex' count' maxCount' requests').

(** [ipcDriverFifoPop]: the third component is [*requestOut], written only
    on success. *)
Definition ipcDriverFifoPop (fifo : IPCDriverFIFO)
  : IOSError * IPCDriverFIFO * option (option RequestPtr) :=
  if popIndex fifo =? -1 then (IOS_QEmpty, fifo, None)
  else
    let request := default None (fifo_requests fifo !! Z.to_nat (popIndex fifo)) in
    let count' := int32 (count fifo - 1) in
    let popIndex' :=
      if count' =? 0 then -1
      else (popIndex fifo + 1) mod Z.of_nat IPCBufferCount in
    (IOS_OK,
     mkFIFO (pushIndex fifo) popIndex' count' (maxCount fifo) (fifo_requests fifo),
     Some request).

(** What the first loop of [IPCDriverOpen] makes of request [i]:
    linked to buffer [i] of the core, callback and context cleared. *)
Definition linked (base : BufferPtr) (i : nat) (r : IPCDriverRequest) : IPCDriverRequest :=
  mkRequest (allocated r) (unk0x04 r) None None (Some (base + Z.of_nat i)).

(** The body of that loop. *)
Definition open_link_request (i : nat) (d : IPCDriver) : IPCDriver :=
  match requests d !! i with
  | Some request => set_requests (<[i := linked (ipcBuffers d) i request]> (requests d)) d
  | None => d
  end.

(** [IPCDriverOpen], on the driver that [getIPCDriver()] returns. *)
Definition IPCDriverOpen (driver : IPCDriver) : IOSError * IPCDriver :=
  if negb (bool_decide (status driver = Status_Closed)) &&
     negb (bool_decide (status driver = Status_Initialised))
  then (IOS_NotReady, driver)
  else
    (* Initialise requests *)
    let driver1 := for_upto IPCBufferCount open_link_request driver in
    let driver2 := set_initialisedRequests true driver1 in
    (* Initialise FIFO *)
    let driver3 := set_freeFifo (ipcDriverFifoInit (freeFifo driver2)) driver2 in
    let driver4 := set_outboundFifo (ipcDriverFifoInit (outboundFifo driver3)) driver3 in
    (* Push all items into free queue *)
    let driver5 :=
      for_upto IPCBufferCount
        (fun i d => set_freeFifo (snd (ipcDriverFifoPush (freeFifo d) i)) d)
        driver4 in
    (IOS_OK, driver5).

(** [IPCDriverClose] *)
Definition IPCDriverClose (driver : IPCDriver) : IOSError * IPCDriver :=
  (IOS_OK, set_status Status_Closed driver).

(** [ipcDriverFreeRequest] *)
Definition ipcDriverFreeRequest (driver : IPCDriver) (request : RequestPtr)
  : IOSError * IPCDriver :=
  let '(error, fifo') := ipcDriverFifoPush (freeFifo driver) request in
  let driver1 := set_freeFifo fifo' driver in
  let driver2 :=
    set_requests (alter (set_allocated false) request (requests driver1)) driver1 in
  let driver3 :=
    if bool_decide (error <> IOS_OK)
    then set_failedFreeRequestBlock (uint32 (failedFreeRequestBlock driver2 + 1)) driver2
    else driver2 in
  (error, driver3).

(** The two [decaf_check]s of [ipcDriverProcessResponses] on the index of
    a response buffer. *)
Definition response_index_checks (index : Z) : bool :=
  (0 <=? index) && (index <=? Z.of_nat IPCBufferCount).

(** One iteration of the loop of [ipcDriverProcessResponses], for
    [responses[i]]; [mem] reads an [IPCBuffer] through a pointer.  The
    array [driver->requests] has [IPCBufferCount] elements: an access at
    any other index is undefined behaviour. *)
Definition processResponse (mem : BufferPtr -> IPCBuffer) (i : nat)
    (st : IPCDriver * list IpcCall) : Outcome (IPCDriver * list IpcCall) :=
  let '(driver, calls) := st in
  match responses driver !! i with
  | None => Undefined "driver->responses[i] out of bounds"
  | Some None =>
      (* a null pointer lies below every buffer *)
      Aborted "index >= 0"
  | Some (Some buffer) =>
      let index := buffer - ipcBuffers driver in
      decaf_check (0 <=? index) "index >= 0" ;;
      decaf_check (index <=? Z.of_nat IPCBufferCount) "index <= IPCBufferCount" ;;
      if negb (index <? Z.of_nat IPCBufferCount)
      then Undefined "driver->requests[index] out of bounds"
      else
        match requests driver !! Z.to_nat index with
        | None => Undefined "driver->requests[index] out of bounds"
        | Some request =>
            decaf_check (bool_decide (ipcBuffer request = Some buffer))
              "request->ipcBuffer == buffer" ;;
            let '(driver1, calls1) :=
              match asyncCallback request with
              | None => (driver, calls ++ [Call_OSSignalEvent (Z.to_nat index)])
              | Some fn =>
                  (snd (ipcDriverFreeRequest driver (Z.to_nat index)),
                   calls ++ [Call_asyncCallback fn (buf_reply (mem buffer))
                               (asyncContext request)])
              end in
            let driver2 :=
              set_requestsProcessed (uint32 (requestsProcessed driver1 + 1)) driver1 in
            Done (set_responses (<[i := None]> (responses driver2)) driver2, calls1)
        end
  end.

(** [ipcDriverProcessResponses]: the loop over [driver->numResponses]
    responses, then [numResponses = 0]. *)
Definition ipcDriverProcessResponses (mem : BufferPtr -> IPCBuffer) (driver : IPCDriver)
  : Outcome (IPCDriver * list IpcCall) :=
  st ← fold_left (fun acc i => acc ≫= processResponse mem i)
         (seq 0 (numResponses driver)) (Done (driver, []));
  Done (set_numResponses 0 (fst st), snd st).

(** *** Runs of a FIFO *)

Inductive FifoOp : Type :=
| OpPush (request : RequestPtr)
| OpPop.

Definition fifo_step (fifo : IPCDriverFIFO) (op : FifoOp) : IPCDriverFIFO :=
  match op with
  | OpPush request => snd (ipcDriverFifoPush fifo request)
  | OpPop => snd (fst (ipcDriverFifoPop fifo))
  end.

(** The FIFO after [ipcDriverFifoInit] and the operations [ops], whatever
    each of them returned. *)
Definition fifo_run (fifo0 : IPCDriverFIFO) (ops : list FifoOp) : IPCDriverFIFO :=
  fold_left fifo_step ops (ipcDriverFifoInit fifo0).

(** The requests a FIFO holds, oldest first: [count] slots from
    [popIndex] on, modulo the capacity. *)
Definition fifo_contents (fifo : IPCDriverFIFO) : list (option RequestPtr) :=
  map (fun k =>
         default None
           (fifo_requests fifo !!
              Z.to_nat ((popIndex fifo + Z.of_nat k) mod Z.of_nat IPCBufferCount)))
      (seq 0 (Z.to_nat (count fifo))).

(** What every FIFO reached from [ipcDriverFifoInit] satisfies. *)
Record fifo_inv (f : IPCDriverFIFO) : Prop := mk_fifo_inv {
  inv_push_range : 0 <= pushIndex f < Z.of_nat IPCBufferCount;
  inv_count_range : 0 <= count f <= Z.of_nat IPCBufferCount;
  inv_empty : count f = 0 -> popIndex f = -1;
  inv_pop_range : 0 < count f -> 0 <= popIndex f < Z.of_nat IPCBufferCount;
  inv_push_pop : 0 < count f ->
                 pushIndex f = (popIndex f + count f) mod Z.of_nat IPCBufferCount
}.

End IPC.

(** ** Kernel IOS devices (kernel_ios.cpp) *)

(** How one call of [iosOpen] returned: through one of the two
    [return error] statements, or through
    [return static_cast<IOSError>(handle)]. *)
Inductive OpenReturn : Type :=
| ReturnError (error : Z)
| ReturnHandle (handle : Z).

Inductive IosOp : Type :=
| OpOpen (name : string) (mode : Z)
| OpClose (handle : Z).

Section IOS.

(** The numeric values of the [IOSError] enumerators and the devices
    themselves ([IOSDevice] and its subclasses) are declared outside the
    embedded sources.  They are parameters: [DeviceImpl] is the state of a
    device object, [device_open] and [device_close] are its virtual
    [open(mode)] and [close()] and return an [IOSError] value. *)
Variable IOSError_value : IOSError -> Z.
Variable DeviceImpl : Type.
Variable device_open : DeviceImpl -> Z -> Z * DeviceImpl.
Variable device_close : DeviceImpl -> Z * DeviceImpl.

(** An [IOSDevice] object: the handle stored by [setHandle] and read by
    [handle()], and the state of the implementation. *)
Record IOSDevice : Type := mkDevice {
  dev_handle : Z;
  dev_impl : DeviceImpl
}.

(** The statics of kernel_ios.cpp.  A [DeviceCreatorFn] is modelled by
    the object it constructs.  [DeviceHandles] is the function-local
    [static IOSHandle DeviceHandles = 1] of [iosOpen], a 32-bit signed
    integer. *)
Record IOSState : Type := mkIOS {
  sDeviceMap : gmap string DeviceImpl;
  sOpenDeviceMap : gmap Z IOSDevice;
  DeviceHandles : Z
}.

(** The state when the emulator starts, for a given device registry. *)
Definition ios_initial (registry : gmap string DeviceImpl) : IOSState :=
  mkIOS registry ∅ 1.

(** [iosGetDevice] *)
Definition iosGetDevice (st : IOSState) (handle : Z) : option IOSDevice :=
  sOpenDeviceMap st !! handle.

(** [iosOpen].  [DeviceHandles++] on the largest [int32_t] is a signed
    overflow. *)
Definition iosOpen (name : string) (mode : Z) (st : IOSState)
  : Outcome (OpenReturn * IOSState) :=
  (* Lookup device by name *)
  match sDeviceMap st !! name with
  | None => Done (ReturnError (IOSError_value IOS_NoExists), st)
  | Some creator =>
      (* Create device, call device open method *)
      let '(error, impl) := device_open creator mode in
      if negb (error =? IOSError_value IOS_OK)
      then Done (ReturnError error, st)
      else
        (* Open succeeded, register device to a unique handle *)
        let handle := DeviceHandles st in
        if 2 ^ 31 <=? handle + 1
        then Undefined "DeviceHandles++ overflows"
        else
          Done (ReturnHandle handle,
                mkIOS (sDeviceMap st)
                  (<[handle := mkDevice handle impl]> (sOpenDeviceMap st))
                  (handle + 1))
  end.

(** The [IOSError] that the caller of [iosOpen] receives. *)
Definition open_reply (r : OpenReturn) : Z :=
  match r with
  | ReturnError error => error
  | ReturnHandle handle => handle
  end.

(** [iosClose] *)
Definition iosClose (handle : Z) (st : IOSState) : Z * IOSState :=
  match iosGetDevice st handle with
  | None => (IOSError_value IOS_InvalidHandle, st)
  | Some device =>
      let '(reply, impl) := device_close (dev_impl device) in
      (reply,
       mkIOS (sDeviceMap st) (delete (dev_handle device) (sOpenDeviceMap st))
         (DeviceHandles st))
  end.

(** A run of Open and Close requests: the replies, in order, and the
    handles that the successful opens returned, in order. *)
Record IosLog : Type := mkIosLog {
  log_replies : list Z;
  log_handles : list Z
}.

Definition ios_step (acc : Outcome (IosLog * IOSState)) (op : IosOp)
  : Outcome (IosLog * IOSState) :=
  '(log, st) ← acc;
  match op with
  | OpOpen name mode =>
      '(r, st') ← iosOpen name mode st;
      Done (mkIosLog (log_replies log ++ [open_reply r])
              (log_handles log ++
                 match r with ReturnHandle h => [h] | ReturnError _ => [] end),
            st')
  | OpClose handle =>
      let '(reply, st') := iosClose handle st in
      Done (mkIosLog (log_replies log ++ [reply]) (log_handles log), st')
  end.

Definition ios_run (ops : list IosOp) (st : IOSState) : Outcome (IosLog * IOSState) :=
  fold_left ios_step ops (Done (mkIosLog [] [], st)).

(** The handles handed out so far are 1, 2, ..., k and the counter is
    k + 1. *)
Definition handles_inv (log : IosLog) (st : IOSState) : Prop :=
  exists k : nat,
    log_handles log = map Z.of_nat (seq 1 k) /\
    DeviceHandles st = Z.of_nat (S k).

End IOS.

(** ** FS command blocks (coreinit_fs_cmdblock.cpp) *)

(** The enumerators of [FSAStatus] that the embedded code names. *)
Inductive FSAStatusName : Set :=
| FSA_NotInit | FSA_OutOfRange | FSA_OutOfResources | FSA_LinkEntry
| FSA_UnavailableCmd | FSA_InvalidParam | FSA_InvalidPath | FSA_InvalidBuffer
| FSA_InvalidAlignment | FSA_InvalidClientHandle | FSA_InvalidFileHandle
| FSA_InvalidDirHandle | FSA_Busy | FSA_Cancelled | FSA_EndOfDir | FSA_EndOfFile
| FSA_MaxMountpoints | FSA_MaxVolumes | FSA_MaxClients | FSA_MaxFiles
| FSA_MaxDirs | FSA_AlreadyOpen | FSA_NotFound | FSA_AlreadyExists
| FSA_NotEmpty | FSA_AccessError | FSA_PermissionError | FSA_DataCorrupted
| FSA_StorageFull | FSA_JournalFull | FSA_UnsupportedCmd | FSA_NotFile
| FSA_NotDir | FSA_FileTooBig | FSA_MediaError | FSA_InvalidMedia
| FSA_MediaNotReady | FSA_WriteProtected.

Global Instance FSAStatusName_eq_dec : EqDecision FSAStatusName.
Proof. solve_decision. Defined.

(** The enumerators of [FSStatus] that the embedded code names. *)
Inductive FSStatusName : Set :=
| FS_Cancelled | FS_End | FS_Max | FS_AlreadyOpen | FS_NotFound | FS_Exists
| FS_AccessError | FS_PermissionError | FS_StorageFull | FS_JournalFull
| FS_UnsupportedCmd | FS_NotFile | FS_NotDirectory | FS_FileTooBig
| FS_FatalError.

(** The enumerators of [FSErrorFlag] that the embedded code names. *)
Inductive FSErrorFlagName : Set :=
| Flag_None | Flag_All | Flag_Max | Flag_AlreadyOpen | Flag_NotFound
| Flag_Exists | Flag_AccessError | Flag_PermissionError | Flag_StorageFull
| Flag_JournalFull | Flag_UnsupportedCmd | Flag_NotFile | Flag_NotDir
| Flag_FileTooBig.

Inductive FSVolumeState : Set :=
| Vol_Initial | Vol_Ready | Vol_NoMedia | Vol_WrongMedia | Vol_MediaError
| Vol_DataCorrupted | Vol_Fatal.

(** [FSCmdBlockStatus]; [BlockStatus_other] is any stored value that is
    none of the four enumerators (a block that was never initialised). *)
Inductive FSCmdBlockStatus : Set :=
| BlockStatus_Initialised
| BlockStatus_QueuedCommand
| BlockStatus_InProgress
| BlockStatus_Cancelled
| BlockStatus_other.

Global Instance FSCmdBlockStatus_eq_dec : EqDecision FSCmdBlockStatus.
Proof. solve_decision. Defined.

(** [FSACommand], as [fsCmdBlockFinishCmd] switches on it;
    [FSACmd_invalid] is any value without a case. *)
Inductive FSACommand : Set :=
| FSACmd_Mount | FSACmd_Unmount | FSACmd_ChangeDir | FSACmd_MakeDir
| FSACmd_Remove | FSACmd_Rename | FSACmd_RewindDir | FSACmd_CloseDir
| FSACmd_ReadFile | FSACmd_WriteFile | FSACmd_SetPosFile | FSACmd_IsEof
| FSACmd_CloseFile | FSACmd_GetError | FSACmd_FlushFile | FSACmd_AppendFile
| FSACmd_TruncateFile | FSACmd_MakeQuota | FSACmd_FlushQuota
| FSACmd_RollbackQuota | FSACmd_ChangeMode | FSACmd_RegisterFlushQuota
| FSACmd_FlushMultiQuota | FSACmd_RemoveQuota | FSACmd_MakeLink
| FSACmd_GetVolumeInfo | FSACmd_OpenDir | FSACmd_ReadDir | FSACmd_OpenFile
| FSACmd_OpenFileByStat | FSACmd_GetPosFile | FSACmd_StatFile
| FSACmd_GetFileBlockAddress | FSACmd_GetCwd | FSACmd_GetInfoByQuery
| FSACmd_invalid.

(** A value of type [FSFinishCmdFn]: one of the two finish functions of
    this file (as registered in [fsCmdBlockFinishCmdFn] and
    [fsCmdBlockFinishReadCmdFn]) or some other guest function. *)
Inductive FSFinishCmdFn : Set :=
| Fn_fsCmdBlockFinishCmd
| Fn_fsCmdBlockFinishReadCmd
| Fn_guest (address : Z).

(** The constants that coreinit_enum.h and coreinit_fs.h declare; these
    headers are not part of the embedded sources, so the values are
    parameters of the model. *)
Record FSConstants : Type := mkFSConstants {
  FSAStatus_value : FSAStatusName -> Z;
  FSStatus_value : FSStatusName -> Z;
  FSErrorFlag_value : FSErrorFlagName -> Z;
  FSCmdCancelFlags_Cancelling : Z;
  FSReadFlag_ReadWithPos : Z;
  FSMaxBytesPerRequest : Z
}.

Record FSAsyncData : Type := mkAsyncData {
  userCallback : option Z;
  userContext : option Z;
  ioMsgQueue : option Z
}.

(** [FSAsyncResult]: [ar_block] and [ar_status] are its [block] and
    [status] members. *)
Record FSAsyncResult : Type := mkAsyncResult {
  asyncData : FSAsyncData;
  ar_block : option Z;
  ar_status : Z
}.

(** [cmdData.readFile]: four [uint32_t]. *)
Record FSReadState : Type := mkReadState {
  bytesRead : Z;
  bytesRemaining : Z;
  readSize : Z;
  chunkSize : Z
}.

(** [fsaShimBuffer.request.readFile] *)
Record FSAReadFileRequest : Type := mkReadRequest {
  rq_buffer : Z;
  rq_size : Z;
  rq_count : Z;
  rq_pos : Z;
  rq_readFlags : Z
}.

Record IOSVec : Type := mkVec {
  paddr : Z;
  len : Z
}.

Record FSAShimBuffer : Type := mkShim {
  shim_command : FSACommand;
  request_readFile : FSAReadFileRequest;
  ioctlvVec : list IOSVec
}.

(** [FSCmdBlockBody]: [body_address] is the address of the body itself
    (what [clientBody->lastDequeuedCommand] is compared with), [block] the
    [FSCmdBlock] it lives in.  Of the output bindings in [cmdData] only
    what decides the control flow of [fsCmdBlockFinishCmd] is kept:
    [getCwd_bytes] is [cmdData.getCwd.bytes], [getCwd_len] the length of
    the path in the shim response and [getFileBlockAddress_address] is
    [cmdData.getFileBlockAddress.address]. *)
Record FSCmdBlockBody : Type := mkBlock {
  body_address : Z;
  block : option Z;
  blk_status : FSCmdBlockStatus;
  errorMask : Z;
  clientBody : option Z;
  cancelFlags : Z;
  finishCmdFn : option FSFinishCmdFn;
  asyncResult : FSAsyncResult;
  readFile : FSReadState;
  fsaShimBuffer : FSAShimBuffer;
  fsaStatus : Z;
  unk0x9EA : Z;
  unk0x9F4 : Z;
  getCwd_bytes : Z;
  getCwd_len : Z;
  getFileBlockAddress_address : option Z
}.

(** [FSClientBody]: [registered] is what [fsClientRegistered(clientBody)]
    returns.  The state machine [fsm] and the command queue [cmdQueue]
    are only passed on to functions outside this file. *)
Record FSClientBody : Type := mkClient {
  registered : bool;
  lastError : Z;
  lastDequeuedCommand : option Z
}.

(** Calls that leave coreinit_fs_cmdblock.cpp, in the order they are
    made.  A block argument is the address of the block body; the queue
    and state machine arguments are always those of the block's client.
    [Call_writeOutput] stands for the stores through a caller-supplied
    output pointer in [fsCmdBlockFinishCmd].  Mutex operations and logging
    are not recorded. *)
Inductive FsCall : Type :=
| Call_fsmSetState (state : FSVolumeState)
| Call_fsmEnterState (state : FSVolumeState)
| Call_fsCmdQueueFinishCmd
| Call_fsCmdQueuePushFront (blockBody : Z)
| Call_fsCmdQueueEnqueue (blockBody : Z) (sortByPriority : bool)
| Call_fsCmdQueueProcessCmd
| Call_fsAsyncResultInit (clientBody : Z)
| Call_OSSendMessage (queue : option Z) (msg_block : option Z) (msg_status : Z)
| Call_guestFinishCmdFn (address : Z) (blockBody : Z) (status : Z)
| Call_writeOutput (command : FSACommand).

(** What the functions of this file work on: the command block, the
    client body it points to, and the calls made so far. *)
Record World : Type := mkWorld {
  w_block : FSCmdBlockBody;
  w_client : FSClientBody;
  w_calls : list FsCall
}.

Definition set_block (b : FSCmdBlockBody) (w : World) : World :=
  mkWorld b (w_client w) (w_calls w).

Definition set_client (c : FSClientBody) (w : World) : World :=
  mkWorld (w_block w) c (w_calls w).

Definition call (c : FsCall) (w : World) : World :=
  mkWorld (w_block w) (w_client w) (w_calls w ++ [c]).

Definition set_blk_status (s : FSCmdBlockStatus) (b : FSCmdBlockBody) : FSCmdBlockBody :=
  mkBlock (body_address b) (block b) s (errorMask b) (clientBody b) (cancelFlags b)
    (finishCmdFn b) (asyncResult b) (readFile b) (fsaShimBuffer b) (fsaStatus b)
    (unk0x9EA b) (unk0x9F4 b) (getCwd_bytes b) (getCwd_len b)
    (getFileBlockAddress_address b).

Definition set_errorMask (m : Z) (b : FSCmdBlockBody) : FSCmdBlockBody :=
  mkBlock (body_address b) (block b) (blk_status b) m (clientBody b) (cancelFlags b)
    (finishCmdFn b) (asyncResult b) (readFile b) (fsaShimBuffer b) (fsaStatus b)
    (unk0x9EA b) (unk0x9F4 b) (getCwd_bytes b) (getCwd_len b)
    (getFileBlockAddress_address b).

Definition set_clientBody (c : option Z) (b : FSCmdBlockBody) : FSCmdBlockBody :=
  mkBlock (body_address b) (block b) (blk_status b) (errorMask b) c (cancelFlags b)
    (finishCmdFn b) (asyncResult b) (readFile b) (fsaShimBuffer b) (fsaStatus b)
    (unk0x9EA b) (unk0x9F4 b) (getCwd_bytes b) (getCwd_len b)
    (getFileBlockAddress_address b).

Definition set_cancelFlags (f : Z) (b : FSCmdBlockBody) : FSCmdBlockBody :=
  mkBlock (body_address b) (block b) (blk_status b) (errorMask b) (clientBody b) f
    (finishCmdFn b) (asyncResult b) (readFile b) (fsaShimBuffer b) (fsaStatus b)
    (unk0x9EA b) (unk0x9F4 b) (getCwd_bytes b) (getCwd_len b)
    (getFileBlockAddress_address b).

Definition set_finishCmdFn (fn : option FSFinishCmdFn) (b : FSCmdBlockBody) : FSCmdBlockBody :=
  mkBlock (body_address b) (block b) (blk_status b) (errorMask b) (clientBody b)
    (cancelFlags b) fn (asyncResult b) (readFile b) (fsaShimBuffer b) (fsaStatus b)
    (unk0x9EA b) (unk0x9F4 b) (getCwd_bytes b) (getCwd_len b)
    (getFileBlockAddress_address b).

Definition set_asyncResult (r : FSAsyncResult) (b : FSCmdBlockBody) : FSCmdBlockBody :=
  mkBlock (body_address b) (block b) (blk_status b) (errorMask b) (clientBody b)
    (cancelFlags b) (finishCmdFn b) r (readFile b) (fsaShimBuffer b) (fsaStatus b)
    (unk0x9EA b) (unk0x9F4 b) (getCwd_bytes b) (getCwd_len b)
    (getFileBlockAddress_address b).

Definition set_readFile (r : FSReadState) (b : FSCmdBlockBody) : FSCmdBlockBody :=
  mkBlock (body_address b) (block b) (blk_status b) (errorMask b) (clientBody b)
    (cancelFlags b) (finishCmdFn b) (asyncResult b) r (fsaShimBuffer b) (fsaStatus b)
    (unk0x9EA b) (unk0x9F4 b) (getCwd_bytes b) (getCwd_len b)
    (getFileBlockAddress_address b).

Definition set_fsaShimBuffer (s : FSAShimBuffer) (b : FSCmdBlockBody) : FSCmdBlockBody :=
  mkBlock (body_address b) (block b) (blk_status b) (errorMask b) (clientBody b)
    (cancelFlags b) (finishCmdFn b) (asyncResult b) (readFile b) s (fsaStatus b)
    (unk0x9EA b) (unk0x9F4 b) (getCwd_bytes b) (getCwd_len b)
    (getFileBlockAddress_address b).

Definition clear_unk (b : FSCmdBlockBody) : FSCmdBlockBody :=
  mkBlock (body_address b) (block b) (blk_status b) (errorMask b) (clientBody b)
    (cancelFlags b) (finishCmdFn b) (asyncResult b) (readFile b) (fsaShimBuffer b)
    (fsaStatus b) 0 0 (getCwd_bytes b) (getCwd_len b)
    (getFileBlockAddress_address b).

Definition set_lastError (e : Z) (c : FSClientBody) : FSClientBody :=
  mkClient (registered c) e (lastDequeuedCommand c).

Definition set_lastDequeuedCommand (p : option Z) (c : FSClientBody) : FSClientBody :=
  mkClient (registered c) (lastError c) p.

(** [if (clientBody->lastDequeuedCommand == blockBody)
        clientBody->lastDequeuedCommand = nullptr;] *)
Definition forget_if_last_dequeued (w : World) : World :=
  if bool_decide (lastDequeuedCommand (w_client w) = Some (body_address (w_block w)))
  then set_client (set_lastDequeuedCommand None (w_client w)) w
  else w.

Section FS.

Variable K : FSConstants.

(** Two functions that this file calls and whose result it uses are
    defined elsewhere in the repository; they are parameters.
    [OSSendMessage queue] is what [OSSendMessage(queue, msg,
    OSMessageFlags::None)] returns, [fsAsyncResultInit] returns a status
    and the initialised [FSAsyncResult]. *)
Variable OSSendMessage : option Z -> bool.
Variable fsAsyncResultInit : Z -> FSAsyncResult -> FSAsyncData -> Z * FSAsyncResult.

Local Abbreviation FSAStatus := (FSAStatus_value K).
Local Abbreviation FSStatus := (FSStatus_value K).
Local Abbreviation FSErrorFlag := (FSErrorFlag_value K).

(** [fsCmdBlockPrepareAsync].  [calls] are the calls made before this
    one. *)
Definition fsCmdBlockPrepareAsync (clientBody : option Z)
    (blockBody : option FSCmdBlockBody) (errorMask : Z) (asyncData : FSAsyncData)
    (calls : list FsCall) : Outcome (Z * FSCmdBlockBody * list FsCall) :=
  match clientBody, blockBody with
  | None, _ => Aborted "decaf_check(clientBody)"
  | _, None => Aborted "decaf_check(blockBody)"
  | Some client, Some body =>
      if negb (bool_decide (blk_status body = BlockStatus_Initialised)) &&
         negb (bool_decide (blk_status body = BlockStatus_Cancelled))
      then Done (FSStatus FS_FatalError, body, calls)
      else if bool_decide (is_Some (userCallback asyncData)) &&
              bool_decide (is_Some (ioMsgQueue asyncData))
      then Done (FSStatus FS_FatalError, body, calls)
      else
        let body1 := set_errorMask errorMask body in
        let body2 := set_clientBody (Some client) body1 in
        let '(status, result) := fsAsyncResultInit client (asyncResult body2) asyncData in
        Done (status, set_asyncResult result body2,
              calls ++ [Call_fsAsyncResultInit client])
  end.

(** [fsCmdBlockSetResult] *)
Definition fsCmdBlockSetResult (status : Z) (w : World) : Outcome World :=
  let body := w_block w in
  let result := mkAsyncResult (asyncData (asyncResult body)) (block body) status in
  let queue := ioMsgQueue (asyncData result) in
  let w1 := call (Call_OSSendMessage queue (ar_block result) (ar_status result))
              (set_block (set_asyncResult result body) w) in
  if OSSendMessage queue then Done w1
  else Aborted "fsCmdBlockReplyResult: Could not send async result message".

(** [fsCmdBlockFinishCmd] *)
Definition fsCmdBlockFinishCmd (result : Z) (w : World) : Outcome World :=
  let w1 :=
    set_block
      (set_cancelFlags
         (Z.ldiff (cancelFlags (w_block w)) (FSCmdCancelFlags_Cancelling K))
         (w_block w)) w in
  let w2 := forget_if_last_dequeued w1 in
  let w3 := set_block (set_blk_status BlockStatus_Cancelled (w_block w2)) w2 in
  if result <? 0 then fsCmdBlockSetResult result w3
  else
    let w4 := set_block (clear_unk (w_block w3)) w3 in
    let body := w_block w4 in
    match shim_command (fsaShimBuffer body) with
    | FSACmd_Mount | FSACmd_Unmount | FSACmd_ChangeDir | FSACmd_MakeDir
    | FSACmd_Remove | FSACmd_Rename | FSACmd_RewindDir | FSACmd_CloseDir
    | FSACmd_ReadFile | FSACmd_WriteFile | FSACmd_SetPosFile | FSACmd_IsEof
    | FSACmd_CloseFile | FSACmd_GetError | FSACmd_FlushFile | FSACmd_AppendFile
    | FSACmd_TruncateFile | FSACmd_MakeQuota | FSACmd_FlushQuota
    | FSACmd_RollbackQuota | FSACmd_ChangeMode | FSACmd_RegisterFlushQuota
    | FSACmd_FlushMultiQuota | FSACmd_RemoveQuota | FSACmd_MakeLink =>
        fsCmdBlockSetResult result w4
    | FSACmd_GetVolumeInfo =>
        fsCmdBlockSetResult result (call (Call_writeOutput FSACmd_GetVolumeInfo) w4)
    | FSACmd_OpenDir =>
        fsCmdBlockSetResult result (call (Call_writeOutput FSACmd_OpenDir) w4)
    | FSACmd_ReadDir =>
        fsCmdBlockSetResult result (call (Call_writeOutput FSACmd_ReadDir) w4)
    | FSACmd_OpenFile | FSACmd_OpenFileByStat =>
        fsCmdBlockSetResult result (call (Call_writeOutput FSACmd_OpenFile) w4)
    | FSACmd_GetPosFile =>
        fsCmdBlockSetResult result (call (Call_writeOutput FSACmd_GetPosFile) w4)
    | FSACmd_StatFile =>
        fsCmdBlockSetResult result (call (Call_writeOutput FSACmd_StatFile) w4)
    | FSACmd_GetFileBlockAddress =>
        match getFileBlockAddress_address body with
        | Some _ =>
            fsCmdBlockSetResult result
              (call (Call_writeOutput FSACmd_GetFileBlockAddress) w4)
        | None => fsCmdBlockSetResult result w4
        end
    | FSACmd_GetCwd =>
        if negb (getCwd_bytes body =? 0)
        then
          decaf_check (getCwd_len body <? getCwd_bytes body) "len < bytes" ;;
          fsCmdBlockSetResult result (call (Call_writeOutput FSACmd_GetCwd) w4)
        else fsCmdBlockSetResult result w4
    | FSACmd_GetInfoByQuery => Aborted "TODO: Reverse me."
    | FSACmd_invalid => Aborted "Invalid FSA command"
    end.

(** The block that [fsCmdBlockFinishReadCmd] requeues when a read of
    [bytesRead'] more bytes did not complete the command; [rs1] is the
    read state with the two counters already updated. *)
Definition read_continuation (bytesRead' : Z) (rs1 : FSReadState) (w : World) : World :=
  (* Check if we can read the final chunk yet *)
  let rs2 :=
    mkReadState (bytesRead rs1) (bytesRemaining rs1)
      (if FSMaxBytesPerRequest K <? bytesRemaining rs1
       then FSMaxBytesPerRequest K
       else bytesRemaining rs1)
      (chunkSize rs1) in
  (* Queue a new read request *)
  let shim := fsaShimBuffer (w_block w) in
  let rq := request_readFile shim in
  let rq1 :=
    mkReadRequest (uint32 (rq_buffer rq + bytesRead')) (readSize rs2) 1
      (if negb (Z.land (rq_readFlags rq) (FSReadFlag_ReadWithPos K) =? 0)
       then uint32 (rq_pos rq + bytesRead')
       else rq_pos rq)
      (rq_readFlags rq) in
  let shim1 :=
    mkShim (shim_command shim) rq1
      (<[1%nat := mkVec (rq_buffer rq1) (rq_size rq1)]> (ioctlvVec shim)) in
  set_block (set_fsaShimBuffer shim1 (set_readFile rs2 (w_block w))) w.

(** The read state after [bytesRead'] more bytes:
    [bytesRead += bytesRead'; bytesRemaining -= bytesRead']. *)
Definition read_progress (bytesRead' : Z) (rs : FSReadState) : FSReadState :=
  mkReadState (uint32 (bytesRead rs + bytesRead'))
    (uint32 (bytesRemaining rs - bytesRead')) (readSize rs) (chunkSize rs).

(** The case labels of the switch in [fsCmdBlockHandleResult], in source
    order, and the label that a value selects. *)
Definition handleResult_case_labels : list FSAStatusName :=
  [FSA_NotInit; FSA_OutOfRange; FSA_OutOfResources; FSA_LinkEntry;
   FSA_UnavailableCmd; FSA_InvalidParam; FSA_InvalidPath; FSA_InvalidBuffer;
   FSA_InvalidAlignment; FSA_InvalidClientHandle; FSA_InvalidFileHandle;
   FSA_InvalidDirHandle; FSA_Busy; FSA_Cancelled; FSA_EndOfDir; FSA_EndOfFile;
   FSA_MaxMountpoints; FSA_MaxVolumes; FSA_MaxClients; FSA_MaxFiles;
   FSA_MaxDirs; FSA_AlreadyOpen; FSA_NotFound; FSA_AlreadyExists; FSA_NotEmpty;
   FSA_AccessError; FSA_PermissionError; FSA_DataCorrupted; FSA_StorageFull;
   FSA_JournalFull; FSA_UnsupportedCmd; FSA_NotFile; FSA_NotDir;
   FSA_FileTooBig; FSA_MediaError; FSA_InvalidMedia].

Definition switch_label (value : Z) : option FSAStatusName :=
  List.find (fun label => value =? FSAStatus label) handleResult_case_labels.

(** The next four functions call through the pointer
    [blockBody->finishCmdFn]; [invoke] is that call. *)
Section Finish.

Variable invoke : FSFinishCmdFn -> Z -> World -> Outcome World.

(** [fsCmdBlockReplyResult], for a block body that is not null. *)
Definition fsCmdBlockReplyResult (status : Z) (w : World) : Outcome World :=
  (* Finish the current command *)
  let w1 := call Call_fsCmdQueueFinishCmd w in
  w2 ← match finishCmdFn (w_block w1) with
       | Some fn => invoke fn status w1
       | None => Done w1
       end;
  (* Start off next command *)
  Done (call Call_fsCmdQueueProcessCmd w2).

(** [fsCmdBlockRequeue], on the command queue of the block's client. *)
Definition fsCmdBlockRequeue (insertAtFront : bool)
    (finishCmdFn : option FSFinishCmdFn) (w : World) : Outcome World :=
  let body := w_block w in
  if negb (Z.land (cancelFlags body) (FSCmdCancelFlags_Cancelling K) =? 0)
  then
    let body1 :=
      set_cancelFlags (Z.ldiff (cancelFlags body) (FSCmdCancelFlags_Cancelling K))
        body in
    let body2 := set_blk_status BlockStatus_Cancelled body1 in
    let w1 := set_client (set_lastDequeuedCommand None (w_client w))
                (set_block body2 w) in
    fsCmdBlockReplyResult (FSStatus FS_Cancelled) w1
  else
    let body1 := set_finishCmdFn finishCmdFn body in
    let body2 := set_blk_status BlockStatus_QueuedCommand body1 in
    let w1 := call Call_fsCmdQueueFinishCmd (set_block body2 w) in
    let w2 :=
      if insertAtFront
      then call (Call_fsCmdQueuePushFront (body_address body2)) w1
      else call (Call_fsCmdQueueEnqueue (body_address body2) true) w1 in
    Done (call Call_fsCmdQueueProcessCmd w2).

(** [fsCmdBlockFinishReadCmd].  [result] is an [FSStatus] (an
    [int32_t]); the read state and the read request hold [uint32_t]
    values and 32-bit guest addresses. *)
Definition fsCmdBlockFinishReadCmd (result : Z) (w : World) : Outcome World :=
  let bytesRead' := uint32 result in
  if result <? 0 then fsCmdBlockFinishCmd result w
  else
    (* Update read state *)
    let rs1 := read_progress bytesRead' (readFile (w_block w)) in
    (* Check if the read is complete *)
    if (bytesRemaining rs1 =? 0) || (bytesRead' <? readSize rs1)
    then
      if chunkSize rs1 =? 0 then Undefined "division by zero"
      else
        let chunksRead := bytesRead rs1 / chunkSize rs1 in
        fsCmdBlockFinishCmd (int32 chunksRead)
          (set_block (set_readFile rs1 (w_block w)) w)
    else
      fsCmdBlockRequeue false (Some Fn_fsCmdBlockFinishReadCmd)
        (read_continuation bytesRead' rs1 w).

(** [fsCmdBlockHandleResult] *)
Definition fsCmdBlockHandleResult (w : World) : Outcome World :=
  let blockBody := w_block w in
  let result := fsaStatus blockBody in
  let errorFlags := FSErrorFlag Flag_All in
  if negb (registered (w_client w))
  then
    match finishCmdFn blockBody with
    | Some fn => invoke fn (FSStatus FS_Cancelled) w
    | None => Done w
    end
  else
    let w := set_client (set_lastError (fsaStatus blockBody) (w_client w)) w in
    if fsaStatus blockBody =? FSAStatus FSA_MediaNotReady
    then Done (call (Call_fsmSetState Vol_WrongMedia) w)
    else if fsaStatus blockBody =? FSAStatus FSA_WriteProtected
    then Done (call (Call_fsmSetState Vol_MediaError) w)
    else
      (* what follows the switch, or the whole [if] when the status is
         not negative *)
      let reply (result : Z) (w : World) :=
        fsCmdBlockReplyResult result
          (forget_if_last_dequeued w) in
      let after_switch (errorFlags result : Z) (w : World) :=
        if negb (Z.land (errorMask blockBody) errorFlags =? 0)
        then Done (call (Call_fsmEnterState Vol_Fatal) w)
        else reply result w in
      if fsaStatus blockBody <? 0
      then
        match switch_label (fsaStatus blockBody) with
        | Some (FSA_NotInit | FSA_OutOfRange | FSA_OutOfResources | FSA_LinkEntry
               | FSA_UnavailableCmd | FSA_InvalidParam | FSA_InvalidPath
               | FSA_InvalidBuffer | FSA_InvalidAlignment | FSA_InvalidClientHandle
               | FSA_InvalidFileHandle | FSA_InvalidDirHandle) =>
            after_switch (FSErrorFlag Flag_None) result w
        | Some FSA_Busy =>
            fsCmdBlockRequeue true (finishCmdFn blockBody) w
        | Some FSA_Cancelled => after_switch errorFlags (FSStatus FS_Cancelled) w
        | Some FSA_EndOfDir => after_switch errorFlags (FSStatus FS_End) w
        | Some FSA_EndOfFile => after_switch errorFlags (FSStatus FS_End) w
        | Some (FSA_MaxMountpoints | FSA_MaxVolumes | FSA_MaxClients | FSA_MaxFiles
               | FSA_MaxDirs) =>
            after_switch (FSErrorFlag Flag_Max) (FSStatus FS_Max) w
        | Some FSA_AlreadyOpen =>
            after_switch (FSErrorFlag Flag_AlreadyOpen) (FSStatus FS_AlreadyOpen) w
        | Some FSA_NotFound =>
            after_switch (FSErrorFlag Flag_NotFound) (FSStatus FS_NotFound) w
        | Some (FSA_AlreadyExists | FSA_NotEmpty) =>
            after_switch (FSErrorFlag Flag_Exists) (FSStatus FS_Exists) w
        | Some FSA_AccessError =>
            after_switch (FSErrorFlag Flag_AccessError) (FSStatus FS_AccessError) w
        | Some FSA_PermissionError =>
            after_switch (FSErrorFlag Flag_PermissionError)
              (FSStatus FS_PermissionError) w
        | Some FSA_DataCorrupted => Aborted "TODO: Reverse me."
        | Some FSA_StorageFull =>
            after_switch (FSErrorFlag Flag_StorageFull) (FSStatus FS_StorageFull) w
        | Some FSA_JournalFull =>
            after_switch (FSErrorFlag Flag_JournalFull) (FSStatus FS_JournalFull) w
        | Some FSA_UnsupportedCmd =>
            after_switch (FSErrorFlag Flag_UnsupportedCmd)
              (FSStatus FS_UnsupportedCmd) w
        | Some FSA_NotFile =>
            after_switch (FSErrorFlag Flag_NotFile) (FSStatus FS_NotFile) w
        | Some FSA_NotDir =>
            after_switch (FSErrorFlag Flag_NotDir) (FSStatus FS_NotDirectory) w
        | Some FSA_FileTooBig =>
            after_switch (FSErrorFlag Flag_FileTooBig) (FSStatus FS_FileTooBig) w
        | Some FSA_MediaError => Aborted "TODO: Reverse me."
        | Some FSA_InvalidMedia => Done w
        | Some (FSA_MediaNotReady | FSA_WriteProtected) | None =>
            (* no case label matches *)
            after_switch errorFlags result w
        end
      else reply result w.

End Finish.

(** A call through a pointer of type [FSFinishCmdFn].  The nesting of
    such calls is bounded by [fuel]; [invoke_fuel_enough] below shows that
    two levels are all that a call ever needs.  The functions above are
    run with [invokeFinishCmdFn fuel] for [invoke]. *)
Fixpoint invokeFinishCmdFn (fuel : nat) (fn : FSFinishCmdFn) (status : Z) (w : World)
  : Outcome World :=
  match fuel with
  | O => OutOfFuel
  | S fuel' =>
      match fn with
      | Fn_fsCmdBlockFinishCmd => fsCmdBlockFinishCmd status w
      | Fn_fsCmdBlockFinishReadCmd =>
          fsCmdBlockFinishReadCmd (invokeFinishCmdFn fuel') status w
      | Fn_guest address =>
          Done (call (Call_guestFinishCmdFn address (body_address (w_block w)) status) w)
      end
  end.

End FS.

(** The enumerators of [FSAStatus] have pairwise distinct values. *)
Definition FSAStatus_distinct (K : FSConstants) : Prop :=
  forall a b : FSAStatusName, FSAStatus_value K a = FSAStatus_value K b -> a = b.

(** The block is not being cancelled: the Cancelling bit of its cancel
    flags is clear. *)
Definition not_cancelling (K : FSConstants) (w : World) : Prop :=
  Z.land (cancelFlags (w_block w)) (FSCmdCancelFlags_Cancelling K) = 0.

(** The status translation table as the specification gives it
    (section 4.7), for the rows that name an [FSStatus] and error flags:
    the [FSStatus] ([None] for "passthrough negative") and the error flag
    of each FSA status.  The rows with a side effect instead (Busy,
    InvalidMedia, MediaNotReady, WriteProtected, DataCorrupted,
    MediaError) have no entry. *)
Definition table_4_7 (s : FSAStatusName) : option (option FSStatusName * FSErrorFlagName) :=
  match s with
  | FSA_NotInit | FSA_OutOfRange | FSA_OutOfResources | FSA_LinkEntry
  | FSA_UnavailableCmd | FSA_InvalidParam | FSA_InvalidPath | FSA_InvalidBuffer
  | FSA_InvalidAlignment | FSA_InvalidClientHandle | FSA_InvalidFileHandle
  | FSA_InvalidDirHandle => Some (None, Flag_None)
  | FSA_Cancelled => Some (Some FS_Cancelled, Flag_All)
  | FSA_EndOfDir | FSA_EndOfFile => Some (Some FS_End, Flag_All)
  | FSA_MaxMountpoints | FSA_MaxVolumes | FSA_MaxClients | FSA_MaxFiles
  | FSA_MaxDirs => Some (Some FS_Max, Flag_Max)
  | FSA_AlreadyOpen => Some (Some FS_AlreadyOpen, Flag_AlreadyOpen)
  | FSA_NotFound => Some (Some FS_NotFound, Flag_NotFound)
  | FSA_AlreadyExists | FSA_NotEmpty => Some (Some FS_Exists, Flag_Exists)
  | FSA_AccessError => Some (Some FS_AccessError, Flag_AccessError)
  | FSA_PermissionError => Some (Some FS_PermissionError, Flag_PermissionError)
  | FSA_StorageFull => Some (Some FS_StorageFull, Flag_StorageFull)
  | FSA_JournalFull => Some (Some FS_JournalFull, Flag_JournalFull)
  | FSA_UnsupportedCmd => Some (Some FS_UnsupportedCmd, Flag_UnsupportedCmd)
  | FSA_NotFile => Some (Some FS_NotFile, Flag_NotFile)
  | FSA_NotDir => Some (Some FS_NotDirectory, Flag_NotDir)
  | FSA_FileTooBig => Some (Some FS_FileTooBig, Flag_FileTooBig)
  | FSA_Busy | FSA_InvalidMedia | FSA_MediaNotReady | FSA_WriteProtected
  | FSA_DataCorrupted | FSA_MediaError => None
  end.

(** ** Concrete inputs

    The values below are used to run the model on concrete inputs.
    [sample_constants] is one numbering of the enumerators (distinct
    negative [FSAStatus] values, negative [FSStatus] values, one bit per
    error flag) with a 256 KB limit per read request. *)

Definition sample_FSAStatus (s : FSAStatusName) : Z :=
  match s with
  | FSA_NotInit => -196609 | FSA_Busy => -196610 | FSA_Cancelled => -196611
  | FSA_EndOfDir => -196612 | FSA_EndOfFile => -196613
  | FSA_MaxMountpoints => -196624 | FSA_MaxVolumes => -196625
  | FSA_MaxClients => -196626 | FSA_MaxFiles => -196627 | FSA_MaxDirs => -196628
  | FSA_AlreadyOpen => -196629 | FSA_AlreadyExists => -196630
  | FSA_NotFound => -196631 | FSA_NotEmpty => -196632
  | FSA_AccessError => -196633 | FSA_PermissionError => -196634
  | FSA_DataCorrupted => -196635 | FSA_StorageFull => -196636
  | FSA_JournalFull => -196637 | FSA_LinkEntry => -196638
  | FSA_UnavailableCmd => -196639 | FSA_UnsupportedCmd => -196640
  | FSA_InvalidParam => -196641 | FSA_InvalidPath => -196642
  | FSA_InvalidBuffer => -196643 | FSA_InvalidAlignment => -196644
  | FSA_InvalidClientHandle => -196645 | FSA_InvalidFileHandle => -196646
  | FSA_InvalidDirHandle => -196647 | FSA_NotFile => -196648
  | FSA_NotDir => -196649 | FSA_FileTooBig => -196650
  | FSA_OutOfRange => -196651 | FSA_OutOfResources => -196652
  | FSA_MediaNotReady => -196672 | FSA_MediaError => -196673
  | FSA_WriteProtected => -196674 | FSA_InvalidMedia => -196675
  end.

Definition sample_FSStatus (s : FSStatusName) : Z :=
  match s with
  | FS_Cancelled => -1 | FS_End => -2 | FS_Max => -3 | FS_AlreadyOpen => -4
  | FS_Exists => -5 | FS_NotFound => -6 | FS_NotFile => -7
  | FS_NotDirectory => -8 | FS_AccessError => -9 | FS_PermissionError => -10
  | FS_FileTooBig => -11 | FS_StorageFull => -12 | FS_JournalFull => -13
  | FS_UnsupportedCmd => -14 | FS_FatalError => -1024
  end.

Definition sample_FSErrorFlag (f : FSErrorFlagName) : Z :=
  match f with
  | Flag_None => 0 | Flag_Max => 1 | Flag_AlreadyOpen => 2 | Flag_Exists => 4
  | Flag_NotFound => 8 | Flag_NotFile => 16 | Flag_NotDir => 32
  | Flag_AccessError => 64 | Flag_PermissionError => 128
  | Flag_FileTooBig => 256 | Flag_StorageFull => 512
  | Flag_UnsupportedCmd => 1024 | Flag_JournalFull => 2048
  | Flag_All => 4294967295
  end.

Definition sample_constants : FSConstants :=
  mkFSConstants sample_FSAStatus sample_FSStatus sample_FSErrorFlag 1 1 262144.

(** A command block for a 300 KB read in chunks of 4096 bytes, before
    the first reply: the first request asks for 256 KB. *)
Definition sample_read_block : FSCmdBlockBody :=
  mkBlock 4096 (Some 4080) BlockStatus_InProgress 0 (Some 8192) 0
    (Some Fn_fsCmdBlockFinishReadCmd)
    (mkAsyncResult (mkAsyncData None None (Some 12288)) None 0)
    (mkReadState 0 307200 262144 4096)
    (mkShim FSACmd_ReadFile (mkReadRequest 65536 262144 1 0 0)
       [mkVec 0 0; mkVec 65536 262144; mkVec 0 0])
    0 0 0 0 0 None.

Definition sample_client : FSClientBody :=
  mkClient true 0 (Some 4096).

Definition sample_world : World :=
  mkWorld sample_read_block sample_client [].

(** The sample read after its first reply of 256 KB. *)
Definition sample_world_second_round : World :=
  mkWorld
    (mkBlock 4096 (Some 4080) BlockStatus_QueuedCommand 0 (Some 8192) 0
       (Some Fn_fsCmdBlockFinishReadCmd)
       (mkAsyncResult (mkAsyncData None None (Some 12288)) None 0)
       (mkReadState 262144 45056 45056 4096)
       (mkShim FSACmd_ReadFile (mkReadRequest 327680 45056 1 0 0)
          [mkVec 0 0; mkVec 327680 45056; mkVec 0 0])
       0 0 0 0 0 None)
    sample_client
    [Call_fsCmdQueueFinishCmd; Call_fsCmdQueueEnqueue 4096 true;
     Call_fsCmdQueueProcessCmd].

(** The same block with a given FSA status and error mask. *)
Definition sample_world_with (fsa_status error_mask : Z) : World :=
  mkWorld
    (mkBlock 4096 (Some 4080) BlockStatus_InProgress error_mask (Some 8192) 0
       (Some Fn_fsCmdBlockFinishCmd)
       (mkAsyncResult (mkAsyncData None None (Some 12288)) None 0)
       (mkReadState 0 0 0 0)
       (mkShim FSACmd_MakeDir (mkReadRequest 0 0 0 0 0) [])
       fsa_status 0 0 0 0 None)
    sample_client [].

(** A message queue that accepts every message, and an
    [fsAsyncResultInit] that stores the async data and returns 0. *)
Definition sample_OSSendMessage (queue : option Z) : bool := true.

Definition sample_fsAsyncResultInit (client : Z) (result : FSAsyncResult)
    (data : FSAsyncData) : Z * FSAsyncResult :=
  (0, mkAsyncResult data (ar_block result) (ar_status result)).

(** A numbering of [IOSError] and a registry with the one device
    "/dev/fsa", whose [open] and [close] return OK. *)
Definition sample_IOSError (e : IOSError) : Z :=
  match e with
  | IOS_OK => 0 | IOS_NoExists => -6 | IOS_QEmpty => -7 | IOS_QFull => -8
  | IOS_NotReady => -10 | IOS_InvalidHandle => -12 | IOS_FailInternal => -29
  end.

Definition sample_device_open (impl : unit) (mode : Z) : Z * unit := (0, impl).

Definition sample_device_close (impl : unit) : Z * unit := (0, impl).

Definition sample_registry : gmap string unit := {[ "/dev/fsa"%string := tt ]}.

Definition sample_ios_ops : list IosOp :=
  [OpOpen "/dev/fsa" 0; OpOpen "/dev/fsa" 0; OpClose 1; OpOpen "/dev/fsa" 0;
   OpOpen "/dev/x" 0].

(** The same on a client that is no longer registered. *)
Definition sample_world_unregistered (fsa_status error_mask : Z) : World :=
  set_client (mkClient false 0 (Some 4096)) (sample_world_with fsa_status error_mask).

(** A driver of four requests and buffers, as [IPCDriverInit] leaves it
    on core 0. *)
Definition sample_driver : IPCDriver :=
  mkDriver Status_Initialised 0 0 false
    (mkFIFO 0 0 0 0 [None; None; None; None])
    (mkFIFO 0 0 0 0 [None; None; None; None])
    (replicate 4 (mkRequest false 0 None None None))
    false 0 0 0 0 0 [None; None; None; None].

(* ===================================================================== *)
(** * Part I, continued: further functions of the embedded files          *)
(* ===================================================================== *)

(** ** [IPCBuffer], in full *)

(** [IOSCommand]; [IOSCmd_other] is any value that is none of the
    enumerators. *)
Inductive IOSCommand : Set :=
| IOSCmd_Open
| IOSCmd_Close
| IOSCmd_Read
| IOSCmd_Write
| IOSCmd_Seek
| IOSCmd_Ioctl
| IOSCmd_Ioctlv
| IOSCmd_Reply
| IOSCmd_other.

(** The fields of an [IPCBuffer] that the request allocator and the
    kernel dispatcher read and write; [IPCBuffer] above is the view of
    the response path.  [b_args] is the array [args], a buffer pointer
    is an address. *)
Record IPCBufferData : Type := mkBufferData {
  b_command : IOSCommand;
  b_reply : Z;
  b_handle : Z;
  b_flags : Z;
  b_processId : Z;
  b_prevCommand : IOSCommand;
  b_prevHandle : Z;
  b_args : list Z;
  b_buffer1 : option Z;
  b_buffer2 : option Z
}.

(** ** The request allocator (coreinit_ipc.cpp) *)

Definition set_failedAllocateRequestBlock (n : Z) (d : IPCDriver) : IPCDriver :=
  mkDriver (status d) (coreId d) (ipcBuffers d) (initialisedRequests d)
    (freeFifo d) (outboundFifo d) (requests d) (waitingFreeFifo d)
    n (failedFreeRequestBlock d)
    (requestsSubmitted d) (requestsProcessed d) (numResponses d) (responses d).

Definition set_waitingFreeFifo (b : bool) (d : IPCDriver) : IPCDriver :=
  mkDriver (status d) (coreId d) (ipcBuffers d) (initialisedRequests d)
    (freeFifo d) (outboundFifo d) (requests d) b
    (failedAllocateRequestBlock d) (failedFreeRequestBlock d)
    (requestsSubmitted d) (requestsProcessed d) (numResponses d) (responses d).

Section Allocator.

Variable IPCBufferCount : nat.
Variable IOSError_value : IOSError -> Z.

(** [OSWaitEvent(&driver->waitFreeFifoEvent)] suspends the caller until
    another thread signals the event; [wait] gives the driver as the
    caller finds it when the call returns. *)
Variable wait : IPCDriver -> IPCDriver.

(** The [do ... while (error == IOSError::QEmpty)] loop of
    [ipcDriverAllocateRequest]: the error of the last pop, the driver,
    and the local [request] (null until a pop succeeds).  [fuel] bounds
    the number of pops. *)
Fixpoint allocate_pop_loop (fuel : nat) (driver : IPCDriver)
  : Outcome (IOSError * IPCDriver * option RequestPtr) :=
  match fuel with
  | O => OutOfFuel
  | S fuel' =>
      let '(error, fifo', requestOut) := ipcDriverFifoPop IPCBufferCount (freeFifo driver) in
      let driver1 := set_freeFifo fifo' driver in
      if bool_decide (error <> IOS_OK)
      then
        let driver2 :=
          set_failedAllocateRequestBlock
            (uint32 (failedAllocateRequestBlock driver1 + 1)) driver1 in
        if bool_decide (error = IOS_QEmpty)
        then allocate_pop_loop fuel' (wait (set_waitingFreeFifo true driver2))
        else Done (error, driver2, None)
      else Done (error, driver1, default None requestOut)
  end.

(** [ipcDriverAllocateRequest].  [mem] holds the IPC buffers by address;
    the result carries the error, the driver, the buffers and
    [*requestOut].  Going through a null or dangling request or buffer
    pointer is undefined.  [if (error)] in the loop is
    [error != IOSError::OK], OK being 0. *)
Definition ipcDriverAllocateRequest (fuel : nat) (driver : IPCDriver)
    (mem : gmap Z IPCBufferData) (handle : Z) (command : IOSCommand)
    (requestUnk0x04 : Z) (asyncCallback asyncContext : option Z)
  : Outcome (IOSError * IPCDriver * gmap Z IPCBufferData * option RequestPtr) :=
  '(error, driver1, request) ← allocate_pop_loop fuel driver;
  if bool_decide (error <> IOS_OK) then Done (error, driver1, mem, None)
  else
    match request with
    | None => Undefined "request is null"
    | Some r =>
        match requests driver1 !! r with
        | None => Undefined "request out of bounds"
        | Some rq =>
            match ipcBuffer rq with
            | None => Undefined "request->ipcBuffer is null"
            | Some p =>
                match mem !! p with
                | None => Undefined "request->ipcBuffer is not a buffer"
                | Some buffer =>
                    let rq1 := mkRequest true requestUnk0x04 asyncCallback
                                 asyncContext (ipcBuffer rq) in
                    let buffer1 :=
                      mkBufferData command (IOSError_value IOS_OK) handle 0 0
                        (b_prevCommand buffer) (b_prevHandle buffer)
                        (replicate (length (b_args buffer)) 0)
                        (b_buffer1 buffer) (b_buffer2 buffer) in
                    Done (IOS_OK,
                          set_requests (<[r := rq1]> (requests driver1)) driver1,
                          <[p := buffer1]> mem,
                          Some r)
                end
            end
        end
    end.

(** What holds of a driver between [IPCDriverOpen] and the calls that
    allocate and free requests as intended: the free FIFO is well formed
    and has its [IPCBufferCount] slots, there are [IPCBufferCount]
    requests, and the free FIFO holds, once each, exactly the requests
    whose [allocated] flag is clear. *)
Definition driver_inv (d : IPCDriver) : Prop :=
  fifo_inv IPCBufferCount (freeFifo d) /\
  length (fifo_requests (freeFifo d)) = IPCBufferCount /\
  length (requests d) = IPCBufferCount /\
  NoDup (fifo_contents IPCBufferCount (freeFifo d)) /\
  forall x,
    x ∈ fifo_contents IPCBufferCount (freeFifo d) <->
    exists i rq, x = Some i /\ requests d !! i = Some rq /\ allocated rq = false.

(** Every request of the driver points to a buffer that [mem] holds. *)
Definition requests_linked (d : IPCDriver) (mem : gmap Z IPCBufferData) : Prop :=
  forall i rq, requests d !! i = Some rq ->
    exists p buffer, ipcBuffer rq = Some p /\ mem !! p = Some buffer.

End Allocator.

(** ** The kernel dispatcher (kernel_ios.cpp) *)

Section Dispatch.

Variable IOSError_value : IOSError -> Z.
Variable DeviceImpl : Type.
Variable device_open : DeviceImpl -> Z -> Z * DeviceImpl.
Variable device_close : DeviceImpl -> Z * DeviceImpl.

(** The other two virtual functions of a device, [ioctl(request, inBuf,
    inLen, outBuf, outLen)] and [ioctlv(request, vecIn, vecOut, vec)],
    and the C string at the address that the name pointer of an Open
    request holds.  A device function acts on the device alone; what it
    writes to guest memory is not modelled. *)
Variable device_ioctl : DeviceImpl -> Z -> option Z -> Z -> option Z -> Z -> Z * DeviceImpl.
Variable device_ioctlv : DeviceImpl -> Z -> Z -> Z -> option Z -> Z * DeviceImpl.
Variable read_name : Z -> string.

(** [buffer->args[i]] *)
Definition buffer_arg (buffer : IPCBufferData) (i : nat) : Z :=
  default 0 (b_args buffer !! i).

(** The switch of [iosDispatchIpcRequest]: the reply and the statics
    after the request.  A device that serves an Ioctl or Ioctlv is
    updated in place.  [iosOpen] builds a [std::string] from the name
    pointer, which is undefined for a null pointer. *)
Definition dispatch_command (buffer : IPCBufferData) (st : IOSState DeviceImpl)
  : Outcome (Z * IOSState DeviceImpl) :=
  match b_command buffer with
  | IOSCmd_Open =>
      match b_buffer1 buffer with
      | None => Undefined "std::string from a null name pointer"
      | Some name_pointer =>
          let name := read_name name_pointer in
          let mode := buffer_arg buffer 2 in
          '(r, st') ← iosOpen IOSError_value DeviceImpl device_open name mode st;
          Done (open_reply r, st')
      end
  | IOSCmd_Close =>
      Done (iosClose IOSError_value DeviceImpl device_close (b_handle buffer) st)
  | IOSCmd_Ioctl =>
      match iosGetDevice DeviceImpl st (b_handle buffer) with
      | None => Done (IOSError_value IOS_InvalidHandle, st)
      | Some device =>
          let '(reply, impl) :=
            device_ioctl (dev_impl _ device) (buffer_arg buffer 0)
              (b_buffer1 buffer) (buffer_arg buffer 2)
              (b_buffer2 buffer) (buffer_arg buffer 4) in
          Done (reply,
                mkIOS _ (sDeviceMap _ st)
                  (<[b_handle buffer := mkDevice _ (dev_handle _ device) impl]>
                     (sOpenDeviceMap _ st))
                  (DeviceHandles _ st))
      end
  | IOSCmd_Ioctlv =>
      match iosGetDevice DeviceImpl st (b_handle buffer) with
      | None => Done (IOSError_value IOS_InvalidHandle, st)
      | Some device =>
          let '(reply, impl) :=
            device_ioctlv (dev_impl _ device) (buffer_arg buffer 0)
              (buffer_arg buffer 1) (buffer_arg buffer 2) (b_buffer1 buffer) in
          Done (reply,
                mkIOS _ (sDeviceMap _ st)
                  (<[b_handle buffer := mkDevice _ (dev_handle _ device) impl]>
                     (sOpenDeviceMap _ st))
                  (DeviceHandles _ st))
      end
  | IOSCmd_Read | IOSCmd_Write | IOSCmd_Seek | IOSCmd_Reply | IOSCmd_other =>
      Aborted "Unimplemented IOSCommand"
  end.

(** [iosDispatchIpcRequest]: the buffer as the reply leaves it, and the
    statics. *)
Definition iosDispatchIpcRequest (buffer : IPCBufferData) (st : IOSState DeviceImpl)
  : Outcome (IPCBufferData * IOSState DeviceImpl) :=
  '(reply, st') ← dispatch_command buffer st;
  (* Setup reply *)
  Done (mkBufferData IOSCmd_Reply reply (b_handle buffer) (b_flags buffer)
          (b_processId buffer) (b_command buffer) (b_handle buffer)
          (b_args buffer) (b_buffer1 buffer) (b_buffer2 buffer),
        st').

(** The requests [buffers] dispatched one after the other: the reply
    buffers, in order, and the statics at the end. *)
Definition dispatch_step (acc : Outcome (list IPCBufferData * IOSState DeviceImpl))
    (buffer : IPCBufferData) : Outcome (list IPCBufferData * IOSState DeviceImpl) :=
  '(replies, st) ← acc;
  '(reply, st') ← iosDispatchIpcRequest buffer st;
  Done (replies ++ [reply], st').

Definition dispatch_run (buffers : list IPCBufferData) (st : IOSState DeviceImpl)
  : Outcome (list IPCBufferData * IOSState DeviceImpl) :=
  fold_left dispatch_step buffers (Done ([], st)).

(** The counter is at least 1, every open handle was issued by
    [iosOpen] (it lies between 1 and the counter) and the device
    registered under it carries it. *)
Definition table_inv (st : IOSState DeviceImpl) : Prop :=
  1 <= DeviceHandles _ st /\
  forall h device,
    sOpenDeviceMap _ st !! h = Some device ->
    dev_handle _ device = h /\ 1 <= h < DeviceHandles _ st.

(** A reply buffer echoes its request: the command is Reply, the
    previous command and handle are those of the request, and nothing
    else but [reply] has changed. *)
Definition echoes (request reply : IPCBufferData) : Prop :=
  b_command reply = IOSCmd_Reply /\
  b_prevCommand reply = b_command request /\
  b_prevHandle reply = b_handle request /\
  b_handle reply = b_handle request /\
  b_flags reply = b_flags request /\
  b_processId reply = b_processId request /\
  b_args reply = b_args request /\
  b_buffer1 reply = b_buffer1 request /\
  b_buffer2 reply = b_buffer2 request.

End Dispatch.

(** ** Runs of a command block *)

(** A call of [OSSendMessage], and a call that puts a block into the
    command queue. *)
Definition is_send (c : FsCall) : bool :=
  match c with
  | Call_OSSendMessage _ _ _ => true
  | _ => false
  end.

Definition is_insertion (c : FsCall) : bool :=
  match c with
  | Call_fsCmdQueuePushFront _ | Call_fsCmdQueueEnqueue _ _ => true
  | _ => false
  end.

Definition set_fsaStatus (s : Z) (b : FSCmdBlockBody) : FSCmdBlockBody :=
  mkBlock (body_address b) (block b) (blk_status b) (errorMask b) (clientBody b)
    (cancelFlags b) (finishCmdFn b) (asyncResult b) (readFile b) (fsaShimBuffer b)
    s (unk0x9EA b) (unk0x9F4 b) (getCwd_bytes b) (getCwd_len b)
    (getFileBlockAddress_address b).

(** The replies of the FSA device to the requests of one command, handled
    one after the other: each reply arrives in [blockBody->fsaStatus] and
    [fsCmdBlockHandleResult] runs on the block and the client as the
    round before left them. *)
Fixpoint handle_replies (K : FSConstants) (OSSendMessage : option Z -> bool)
    (replies : list Z) (w : World) : Outcome World :=
  match replies with
  | [] => Done w
  | reply :: rest =>
      w' ← fsCmdBlockHandleResult K (invokeFinishCmdFn K OSSendMessage 2)
             (set_block (set_fsaStatus reply (w_block w)) w);
      handle_replies K OSSendMessage rest w'
  end.

(** The message through which [fsCmdBlockSetResult] delivers [status]
    for the block [b]: to the queue of its async data, naming its
    [FSCmdBlock]. *)
Definition result_message (b : FSCmdBlockBody) (status : Z) : FsCall :=
  Call_OSSendMessage (ioMsgQueue (asyncData (asyncResult b))) (block b) status.

(** A call that settles the block for this round: the message to the
    user, or an insertion into the command queue. *)
Definition is_outcome (c : FsCall) : bool := is_send c || is_insertion c.

(** [w'] comes from [w] by calls that settle the block at most once.
    The block keeps its identity (its [FSCmdBlock], its address and its
    async data) and, among the calls made since [w], either none settles
    the block, or exactly one does and it is the message for this block
    to the user, whose status the async result holds while the block is
    Cancelled, or exactly one does and it is the insertion of this block
    into the command queue, and the block is QueuedCommand. *)
Definition one_outcome (w w' : World) : Prop :=
  block (w_block w') = block (w_block w) /\
  body_address (w_block w') = body_address (w_block w) /\
  asyncData (asyncResult (w_block w')) = asyncData (asyncResult (w_block w)) /\
  exists new,
    w_calls w' = w_calls w ++ new /\
    (List.filter is_outcome new = [] \/
     (exists status,
        List.filter is_outcome new = [result_message (w_block w) status] /\
        ar_status (asyncResult (w_block w')) = status /\
        blk_status (w_block w') = BlockStatus_Cancelled) \/
     (exists c,
        List.filter is_outcome new = [c] /\
        (c = Call_fsCmdQueuePushFront (body_address (w_block w)) \/
         c = Call_fsCmdQueueEnqueue (body_address (w_block w)) true) /\
        blk_status (w_block w') = BlockStatus_QueuedCommand)).

(** A chunked read between two replies, on a registered client: the
    block is finished by [fsCmdBlockFinishReadCmd], its command is
    ReadFile, it is not being cancelled, the queue of its async data
    accepts messages, [done] bytes have been read and [remaining] bytes
    are still to be read, of which the request in flight asks for as
    many as one request may carry. *)
Definition reading (K : FSConstants) (OSSendMessage : option Z -> bool)
    (w : World) (done remaining : Z) : Prop :=
  registered (w_client w) = true /\
  finishCmdFn (w_block w) = Some Fn_fsCmdBlockFinishReadCmd /\
  shim_command (fsaShimBuffer (w_block w)) = FSACmd_ReadFile /\
  not_cancelling K w /\
  OSSendMessage (ioMsgQueue (asyncData (asyncResult (w_block w)))) = true /\
  bytesRead (readFile (w_block w)) = done /\
  bytesRemaining (readFile (w_block w)) = remaining /\
  readSize (readFile (w_block w)) = Z.min (FSMaxBytesPerRequest K) remaining.

(** The calls of a round that continues a chunked read of the block at
    [address], in [fsCmdBlockReplyResult] and [fsCmdBlockRequeue]. *)
Definition continuation_calls (address : Z) : list FsCall :=
  [Call_fsCmdQueueFinishCmd; Call_fsCmdQueueFinishCmd;
   Call_fsCmdQueueEnqueue address true;
   Call_fsCmdQueueProcessCmd; Call_fsCmdQueueProcessCmd].

(** ** Responses to process *)

(** The call that [ipcDriverProcessResponses] makes for the response in
    [buffer]: it signals the finish event of the request that owns the
    buffer, or calls the request's callback with the reply in the buffer
    and the request's context. *)
Definition response_call (mem : BufferPtr -> IPCBuffer) (driver : IPCDriver)
    (buffer : BufferPtr) : option IpcCall :=
  let index := Z.to_nat (buffer - ipcBuffers driver) in
  request ← requests driver !! index;
  Some (match asyncCallback request with
        | None => Call_OSSignalEvent index
        | Some fn => Call_asyncCallback fn (buf_reply (mem buffer)) (asyncContext request)
        end).

(** The responses that the kernel hands over: each of the first
    [numResponses] slots holds the buffer of a request of the driver
    that is allocated, and no buffer comes twice. *)
Definition responses_valid (d : IPCDriver) : Prop :=
  (forall i, (i < numResponses d)%nat ->
     exists index request,
       responses d !! i = Some (Some (ipcBuffers d + Z.of_nat index)) /\
       requests d !! index = Some request /\
       ipcBuffer request = Some (ipcBuffers d + Z.of_nat index) /\
       allocated request = true) /\
  (forall i j, (i < numResponses d)%nat -> (j < numResponses d)%nat ->
     responses d !! i = responses d !! j -> i = j).

(** ** Further concrete inputs *)

(** The sample driver after [IPCDriverOpen]; its four buffers have the
    addresses 0 to 3 (in units of one [IPCBuffer]) and are held by
    [sample_mem].  [sample_wait] returns at once. *)
Definition sample_open_driver : IPCDriver := snd (IPCDriverOpen 4 sample_driver).

Definition sample_buffer : IPCBufferData :=
  mkBufferData IOSCmd_other 0 0 0 0 IOSCmd_other 0 [0; 0; 0; 0; 0] None None.

Definition sample_mem : gmap Z IPCBufferData :=
  list_to_map [(0, sample_buffer); (1, sample_buffer); (2, sample_buffer);
               (3, sample_buffer)].

Definition sample_wait (driver : IPCDriver) : IPCDriver := driver.

(** The driver with request 0 allocated for a synchronous call and
    request 1 for an asynchronous one (callback 500, context 600), and
    the responses to both handed over by the kernel, the second first. *)
Definition sample_busy_driver : IPCDriver :=
  mkDriver Status_Initialised 0 0 true
    (mkFIFO 0 2 2 4 [Some 0; Some 1; Some 2; Some 3]%nat)
    (mkFIFO 0 (-1) 0 0 [None; None; None; None])
    [mkRequest true 0 None None (Some 0);
     mkRequest true 0 (Some 500) (Some 600) (Some 1);
     mkRequest false 0 None None (Some 2);
     mkRequest false 0 None None (Some 3)]
    false 0 0 2 0 2 [Some 1; Some 0; None; None].

(** Every buffer holds the reply 7. *)
Definition sample_replies (buffer : BufferPtr) : IPCBuffer := mkBuffer 7.

(** The other two functions of the sample device return OK; the name
    of the device is at address 100. *)
Definition sample_device_ioctl (impl : unit) (request : Z) (inBuf : option Z)
    (inLen : Z) (outBuf : option Z) (outLen : Z) : Z * unit := (0, impl).

Definition sample_device_ioctlv (impl : unit) (request vecIn vecOut : Z)
    (vec : option Z) : Z * unit := (0, impl).

Definition sample_read_name (name : Z) : string :=
  if bool_decide (name = 100) then "/dev/fsa"%string else ""%string.

(** Open, an Ioctl on handle 1, Close of handle 1 and Close of handle 1
    once more. *)
Definition sample_requests : list IPCBufferData :=
  [mkBufferData IOSCmd_Open 0 0 0 0 IOSCmd_other 0 [0; 9; 0; 0; 0] (Some 100) None;
   mkBufferData IOSCmd_Ioctl 0 1 0 0 IOSCmd_other 0 [3; 0; 0; 0; 0] None None;
   mkBufferData IOSCmd_Close 0 1 0 0 IOSCmd_other 0 [0; 0; 0; 0; 0] None None;
   mkBufferData IOSCmd_Close 0 1 0 0 IOSCmd_other 0 [0; 0; 0; 0; 0] None None].

(** The sample read while it is being cancelled. *)
Definition sample_world_cancelling : World :=
  set_block (set_cancelFlags 1 (w_block sample_world)) sample_world.

(** ** Initialising the drivers (coreinit_ipc.cpp) *)

(** [IpcData]: [data_ipcBuffers] is the address of [ipcBuffers[0]], in
    units of one [IPCBuffer]; the array has [IPCBufferCount * CoreCount]
    elements and [data_drivers] has [CoreCount]. *)
Record IpcData : Type := mkIpcData {
  data_ipcBuffers : BufferPtr;
  data_drivers : list IPCDriver
}.

Section Init.

Variable IPCBufferCount : nat.

(** [getIPCDriver], on the core [coreId] (what [OSGetCoreId()]
    returns). *)
Definition getIPCDriver (coreId : nat) (data : IpcData) : option IPCDriver :=
  data_drivers data !! coreId.

(** [IPCDriverInit], on the core [coreId].  The event
    [waitFreeFifoEvent] that it initialises is not part of the model. *)
Definition IPCDriverInit (coreId : nat) (data : IpcData) : Outcome IpcData :=
  match data_drivers data !! coreId with
  | None => Undefined "drivers[coreId] out of bounds"
  | Some driver =>
      let driver1 := set_status Status_Initialised driver in
      let driver2 :=
        mkDriver (status driver1) (Z.of_nat coreId)
          (data_ipcBuffers data + Z.of_nat (IPCBufferCount * coreId))
          (initialisedRequests driver1) (freeFifo driver1) (outboundFifo driver1)
          (requests driver1) (waitingFreeFifo driver1)
          (failedAllocateRequestBlock driver1) (failedFreeRequestBlock driver1)
          (requestsSubmitted driver1) (requestsProcessed driver1)
          (numResponses driver1) (responses driver1) in
      Done (mkIpcData (data_ipcBuffers data) (<[coreId := driver2]> (data_drivers data)))
  end.

(** [IPCDriverOpen] as the core [coreId] runs it: on the driver that
    [getIPCDriver()] returns there. *)
Definition IPCDriverOpen_core (coreId : nat) (data : IpcData)
  : Outcome (IOSError * IpcData) :=
  match getIPCDriver coreId data with
  | None => Undefined "drivers[coreId] out of bounds"
  | Some driver =>
      let '(error, driver') := IPCDriverOpen IPCBufferCount driver in
      Done (error,
            mkIpcData (data_ipcBuffers data) (<[coreId := driver']> (data_drivers data)))
  end.

(** The cores [cores], one after the other, each initialise and then
    open their driver. *)
Definition boot_core (coreId : nat) (data : IpcData) : Outcome IpcData :=
  data1 ← IPCDriverInit coreId data;
  '(_, data2) ← IPCDriverOpen_core coreId data1;
  Done data2.

Definition boot (cores : list nat) (data : IpcData) : Outcome IpcData :=
  fold_left (fun acc coreId => acc ≫= boot_core coreId) cores (Done data).

(** A driver as the zeroed [IpcData] holds it: its [IPCBufferCount]
    requests and FIFO slots, no request marked allocated. *)
Definition driver_fresh (d : IPCDriver) : Prop :=
  length (requests d) = IPCBufferCount /\
  length (fifo_requests (freeFifo d)) = IPCBufferCount /\
  forall i rq, requests d !! i = Some rq -> allocated rq = false.

End Init.

(* ===================================================================== *)
(** * Part II: properties                                                 *)
(* ===================================================================== *)

(** A lemma depends on the section variables of its statement only. *)
Set Default Proof Using "Type".

Lemma int32_small z : - 2 ^ 31 <= z < 2 ^ 31 -> int32 z = z.
Proof.
  intros H. unfold int32. rewrite Z.mod_small by lia. lia.
Qed.

Lemma uint32_small z : 0 <= z < 2 ^ 32 -> uint32 z = z.
Proof. intros H. unfold uint32. now rewrite Z.mod_small. Qed.

Lemma mod_once a n : n <= a < 2 * n -> a mod n = a - n.
Proof.
  intros H. symmetry. apply (Z.mod_unique a n 1 (a - n)); lia.
Qed.

(** ** The FIFO invariant *)

Section FifoFacts.

Variable N : nat.

Lemma fifo_init_fields (l : list nat) (f : IPCDriverFIFO) :
  let r := fold_left
             (fun acc i =>
                mkFIFO (pushIndex acc) (popIndex acc) (count acc) (maxCount acc)
                  (<[i := None]> (fifo_requests acc))) l f in
  pushIndex r = pushIndex f /\ popIndex r = popIndex f /\
  count r = count f /\ maxCount r = maxCount f.
Proof.
  revert f. induction l as [|i l IH]; intros f; simpl; [tauto|].
  specialize (IH (mkFIFO (pushIndex f) (popIndex f) (count f) (maxCount f)
                    (<[i := None]> (fifo_requests f)))).
  simpl in IH. exact IH.
Qed.

Lemma fifo_init_scalars (f : IPCDriverFIFO) :
  pushIndex (ipcDriverFifoInit N f) = 0 /\
  popIndex (ipcDriverFifoInit N f) = -1 /\
  count (ipcDriverFifoInit N f) = 0 /\
  maxCount (ipcDriverFifoInit N f) = 0.
Proof.
  unfold ipcDriverFifoInit, for_upto.
  apply (fifo_init_fields (seq 0 N) (mkFIFO 0 (-1) 0 0 (fifo_requests f))).
Qed.

Lemma fifo_inv_init (f : IPCDriverFIFO) :
  (0 < N)%nat -> fifo_inv N (ipcDriverFifoInit N f).
Proof.
  intros HN. destruct (fifo_init_scalars f) as (Hpu & Hpo & Hc & _).
  constructor; rewrite ?Hpu, ?Hpo, ?Hc; try lia.
Qed.

(** A full FIFO is one whose push and pop indices meet. *)
Lemma fifo_inv_full_iff (f : IPCDriverFIFO) :
  fifo_inv N f -> (pushIndex f = popIndex f <-> count f = Z.of_nat N).
Proof.
  intros [Hpu Hc He Hpo Hpp]. split.
  - intros Heq. destruct (Z.eq_dec (count f) 0) as [H0|H0].
    + specialize (He H0). lia.
    + assert (Hpos : 0 < count f) by lia.
      specialize (Hpo Hpos). specialize (Hpp Hpos).
      destruct (Z_lt_le_dec (popIndex f + count f) (Z.of_nat N)) as [Hlt|Hge].
      * rewrite Z.mod_small in Hpp by lia. lia.
      * rewrite mod_once in Hpp by lia. lia.
  - intros Hfull.
    assert (Hpos : 0 < count f) by lia.
    specialize (Hpo Hpos). specialize (Hpp Hpos).
    rewrite Hpp, Hfull.
    destruct (Z.eq_dec (popIndex f) 0) as [Hz|Hz].
    + rewrite Hz. simpl. rewrite Z.mod_same by lia. lia.
    + rewrite mod_once by lia. lia.
Qed.

Lemma fifo_inv_push (f : IPCDriverFIFO) (r : RequestPtr) :
  Z.of_nat N < 2 ^ 31 -> fifo_inv N f -> fifo_inv N (snd (ipcDriverFifoPush N f r)).
Proof.
  intros H32 Hinv. pose proof (fifo_inv_full_iff f Hinv) as Hfull.
  destruct Hinv as [Hpu Hc He Hpo Hpp].
  unfold ipcDriverFifoPush.
  destruct (Z.eqb_spec (pushIndex f) (popIndex f)) as [Heq|Hne]; simpl.
  - constructor; assumption.
  - assert (Hlt : count f < Z.of_nat N) by (destruct Hfull; lia).
    assert (Hc' : int32 (count f + 1) = count f + 1) by (apply int32_small; lia).
    constructor; simpl; rewrite ?Hc'.
    + apply Z.mod_pos_bound. lia.
    + lia.
    + lia.
    + intros _. destruct (Z.eqb_spec (popIndex f) (-1)) as [Hm|Hm]; [lia|].
      apply Hpo. destruct (Z.eq_dec (count f) 0) as [H0|H0]; [|lia].
      specialize (He H0). lia.
    + intros _. destruct (Z.eqb_spec (popIndex f) (-1)) as [Hm|Hm].
      * assert (H0 : count f = 0).
        { destruct (Z.eq_dec (count f) 0) as [H0|H0]; [assumption|].
          assert (Hpos : 0 < count f) by lia. specialize (Hpo Hpos). lia. }
        rewrite H0. reflexivity.
      * assert (Hpos : 0 < count f).
        { destruct (Z.eq_dec (count f) 0) as [H0|H0]; [|lia].
          specialize (He H0). lia. }
        rewrite (Hpp Hpos) at 1.
        rewrite Z.add_mod_idemp_l by lia. f_equal. lia.
Qed.

Lemma fifo_inv_pop (f : IPCDriverFIFO) :
  Z.of_nat N < 2 ^ 31 -> fifo_inv N f -> fifo_inv N (snd (fst (ipcDriverFifoPop N f))).
Proof.
  intros H32 Hinv. destruct Hinv as [Hpu Hc He Hpo Hpp].
  unfold ipcDriverFifoPop.
  destruct (Z.eqb_spec (popIndex f) (-1)) as [Heq|Hne]; simpl.
  - constructor; assumption.
  - assert (Hpos : 0 < count f).
    { destruct (Z.eq_dec (count f) 0) as [H0|H0]; [|lia].
      specialize (He H0). lia. }
    specialize (Hpo Hpos). specialize (Hpp Hpos).
    assert (Hc' : int32 (count f - 1) = count f - 1) by (apply int32_small; lia).
    rewrite Hc'.
    destruct (Z.eqb_spec (count f - 1) 0) as [Hz|Hz];
      constructor; simpl; try lia.
    + intros _. apply Z.mod_pos_bound. lia.
    + intros _. rewrite Hpp. rewrite Z.add_mod_idemp_l by lia. f_equal. lia.
Qed.

Lemma fifo_inv_run (fifo0 : IPCDriverFIFO) (ops : list FifoOp) :
  (0 < N)%nat -> Z.of_nat N < 2 ^ 31 -> fifo_inv N (fifo_run N fifo0 ops).
Proof.
  intros HN H32. unfold fifo_run.
  induction ops as [|op ops IH] using rev_ind; simpl.
  - now apply fifo_inv_init.
  - rewrite fold_left_app. simpl.
    destruct op; simpl; [now apply fifo_inv_push | now apply fifo_inv_pop].
Qed.

(** C7. In every FIFO state reached from [ipcDriverFifoInit] by pushes and
    pops: [count] is between 0 and the capacity N; [count] is 0 exactly
    when [popIndex] is -1; both indices stay within the array and a
    successful push or pop advances its index by one modulo N (a pop that
    drains the FIFO resets [popIndex] to -1); a push onto a full FIFO
    ([count] = N) returns [QFull] and leaves every field of the FIFO as it
    was; a pop from an empty FIFO ([count] = 0) returns [QEmpty], leaves
    every field as it was and writes no request out. *)
Theorem fifo_reachable_invariants (fifo0 : IPCDriverFIFO) (ops : list FifoOp) :
  (0 < N)%nat -> Z.of_nat N < 2 ^ 31 ->
  let f := fifo_run N fifo0 ops in
  (0 <= count f <= Z.of_nat N) /\
  (count f = 0 <-> popIndex f = -1) /\
  (0 <= pushIndex f < Z.of_nat N /\ -1 <= popIndex f < Z.of_nat N) /\
  (forall r, fst (ipcDriverFifoPush N f r) = IOS_OK ->
     pushIndex (snd (ipcDriverFifoPush N f r)) = (pushIndex f + 1) mod Z.of_nat N /\
     count (snd (ipcDriverFifoPush N f r)) = count f + 1) /\
  (fst (fst (ipcDriverFifoPop N f)) = IOS_OK ->
     count (snd (fst (ipcDriverFifoPop N f))) = count f - 1 /\
     popIndex (snd (fst (ipcDriverFifoPop N f))) =
       (if count f =? 1 then -1 else (popIndex f + 1) mod Z.of_nat N)) /\
  (count f = Z.of_nat N ->
     forall r, ipcDriverFifoPush N f r = (IOS_QFull, f)) /\
  (count f = 0 -> ipcDriverFifoPop N f = (IOS_QEmpty, f, None)).
Proof.
  intros HN H32 f.
  pose proof (fifo_inv_run fifo0 ops HN H32) as Hinv. fold f in Hinv.
  pose proof (fifo_inv_full_iff f Hinv) as Hfull.
  destruct Hinv as [Hpu Hc He Hpo Hpp].
  assert (Hne : popIndex f = -1 -> count f = 0).
  { intros Hm. destruct (Z.eq_dec (count f) 0) as [H0|H0]; [assumption|].
    assert (Hpos : 0 < count f) by lia. specialize (Hpo Hpos). lia. }
  assert (Hpop : -1 <= popIndex f < Z.of_nat N).
  { destruct (Z.eq_dec (count f) 0) as [H0|H0]; [specialize (He H0); lia|].
    assert (Hpos : 0 < count f) by lia. specialize (Hpo Hpos). lia. }
  split; [exact Hc|]. split; [split; assumption|].
  split; [split; assumption|]. split; [|split; [|split]].
  - intros r. unfold ipcDriverFifoPush.
    destruct (Z.eqb_spec (pushIndex f) (popIndex f)) as [Heq|Hneq]; simpl;
      [discriminate|].
    intros _. split; [reflexivity|]. apply int32_small. destruct Hfull. lia.
  - unfold ipcDriverFifoPop.
    destruct (Z.eqb_spec (popIndex f) (-1)) as [Hm|Hm]; simpl; [discriminate|].
    intros _. assert (Hpos : 0 < count f).
    { destruct (Z.eq_dec (count f) 0) as [H0|H0]; [specialize (He H0)|]; lia. }
    rewrite int32_small by lia. split; [reflexivity|].
    destruct (Z.eqb_spec (count f - 1) 0), (Z.eqb_spec (count f) 1);
      try lia; reflexivity.
  - intros Hcount r. unfold ipcDriverFifoPush.
    destruct (Z.eqb_spec (pushIndex f) (popIndex f)) as [Heq|Hneq]; [reflexivity|].
    destruct Hfull. tauto.
  - intros H0. unfold ipcDriverFifoPop. rewrite (He H0). reflexivity.
Qed.

End FifoFacts.

(** A run on a FIFO of capacity 4 that fills it, overflows it once, drains
    it and pops once more. *)
Lemma fifo_reachable_invariants_witness :
  let f := fifo_run 4 (mkFIFO 7 7 7 7 [None; None; None; None])
             [OpPush 0; OpPush 1; OpPush 2; OpPush 3; OpPush 0; OpPop; OpPop;
              OpPop; OpPop; OpPop]%nat in
  (0 <= count f <= Z.of_nat 4) /\
  (count f = 0 <-> popIndex f = -1) /\
  (0 <= pushIndex f < Z.of_nat 4 /\ -1 <= popIndex f < Z.of_nat 4) /\
  (forall r, fst (ipcDriverFifoPush 4 f r) = IOS_OK ->
     pushIndex (snd (ipcDriverFifoPush 4 f r)) = (pushIndex f + 1) mod Z.of_nat 4 /\
     count (snd (ipcDriverFifoPush 4 f r)) = count f + 1) /\
  (fst (fst (ipcDriverFifoPop 4 f)) = IOS_OK ->
     count (snd (fst (ipcDriverFifoPop 4 f))) = count f - 1 /\
     popIndex (snd (fst (ipcDriverFifoPop 4 f))) =
       (if count f =? 1 then -1 else (popIndex f + 1) mod Z.of_nat 4)) /\
  (count f = Z.of_nat 4 ->
     forall r, ipcDriverFifoPush 4 f r = (IOS_QFull, f)) /\
  (count f = 0 -> ipcDriverFifoPop 4 f = (IOS_QEmpty, f, None)).
Proof.
  apply (fifo_reachable_invariants 4); [lia | vm_compute; reflexivity].
Defined.

(** ** The IPC driver *)

Lemma for_upto_S {S : Type} (n : nat) (body : nat -> S -> S) (s : S) :
  for_upto (Datatypes.S n) body s = body n (for_upto n body s).
Proof.
  unfold for_upto. rewrite seq_S, fold_left_app. reflexivity.
Qed.

Lemma for_upto_preserves {S : Type} (P : S -> Prop) (n : nat)
    (body : nat -> S -> S) (s : S) :
  (forall i s', P s' -> P (body i s')) -> P s -> P (for_upto n body s).
Proof.
  intros Hbody Hs. induction n as [|n IH]; [exact Hs|].
  rewrite for_upto_S. now apply Hbody.
Qed.

Section DriverFacts.

Variable N : nat.

(** C9 (as amended). Whatever the push into the free FIFO returns,
    [ipcDriverFreeRequest] clears the [allocated] flag of the request and
    returns what the push returned.  When that is [QFull],
    [failedFreeRequestBlock] is incremented (so the driver has changed)
    and the free FIFO is left exactly as it was: the request is in the
    free FIFO afterwards if and only if it already was before the call.
    When the push succeeds the counter is untouched. *)
Theorem ipcDriverFreeRequest_effect (d : IPCDriver) (r : RequestPtr) :
  let res := ipcDriverFreeRequest N d r in
  requests (snd res) = alter (set_allocated false) r (requests d) /\
  (allocated <$> requests (snd res) !! r) = ((fun _ => false) <$> requests d !! r) /\
  fst res = fst (ipcDriverFifoPush N (freeFifo d) r) /\
  (fst res = IOS_QFull ->
     failedFreeRequestBlock (snd res) = uint32 (failedFreeRequestBlock d + 1) /\
     failedFreeRequestBlock (snd res) <> failedFreeRequestBlock d /\
     freeFifo (snd res) = freeFifo d /\
     (forall q, q ∈ fifo_contents N (freeFifo (snd res)) <->
                q ∈ fifo_contents N (freeFifo d))) /\
  (fst res = IOS_OK ->
     failedFreeRequestBlock (snd res) = failedFreeRequestBlock d).
Proof.
  unfold ipcDriverFreeRequest, ipcDriverFifoPush.
  destruct (pushIndex (freeFifo d) =? popIndex (freeFifo d)); simpl.
  - split; [reflexivity|]. split.
    { rewrite list_lookup_alter_eq. now destruct (_ !! _). }
    split; [reflexivity|]. split; [|discriminate].
    intros _. split; [reflexivity|]. split; [|split; [reflexivity|tauto]].
    unfold uint32. intros Heq.
    pose proof (Z.mod_pos_bound (failedFreeRequestBlock d + 1) (2 ^ 32) ltac:(lia)) as Hb.
    assert (Hsm : (failedFreeRequestBlock d + 1) mod 2 ^ 32 = failedFreeRequestBlock d + 1).
    { destruct (Z.eq_dec (failedFreeRequestBlock d) (2 ^ 32 - 1)) as [He|He].
      - rewrite He in Heq. replace (2 ^ 32 - 1 + 1) with (2 ^ 32) in Heq by lia.
        rewrite Z.mod_same in Heq by lia. lia.
      - apply Z.mod_small. lia. }
    lia.
  - split; [reflexivity|]. split.
    { rewrite list_lookup_alter_eq. now destruct (_ !! _). }
    split; [reflexivity|]. split; [discriminate|reflexivity].
Qed.

(** C10. The two checks of [ipcDriverProcessResponses] accept the index
    [IPCBufferCount] itself: a response that is the buffer one past the
    driver's last buffer passes them, and the access to
    [driver->requests[index]] that follows is out of bounds. *)
Theorem processResponses_index_one_past_end (mem : BufferPtr -> IPCBuffer) (d : IPCDriver) :
  response_index_checks N (Z.of_nat N) = true /\
  ipcDriverProcessResponses N mem
    (set_numResponses 1 (set_responses [Some (ipcBuffers d + Z.of_nat N)] d)) =
  Undefined "driver->requests[index] out of bounds".
Proof.
  split.
  - unfold response_index_checks. rewrite andb_true_iff, !Z.leb_le. lia.
  - unfold ipcDriverProcessResponses, processResponse. simpl.
    replace (ipcBuffers d + Z.of_nat N - ipcBuffers d) with (Z.of_nat N) by lia.
    assert (H0 : (0 <=? Z.of_nat N) = true) by (apply Z.leb_le; lia).
    assert (H1 : (Z.of_nat N <=? Z.of_nat N) = true) by (apply Z.leb_le; lia).
    assert (H2 : (Z.of_nat N <? Z.of_nat N) = false) by (apply Z.ltb_ge; lia).
    rewrite H0, H1, H2. reflexivity.
Qed.

(** [IPCDriverOpen] refuses a driver that is neither Closed nor
    Initialised and leaves it as it is. *)
Lemma IPCDriverOpen_not_ready (d : IPCDriver) :
  status d <> Status_Closed -> status d <> Status_Initialised ->
  IPCDriverOpen N d = (IOS_NotReady, d).
Proof.
  intros Hc Hi. unfold IPCDriverOpen.
  rewrite !bool_decide_eq_false_2 by assumption. reflexivity.
Qed.

(** C4. [IPCDriverOpen] never writes [driver->status]: whatever it
    returns, the status of the driver is the one it had before the call,
    so a driver that was Closed or Initialised is not Open afterwards. *)
Theorem IPCDriverOpen_status_unchanged (d : IPCDriver) :
  status (snd (IPCDriverOpen N d)) = status d.
Proof.
  unfold IPCDriverOpen.
  destruct (negb (bool_decide (status d = Status_Closed)) &&
            negb (bool_decide (status d = Status_Initialised))); [reflexivity|].
  simpl.
  apply (for_upto_preserves (fun d' => status d' = status d)).
  { intros i d' H. exact H. }
  simpl.
  apply (for_upto_preserves (fun d' => status d' = status d)); [|reflexivity].
  intros i d' H. unfold open_link_request. now destruct (_ !! _).
Qed.

End DriverFacts.

(** The request freed a second time, on the full free FIFO that
    [IPCDriverOpen] leaves: the push fails, the flag is cleared, and the
    request is still in the free FIFO. *)
Lemma ipcDriverFreeRequest_full_fifo_counterexample :
  let d := snd (IPCDriverOpen 4 sample_driver) in
  let res := ipcDriverFreeRequest 4 d 0%nat in
  fst res = IOS_QFull /\
  (allocated <$> requests (snd res) !! 0%nat) = Some false /\
  fifo_contents 4 (freeFifo (snd res)) = [Some 0; Some 1; Some 2; Some 3]%nat.
Proof. vm_compute. repeat split; reflexivity. Qed.

(** On the sample driver: after a first [IPCDriverOpen] the status is
    still Initialised, and a second [IPCDriverOpen] is accepted too. *)
Example IPCDriverOpen_twice :
  let d1 := snd (IPCDriverOpen 4 sample_driver) in
  fst (IPCDriverOpen 4 sample_driver) = IOS_OK /\
  status d1 = Status_Initialised /\
  fst (IPCDriverOpen 4 d1) = IOS_OK.
Proof. vm_compute. repeat split; reflexivity. Qed.

(** ** What a successful [IPCDriverOpen] sets up *)

Section OpenFacts.

Variable N : nat.

Lemma open_link_loop (d : IPCDriver) (n : nat) :
  let d' := for_upto n open_link_request d in
  status d' = status d /\ ipcBuffers d' = ipcBuffers d /\
  freeFifo d' = freeFifo d /\ outboundFifo d' = outboundFifo d /\
  length (requests d') = length (requests d) /\
  (forall i, (i < n)%nat ->
     requests d' !! i = linked (ipcBuffers d) i <$> requests d !! i) /\
  (forall i, (n <= i)%nat -> requests d' !! i = requests d !! i).
Proof.
  induction n as [|n IH]; simpl.
  - unfold for_upto; simpl. repeat split; intros; try reflexivity. lia.
  - rewrite for_upto_S. cbv zeta in IH.
    destruct IH as (Hs & Hb & Hf & Ho & Hl & Hlt & Hge).
    set (d1 := for_upto n open_link_request d) in *.
    unfold open_link_request.
    destruct (requests d1 !! n) as [rq|] eqn:Hn; simpl.
    + repeat split; try assumption.
      * rewrite length_insert. exact Hl.
      * intros i Hi. destruct (decide (i = n)) as [->|Hne].
        -- rewrite list_lookup_insert_eq by (apply lookup_lt_Some in Hn; exact Hn).
           rewrite Hge in Hn by lia. rewrite Hn. simpl. unfold linked.
           rewrite Hb. reflexivity.
        -- rewrite list_lookup_insert_ne by congruence. apply Hlt. lia.
      * intros i Hi. rewrite list_lookup_insert_ne by lia. apply Hge. lia.
    + repeat split; try assumption.
      * intros i Hi. destruct (decide (i = n)) as [->|Hne].
        -- rewrite Hn. rewrite Hge in Hn by lia. rewrite Hn. reflexivity.
        -- apply Hlt. lia.
      * intros i Hi. apply Hge. lia.
Qed.

Lemma fifo_init_length (f : IPCDriverFIFO) :
  length (fifo_requests (ipcDriverFifoInit N f)) = length (fifo_requests f).
Proof.
  unfold ipcDriverFifoInit.
  apply (for_upto_preserves
           (fun f' => length (fifo_requests f') = length (fifo_requests f))).
  - intros i f' H. simpl. rewrite length_insert. exact H.
  - reflexivity.
Qed.

(** The FIFO after the first [n] pushes of the second loop. *)
Lemma open_push_loop (f0 : IPCDriverFIFO) (n : nat) :
  Z.of_nat N < 2 ^ 31 ->
  pushIndex f0 = 0 -> popIndex f0 = -1 -> count f0 = 0 ->
  length (fifo_requests f0) = N -> (n <= N)%nat ->
  let f := for_upto n (fun i f => snd (ipcDriverFifoPush N f i)) f0 in
  count f = Z.of_nat n /\
  popIndex f = (if (n =? 0)%nat then -1 else 0) /\
  pushIndex f = Z.of_nat n mod Z.of_nat N /\
  length (fifo_requests f) = N /\
  (forall j, (j < n)%nat -> fifo_requests f !! j = Some (Some j)).
Proof.
  intros H32 Hpu Hpo Hc Hlen. induction n as [|n IH]; intros Hn.
  - unfold for_upto; simpl. rewrite Hpu, Hpo, Hc.
    repeat split; try assumption; try reflexivity.
    intros j Hj. lia.
  - rewrite for_upto_S. specialize (IH ltac:(lia)). cbv zeta in IH.
    destruct IH as (Hc' & Hpo' & Hpu' & Hl' & Hs').
    set (f1 := for_upto n (fun i f => snd (ipcDriverFifoPush N f i)) f0) in *.
    rewrite Z.mod_small in Hpu' by lia.
    unfold ipcDriverFifoPush.
    assert (Hne : (pushIndex f1 =? popIndex f1) = false).
    { apply Z.eqb_neq. rewrite Hpu', Hpo'. destruct n; simpl; lia. }
    rewrite Hne. simpl. rewrite Hc', Hpu', Hpo'.
    rewrite int32_small by lia.
    repeat split.
    + lia.
    + destruct n; reflexivity.
    + f_equal. lia.
    + rewrite length_insert. exact Hl'.
    + intros j Hj. rewrite Nat2Z.id.
      destruct (decide (j = n)) as [->|Hjn].
      * rewrite list_lookup_insert_eq by lia. reflexivity.
      * rewrite list_lookup_insert_ne by congruence. apply Hs'. lia.
Qed.

Lemma open_push_loop_driver (d : IPCDriver) (n : nat) :
  let d' := for_upto n (fun i d => set_freeFifo (snd (ipcDriverFifoPush N (freeFifo d) i)) d) d in
  freeFifo d' = for_upto n (fun i f => snd (ipcDriverFifoPush N f i)) (freeFifo d) /\
  requests d' = requests d /\ outboundFifo d' = outboundFifo d /\
  initialisedRequests d' = initialisedRequests d.
Proof.
  induction n as [|n IH]; simpl.
  - unfold for_upto; simpl. repeat split.
  - rewrite !for_upto_S. simpl. destruct IH as (Hf & Hr & Ho & Hi).
    rewrite Hf. repeat split; assumption.
Qed.

(** The parts of C4 that hold: on a driver that is Closed or
    Initialised, [IPCDriverOpen] returns OK, links request [i] to buffer
    [i] of the core and clears its callback and context, marks the
    requests initialised, resets the outbound FIFO and leaves the free
    FIFO holding the N requests in order. *)
Lemma IPCDriverOpen_success (d : IPCDriver) :
  (0 < N)%nat -> Z.of_nat N < 2 ^ 31 ->
  status d = Status_Closed \/ status d = Status_Initialised ->
  length (requests d) = N -> length (fifo_requests (freeFifo d)) = N ->
  let d' := snd (IPCDriverOpen N d) in
  fst (IPCDriverOpen N d) = IOS_OK /\
  (forall i, (i < N)%nat ->
     requests d' !! i = linked (ipcBuffers d) i <$> requests d !! i) /\
  initialisedRequests d' = true /\
  (pushIndex (outboundFifo d') = 0 /\ popIndex (outboundFifo d') = -1 /\
   count (outboundFifo d') = 0) /\
  count (freeFifo d') = Z.of_nat N /\
  fifo_contents N (freeFifo d') = map Some (seq 0 N).
Proof.
  intros HN H32 Hst Hlen Hflen. unfold IPCDriverOpen.
  assert (Hguard : negb (bool_decide (status d = Status_Closed)) &&
                   negb (bool_decide (status d = Status_Initialised)) = false).
  { destruct Hst as [-> | ->]; reflexivity. }
  rewrite Hguard. cbv zeta. simpl fst. simpl snd.
  destruct (open_link_loop d N) as (_ & _ & Hf1 & Ho1 & Hl1 & Hlt1 & _).
  set (d1 := for_upto N open_link_request d) in *.
  set (d4 := set_outboundFifo _ _).
  destruct (open_push_loop_driver d4 N) as (Hf5 & Hr5 & Ho5 & Hi5).
  set (d5 := for_upto N _ d4) in *.
  assert (Hfree4 : freeFifo d4 = ipcDriverFifoInit N (freeFifo d1)) by reflexivity.
  destruct (fifo_init_scalars N (freeFifo d1)) as (Hpu & Hpo & Hc & _).
  destruct (open_push_loop (freeFifo d4) N H32) as (Hc5 & Hpo5 & Hpu5 & Hl5 & Hs5).
  { rewrite Hfree4. exact Hpu. }
  { rewrite Hfree4. exact Hpo. }
  { rewrite Hfree4. exact Hc. }
  { rewrite Hfree4, fifo_init_length, Hf1. exact Hflen. }
  { lia. }
  rewrite <- Hf5 in Hc5, Hpo5, Hpu5, Hl5, Hs5.
  split; [reflexivity|]. split; [|split; [|split; [|split]]].
  - intros i Hi. rewrite Hr5. simpl. apply Hlt1. exact Hi.
  - rewrite Hi5. reflexivity.
  - rewrite Ho5. simpl.
    destruct (fifo_init_scalars N (outboundFifo d1)) as (Hpu' & Hpo' & Hc' & _).
    auto.
  - exact Hc5.
  - unfold fifo_contents. rewrite Hc5, Hpo5, Nat2Z.id.
    destruct (Nat.eqb_spec N 0) as [H0|H0]; [lia|].
    apply map_ext_in. intros k Hk. apply in_seq in Hk.
    rewrite Z.add_0_l, Z.mod_small by lia. rewrite Nat2Z.id.
    rewrite Hs5 by lia. reflexivity.
Qed.

End OpenFacts.

(** ** Handles of the kernel IOS devices *)

Lemma handles_positive (k : nat) :
  Forall (fun h => 0 < h) (map Z.of_nat (seq 1 k)).
Proof.
  apply List.Forall_forall. intros h Hin. apply List.in_map_iff in Hin.
  destruct Hin as (n & <- & Hn). apply in_seq in Hn. lia.
Qed.

Lemma handles_increasing (s k : nat) :
  StronglySorted Z.lt (map Z.of_nat (seq s k)).
Proof.
  revert s. induction k as [|k IH]; intros s; simpl; constructor.
  - apply IH.
  - apply List.Forall_forall. intros h Hin. apply List.in_map_iff in Hin.
    destruct Hin as (n & <- & Hn). apply in_seq in Hn. lia.
Qed.

Lemma handles_distinct (k : nat) : NoDup (map Z.of_nat (seq 1 k)).
Proof.
  apply NoDup_fmap_2; [apply Nat2Z.inj'|]. apply NoDup_ListNoDup, seq_NoDup.
Qed.

Section IosFacts.

Variable IOSError_value : IOSError -> Z.
Variable DeviceImpl : Type.
Variable device_open : DeviceImpl -> Z -> Z * DeviceImpl.
Variable device_close : DeviceImpl -> Z * DeviceImpl.

Local Abbreviation State := (IOSState DeviceImpl).
Local Abbreviation open := (iosOpen IOSError_value DeviceImpl device_open).
Local Abbreviation close := (iosClose IOSError_value DeviceImpl device_close).
Local Abbreviation step := (ios_step IOSError_value DeviceImpl device_open device_close).
Local Abbreviation handles_inv := (handles_inv DeviceImpl).
Local Abbreviation run := (ios_run IOSError_value DeviceImpl device_open device_close).

(** One [iosOpen]: an error return leaves the statics alone; a handle
    return hands out the counter and advances it by one. *)
Lemma iosOpen_cases (name : string) (mode : Z) (st st' : State) (r : OpenReturn) :
  open name mode st = Done (r, st') ->
  (exists e, r = ReturnError e /\ st' = st) \/
  (r = ReturnHandle (DeviceHandles _ st) /\
   DeviceHandles _ st' = DeviceHandles _ st + 1 /\
   DeviceHandles _ st + 1 < 2 ^ 31 /\
   exists impl,
     sOpenDeviceMap _ st' =
       <[DeviceHandles _ st := mkDevice _ (DeviceHandles _ st) impl]>
         (sOpenDeviceMap _ st)).
Proof.
  unfold iosOpen. destruct (sDeviceMap _ st !! name) as [creator|].
  - destruct (device_open creator mode) as [error impl].
    destruct (negb (error =? IOSError_value IOS_OK)).
    + intros H. injection H as <- <-. left. eauto.
    + destruct (Z.leb_spec (2 ^ 31) (DeviceHandles _ st + 1)) as [Hov|Hok];
        [discriminate|].
      intros H. injection H as <- <-. right. simpl. eauto 6.
  - intros H. injection H as <- <-. left. eauto.
Qed.

Lemma iosClose_counter (handle : Z) (st : State) :
  DeviceHandles _ (snd (close handle st)) = DeviceHandles _ st.
Proof.
  unfold iosClose. destruct (iosGetDevice _ st handle) as [device|]; [|reflexivity].
  destruct (device_close (dev_impl _ device)). reflexivity.
Qed.

Lemma ios_step_not_done (ops : list IosOp) (acc : Outcome (IosLog * State)) :
  (forall x, acc <> Done x) -> fold_left step ops acc = acc.
Proof.
  revert acc. induction ops as [|op ops IH]; intros acc Hacc; [reflexivity|].
  simpl. assert (Hstep : step acc op = acc).
  { destruct acc; try reflexivity. exfalso. eapply Hacc. reflexivity. }
  rewrite Hstep. apply IH. exact Hacc.
Qed.

Lemma ios_step_inv (op : IosOp) (log log' : IosLog) (st st' : State) :
  step (Done (log, st)) op = Done (log', st') ->
  handles_inv log st -> handles_inv log' st'.
Proof.
  intros Hstep (k & Hh & Hc). destruct op as [name mode|handle]; simpl in Hstep.
  - destruct (open name mode st) as [[r st1]| | |] eqn:Hopen; try discriminate.
    simpl in Hstep. injection Hstep as <- <-.
    apply iosOpen_cases in Hopen.
    destruct Hopen as [(e & -> & ->)|(-> & Hc' & _ & _)]; simpl.
    + exists k. rewrite app_nil_r. split; assumption.
    + exists (S k). split.
      * rewrite seq_S, map_app, Hh, Hc. reflexivity.
      * rewrite Hc', Hc. lia.
  - pose proof (iosClose_counter handle st) as Hcl.
    destruct (close handle st) as [reply st1]. simpl in *.
    injection Hstep as <- <-. exists k. simpl. split; [assumption|congruence].
Qed.

Lemma ios_run_inv (ops : list IosOp) (log log' : IosLog) (st st' : State) :
  fold_left step ops (Done (log, st)) = Done (log', st') ->
  handles_inv log st -> handles_inv log' st'.
Proof.
  revert log st. induction ops as [|op ops IH]; intros log st Hrun Hinv.
  - simpl in Hrun. injection Hrun as <- <-. exact Hinv.
  - change (fold_left step ops (step (Done (log, st)) op) = Done (log', st')) in Hrun.
    destruct (step (Done (log, st)) op) as [[log1 st1]| | |] eqn:Hstep.
    + apply (IH log1 st1 Hrun). eapply ios_step_inv; eassumption.
    + rewrite ios_step_not_done in Hrun by discriminate. discriminate.
    + rewrite ios_step_not_done in Hrun by discriminate. discriminate.
    + rewrite ios_step_not_done in Hrun by discriminate. discriminate.
Qed.

(** A run is defined as long as the counter cannot overflow: each
    request returns and advances the counter by one at most. *)
Lemma ios_step_defined (op : IosOp) (log : IosLog) (st : State) :
  DeviceHandles _ st + 1 < 2 ^ 31 ->
  exists log' st',
    step (Done (log, st)) op = Done (log', st') /\
    DeviceHandles _ st <= DeviceHandles _ st' <= DeviceHandles _ st + 1.
Proof.
  intros Hroom. destruct op as [name mode|handle]; simpl.
  - unfold iosOpen. destruct (sDeviceMap _ st !! name) as [creator|].
    + destruct (device_open creator mode) as [error impl].
      destruct (negb (error =? IOSError_value IOS_OK)); simpl.
      * eexists _, _. split; [reflexivity|lia].
      * destruct (Z.leb_spec (2 ^ 31) (DeviceHandles _ st + 1)) as [Hov|Hok]; [lia|].
        simpl. eexists _, _. split; [reflexivity|simpl; lia].
    + simpl. eexists _, _. split; [reflexivity|lia].
  - pose proof (iosClose_counter handle st) as Hcl.
    destruct (close handle st) as [reply st1]. simpl in *.
    eexists _, _. split; [reflexivity|lia].
Qed.

Lemma ios_run_defined_from (ops : list IosOp) (log : IosLog) (st : State) :
  DeviceHandles _ st + Z.of_nat (length ops) < 2 ^ 31 ->
  exists log' st', fold_left step ops (Done (log, st)) = Done (log', st').
Proof.
  revert log st. induction ops as [|op ops IH]; intros log st Hroom.
  - simpl. eauto.
  - change (exists log' st',
               fold_left step ops (step (Done (log, st)) op) = Done (log', st')).
    simpl length in Hroom.
    destruct (ios_step_defined op log st ltac:(lia)) as (log1 & st1 & Hstep & Hc).
    rewrite Hstep. apply IH. lia.
Qed.

Lemma ios_run_defined (registry : gmap string DeviceImpl) (ops : list IosOp) :
  Z.of_nat (length ops) < 2 ^ 31 - 1 ->
  exists log st, run ops (ios_initial _ registry) = Done (log, st).
Proof.
  intros Hlen. unfold ios_run. apply ios_run_defined_from. simpl. lia.
Qed.

(** C8. In every run of Open and Close requests from the initial state
    of the kernel (counter at 1, no open device), whatever the registry
    and the devices do: the handles returned by the successful calls of
    [iosOpen] are, in the order of the calls, exactly 1, 2, ..., k.  So
    each of them is positive, they are strictly increasing, no handle is
    returned twice (closing a device does not give its handle back), and
    the next handle is k + 1. *)
Theorem iosOpen_handles_fresh (registry : gmap string DeviceImpl)
    (ops : list IosOp) (log : IosLog) (st : State) :
  run ops (ios_initial _ registry) = Done (log, st) ->
  log_handles log = map Z.of_nat (seq 1 (length (log_handles log))) /\
  Forall (fun h => 0 < h) (log_handles log) /\
  StronglySorted Z.lt (log_handles log) /\
  NoDup (log_handles log) /\
  DeviceHandles _ st = Z.of_nat (length (log_handles log)) + 1.
Proof.
  intros Hrun. unfold ios_run in Hrun.
  apply ios_run_inv in Hrun; [|exists 0%nat; split; reflexivity].
  destruct Hrun as (k & Hh & Hc). rewrite Hh.
  rewrite length_map, length_seq.
  split; [reflexivity|]. split; [apply handles_positive|].
  split; [apply handles_increasing|]. split; [apply handles_distinct|].
  rewrite Hc. lia.
Qed.

End IosFacts.

(** Open, Open, Close(1), Open on "/dev/fsa", then Open on an unknown
    device: the replies are 1, 2, OK, 3 and NoExists; the handles are
    1, 2, 3. *)
Lemma iosOpen_handles_fresh_witness :
  exists log st,
    ios_run sample_IOSError unit sample_device_open sample_device_close
      sample_ios_ops (ios_initial unit sample_registry) = Done (log, st) /\
    log_replies log = [1; 2; 0; 3; -6] /\
    log_handles log = [1; 2; 3] /\
    (log_handles log = map Z.of_nat (seq 1 (length (log_handles log))) /\
     Forall (fun h => 0 < h) (log_handles log) /\
     StronglySorted Z.lt (log_handles log) /\
     NoDup (log_handles log) /\
     DeviceHandles _ st = Z.of_nat (length (log_handles log)) + 1).
Proof.
  eexists _, _. split; [vm_compute; reflexivity|].
  split; [reflexivity|]. split; [reflexivity|].
  apply (iosOpen_handles_fresh sample_IOSError unit sample_device_open
           sample_device_close sample_registry sample_ios_ops).
  vm_compute. reflexivity.
Defined.

(** ** FS command blocks *)

Lemma sample_FSAStatus_distinct : FSAStatus_distinct sample_constants.
Proof.
  intros a b. destruct a, b; simpl; intros H; first [reflexivity | discriminate H].
Qed.

Section FsFacts.

Variable K : FSConstants.
Variable OSSendMessage : option Z -> bool.

Local Abbreviation FSAStatus := (FSAStatus_value K).
Local Abbreviation FSStatus := (FSStatus_value K).
Local Abbreviation FSErrorFlag := (FSErrorFlag_value K).
Local Abbreviation invoke := (invokeFinishCmdFn K OSSendMessage).

(** C6. On a client and a block that are not null,
    [fsCmdBlockPrepareAsync] returns [FSStatus::FatalError] when the
    status of the block is neither Initialised nor Cancelled, and also
    when [asyncData] carries both a user callback and an ioMsgQueue.  In
    both cases the block comes back exactly as it was (no error mask and
    no client link stamped) and no call has been made (nothing is sent to
    a message queue, [fsAsyncResultInit] is not reached). *)
Theorem fsCmdBlockPrepareAsync_fatal
    (fsAsyncResultInit : Z -> FSAsyncResult -> FSAsyncData -> Z * FSAsyncResult)
    (client : Z) (body : FSCmdBlockBody)
    (errorMask : Z) (asyncData : FSAsyncData) (calls : list FsCall) :
  (blk_status body <> BlockStatus_Initialised /\
   blk_status body <> BlockStatus_Cancelled) \/
  (is_Some (userCallback asyncData) /\ is_Some (ioMsgQueue asyncData)) ->
  fsCmdBlockPrepareAsync K fsAsyncResultInit (Some client) (Some body)
    errorMask asyncData calls =
  Done (FSStatus FS_FatalError, body, calls).
Proof.
  intros H. unfold fsCmdBlockPrepareAsync.
  destruct (negb (bool_decide (blk_status body = BlockStatus_Initialised)) &&
            negb (bool_decide (blk_status body = BlockStatus_Cancelled))) eqn:Hst;
    [reflexivity|].
  destruct H as [[Hi Hc]|[Hcb Hq]].
  - rewrite !bool_decide_eq_false_2 in Hst by assumption. discriminate.
  - rewrite !bool_decide_eq_true_2 by assumption. reflexivity.
Qed.

(** C5. On a registered client, a block whose FSA status is
    MediaNotReady makes [fsCmdBlockHandleResult] store the status in
    [clientBody->lastError], call [fsmSetState] with WrongMedia and
    return; WriteProtected does the same with MediaError.  Nothing else
    happens: the block is untouched, no finish function runs and no
    message is sent. *)
Theorem handleResult_media_states
    (inv : FSFinishCmdFn -> Z -> World -> Outcome World) (w : World) :
  registered (w_client w) = true ->
  FSAStatus FSA_WriteProtected <> FSAStatus FSA_MediaNotReady ->
  (fsaStatus (w_block w) = FSAStatus FSA_MediaNotReady ->
   fsCmdBlockHandleResult K inv w =
   Done (mkWorld (w_block w)
           (mkClient true (FSAStatus FSA_MediaNotReady)
              (lastDequeuedCommand (w_client w)))
           (w_calls w ++ [Call_fsmSetState Vol_WrongMedia]))) /\
  (fsaStatus (w_block w) = FSAStatus FSA_WriteProtected ->
   fsCmdBlockHandleResult K inv w =
   Done (mkWorld (w_block w)
           (mkClient true (FSAStatus FSA_WriteProtected)
              (lastDequeuedCommand (w_client w)))
           (w_calls w ++ [Call_fsmSetState Vol_MediaError]))).
Proof.
  intros Hreg Hne. unfold fsCmdBlockHandleResult. rewrite Hreg. simpl.
  split; intros Hst; rewrite Hst.
  - rewrite Z.eqb_refl. unfold call, set_client, set_lastError. simpl.
    rewrite Hreg. reflexivity.
  - destruct (Z.eqb_spec (FSAStatus FSA_WriteProtected) (FSAStatus FSA_MediaNotReady));
      [contradiction|].
    rewrite Z.eqb_refl. unfold call, set_client, set_lastError. simpl.
    rewrite Hreg. reflexivity.
Qed.

Lemma switch_label_hit (name : FSAStatusName) :
  FSAStatus_distinct K -> In name handleResult_case_labels ->
  switch_label K (FSAStatus name) = Some name.
Proof.
  intros Hinj. unfold switch_label.
  induction handleResult_case_labels as [|l ls IH]; intros Hin; [destruct Hin|].
  simpl. destruct (Z.eqb_spec (FSAStatus name) (FSAStatus l)) as [Heq|Hneq].
  - apply Hinj in Heq. congruence.
  - destruct Hin as [->|Hin]; [congruence|]. apply IH. exact Hin.
Qed.

(** C1 (as amended). On a registered client, for every FSA status of
    a row of the table of section 4.7 that names an FSStatus and error
    flags (a negative status other than Busy, InvalidMedia,
    MediaNotReady, WriteProtected, DataCorrupted and MediaError),
    [fsCmdBlockHandleResult] records the status in [lastError] and then:
    if the error mask of the block intersects the error flags of the row,
    it calls [fsmEnterState] with Fatal and returns, the block untouched
    and nothing delivered; otherwise it clears [lastDequeuedCommand] if
    that is this block and passes the FSStatus of the row (the FSA status
    itself for the passthrough rows) to [fsCmdBlockReplyResult]. *)
Theorem handleResult_translation
    (inv : FSFinishCmdFn -> Z -> World -> Outcome World) (w : World)
    (name : FSAStatusName) (st : option FSStatusName) (fl : FSErrorFlagName) :
  registered (w_client w) = true ->
  FSAStatus_distinct K ->
  fsaStatus (w_block w) = FSAStatus name ->
  fsaStatus (w_block w) < 0 ->
  table_4_7 name = Some (st, fl) ->
  let status :=
    match st with
    | Some s => FSStatus s
    | None => fsaStatus (w_block w)
    end in
  let w1 := set_client (set_lastError (fsaStatus (w_block w)) (w_client w)) w in
  fsCmdBlockHandleResult K inv w =
  if Z.land (errorMask (w_block w)) (FSErrorFlag fl) =? 0
  then fsCmdBlockReplyResult inv status (forget_if_last_dequeued w1)
  else Done (call (Call_fsmEnterState Vol_Fatal) w1).
Proof.
  intros Hreg Hinj Hst Hneg Hrow status w1.
  assert (Hnr : (fsaStatus (w_block w) =? FSAStatus FSA_MediaNotReady) = false).
  { apply Z.eqb_neq. rewrite Hst. intros Heq. apply Hinj in Heq.
    rewrite Heq in Hrow. discriminate. }
  assert (Hwp : (fsaStatus (w_block w) =? FSAStatus FSA_WriteProtected) = false).
  { apply Z.eqb_neq. rewrite Hst. intros Heq. apply Hinj in Heq.
    rewrite Heq in Hrow. discriminate. }
  assert (Hlt : (fsaStatus (w_block w) <? 0) = true) by (apply Z.ltb_lt; exact Hneg).
  assert (Hin : In name handleResult_case_labels).
  { destruct name; simpl; try discriminate Hrow; tauto. }
  unfold fsCmdBlockHandleResult. rewrite Hreg. cbv zeta. simpl negb. cbv iota.
  simpl w_block. rewrite Hnr, Hwp, Hlt.
  rewrite Hst at 1. rewrite (switch_label_hit name Hinj Hin).
  subst status w1.
  destruct name; simpl in Hrow; try discriminate Hrow;
    injection Hrow as <- <-;
    destruct (Z.land (errorMask (w_block w)) (FSErrorFlag _) =? 0); reflexivity.
Qed.

Lemma uint32_int32 (q : Z) : 0 <= q < 2 ^ 32 -> uint32 (int32 q) = q.
Proof.
  intros Hq. unfold uint32, int32.
  rewrite Zminus_mod_idemp_l.
  replace (q + 2 ^ 31 - 2 ^ 31) with q by lia.
  apply Z.mod_small. exact Hq.
Qed.

Lemma uint32_range (z : Z) : 0 <= uint32 z < 2 ^ 32.
Proof. unfold uint32. apply Z.mod_pos_bound. lia. Qed.

Section ReadFacts.

Variable inv : FSFinishCmdFn -> Z -> World -> Outcome World.

Local Abbreviation finishRead := (fsCmdBlockFinishReadCmd K OSSendMessage inv).

(** C3 (as amended). A reply of [n] bytes that does not complete the
    read ([bytesRemaining] is not 0 afterwards and [n] is at least
    [readSize]): [fsCmdBlockFinishReadCmd] sets [readSize] to the smaller
    of [FSMaxBytesPerRequest] and [bytesRemaining], advances the buffer
    pointer of the read request by [n], advances its position by [n] if
    its flags have ReadWithPos, sets its size to the new [readSize] and
    its count to 1, rewrites slot 1 of the ioctlv vector with that buffer
    and size, and calls [fsCmdBlockRequeue] with [insertAtFront = FALSE]
    and [fsCmdBlockFinishReadCmdFn].  Unless the block is being
    cancelled, that stores the finish function, marks the block
    QueuedCommand and hands it to [fsCmdQueueEnqueue(queue, block,
    true)], not to [fsCmdQueuePushFront], between
    [fsCmdQueueFinishCmd] and [fsCmdQueueProcessCmd]. *)
Theorem finishReadCmd_continuation (n : Z) (w : World) :
  0 <= n < 2 ^ 31 ->
  bytesRemaining (read_progress n (readFile (w_block w))) <> 0 ->
  readSize (readFile (w_block w)) <= n ->
  let body := w_block w in
  let rs1 := read_progress n (readFile body) in
  let rq := request_readFile (fsaShimBuffer body) in
  let body' := w_block (read_continuation K n rs1 w) in
  let rq' := request_readFile (fsaShimBuffer body') in
  finishRead n w =
    fsCmdBlockRequeue K inv false (Some Fn_fsCmdBlockFinishReadCmd)
      (read_continuation K n rs1 w) /\
  readSize (readFile body') = Z.min (FSMaxBytesPerRequest K) (bytesRemaining rs1) /\
  bytesRead (readFile body') = uint32 (bytesRead (readFile body) + n) /\
  bytesRemaining (readFile body') = uint32 (bytesRemaining (readFile body) - n) /\
  rq_buffer rq' = uint32 (rq_buffer rq + n) /\
  rq_pos rq' =
    (if Z.land (rq_readFlags rq) (FSReadFlag_ReadWithPos K) =? 0
     then rq_pos rq else uint32 (rq_pos rq + n)) /\
  rq_size rq' = readSize (readFile body') /\
  rq_count rq' = 1 /\
  ioctlvVec (fsaShimBuffer body') =
    <[1%nat := mkVec (rq_buffer rq') (readSize (readFile body'))]>
      (ioctlvVec (fsaShimBuffer body)) /\
  (Z.land (cancelFlags body) (FSCmdCancelFlags_Cancelling K) = 0 ->
   finishRead n w =
   Done (mkWorld
           (set_blk_status BlockStatus_QueuedCommand
              (set_finishCmdFn (Some Fn_fsCmdBlockFinishReadCmd) body'))
           (w_client w)
           (w_calls w ++
              [Call_fsCmdQueueFinishCmd;
               Call_fsCmdQueueEnqueue (body_address body) true;
               Call_fsCmdQueueProcessCmd]))).
Proof.
  intros Hn Hrem Hfull body rs1 rq body' rq'.
  assert (Hu : uint32 n = n) by (apply uint32_small; lia).
  assert (Hneg : (n <? 0) = false) by (apply Z.ltb_ge; lia).
  assert (Hstep : finishRead n w =
                  fsCmdBlockRequeue K inv false (Some Fn_fsCmdBlockFinishReadCmd)
                    (read_continuation K n rs1 w)).
  { unfold fsCmdBlockFinishReadCmd. rewrite Hneg, Hu. cbv zeta. fold body rs1.
    assert (Hcond : (bytesRemaining rs1 =? 0) || (n <? readSize rs1) = false).
    { apply orb_false_iff. split; [apply Z.eqb_neq; exact Hrem|].
      apply Z.ltb_ge. exact Hfull. }
    rewrite Hcond. reflexivity. }
  split; [exact Hstep|].
  split.
  { subst body'. simpl.
    destruct (Z.ltb_spec (FSMaxBytesPerRequest K)
                (uint32 (bytesRemaining (readFile body) - n))); lia. }
  split; [reflexivity|]. split; [reflexivity|]. split; [reflexivity|].
  split.
  { subst rq' body' rq body. simpl.
    destruct (Z.land _ (FSReadFlag_ReadWithPos K) =? 0); reflexivity. }
  split; [reflexivity|]. split; [reflexivity|]. split; [reflexivity|].
  intros Hnc. rewrite Hstep. unfold fsCmdBlockRequeue.
  assert (Hc : (Z.land (cancelFlags (w_block (read_continuation K n rs1 w)))
                  (FSCmdCancelFlags_Cancelling K) =? 0) = true).
  { apply Z.eqb_eq. exact Hnc. }
  rewrite Hc. simpl. unfold call. simpl. rewrite <- !app_assoc. reflexivity.
Qed.

End ReadFacts.

End FsFacts.

(** ** Calls through [finishCmdFn] never need more than two levels *)

Section FuelFacts.

Variable K : FSConstants.
Variable OSSendMessage : option Z -> bool.

Local Abbreviation Cancelling := (FSCmdCancelFlags_Cancelling K).
Local Abbreviation invoke := (invokeFinishCmdFn K OSSendMessage).
Local Abbreviation finishRead := (fsCmdBlockFinishReadCmd K OSSendMessage).

Local Abbreviation not_cancelling := (not_cancelling K).

Lemma ldiff_not_cancelling (x : Z) : Z.land (Z.ldiff x Cancelling) Cancelling = 0.
Proof.
  apply Z.bits_inj'. intros i Hi.
  rewrite Z.land_spec, Z.ldiff_spec, Z.bits_0.
  destruct (Z.testbit x i), (Z.testbit Cancelling i); reflexivity.
Qed.

Section Ext.

Variables inv1 inv2 : FSFinishCmdFn -> Z -> World -> Outcome World.

(** A block that is not being cancelled is requeued or finished without
    any call through the pointer. *)
Lemma requeue_not_cancelling (front : bool) (fn : option FSFinishCmdFn) (w : World) :
  not_cancelling w ->
  fsCmdBlockRequeue K inv1 front fn w = fsCmdBlockRequeue K inv2 front fn w.
Proof.
  intros Hnc. unfold fsCmdBlockRequeue. unfold not_cancelling in Hnc.
  rewrite Hnc. reflexivity.
Qed.

Lemma finishRead_not_cancelling (status : Z) (w : World) :
  not_cancelling w -> finishRead inv1 status w = finishRead inv2 status w.
Proof.
  intros Hnc. unfold fsCmdBlockFinishReadCmd.
  destruct (status <? 0); [reflexivity|]. cbv zeta.
  destruct (_ || _); [reflexivity|].
  apply requeue_not_cancelling. exact Hnc.
Qed.

Hypothesis Hext : forall fn status w, not_cancelling w -> inv1 fn status w = inv2 fn status w.

Lemma replyResult_ext (status : Z) (w : World) :
  not_cancelling w ->
  fsCmdBlockReplyResult inv1 status w = fsCmdBlockReplyResult inv2 status w.
Proof using Hext.
  intros Hnc. unfold fsCmdBlockReplyResult.
  destruct (finishCmdFn _); [|reflexivity].
  rewrite Hext by exact Hnc. reflexivity.
Qed.

Lemma requeue_ext (front : bool) (fn : option FSFinishCmdFn) (w : World) :
  fsCmdBlockRequeue K inv1 front fn w = fsCmdBlockRequeue K inv2 front fn w.
Proof using Hext.
  unfold fsCmdBlockRequeue.
  destruct (negb _); [|reflexivity].
  apply replyResult_ext. apply ldiff_not_cancelling.
Qed.

Lemma finishRead_ext (status : Z) (w : World) :
  finishRead inv1 status w = finishRead inv2 status w.
Proof using Hext.
  unfold fsCmdBlockFinishReadCmd.
  destruct (status <? 0); [reflexivity|]. cbv zeta.
  destruct (_ || _); [reflexivity|]. apply requeue_ext.
Qed.

End Ext.

Lemma invoke_not_cancelling (f1 f2 : nat) (fn : FSFinishCmdFn) (status : Z) (w : World) :
  not_cancelling w -> invoke (S f1) fn status w = invoke (S f2) fn status w.
Proof.
  intros Hnc. destruct fn; [reflexivity| |reflexivity].
  change (finishRead (invoke f1) status w = finishRead (invoke f2) status w).
  apply finishRead_not_cancelling. exact Hnc.
Qed.

(** Two levels of calls through the pointer are enough: more fuel never
    changes the outcome. *)
Lemma invoke_fuel_enough (fuel : nat) (fn : FSFinishCmdFn) (status : Z) (w : World) :
  invoke (S (S fuel)) fn status w = invoke 2 fn status w.
Proof.
  destruct fn; [reflexivity| |reflexivity].
  change (finishRead (invoke (S fuel)) status w = finishRead (invoke 1) status w).
  apply finishRead_ext. intros fn status' w' Hnc.
  apply invoke_not_cancelling. exact Hnc.
Qed.

(** With that much fuel no call runs out of it. *)
Lemma setResult_has_fuel (status : Z) (w : World) :
  fsCmdBlockSetResult OSSendMessage status w <> OutOfFuel.
Proof. unfold fsCmdBlockSetResult. destruct (OSSendMessage _); discriminate. Qed.

Lemma finishCmd_has_fuel (result : Z) (w : World) :
  fsCmdBlockFinishCmd K OSSendMessage result w <> OutOfFuel.
Proof.
  unfold fsCmdBlockFinishCmd. cbv zeta.
  destruct (result <? 0); [apply setResult_has_fuel|].
  destruct (shim_command _); try apply setResult_has_fuel; try discriminate.
  - destruct (getFileBlockAddress_address _); apply setResult_has_fuel.
  - destruct (negb _); [|apply setResult_has_fuel].
    unfold decaf_check. destruct (_ <? _); [apply setResult_has_fuel|discriminate].
Qed.

Lemma finishRead_has_fuel (inv : FSFinishCmdFn -> Z -> World -> Outcome World)
    (status : Z) (w : World) :
  not_cancelling w -> finishRead inv status w <> OutOfFuel.
Proof.
  intros Hnc. unfold fsCmdBlockFinishReadCmd.
  destruct (status <? 0); [apply finishCmd_has_fuel|]. cbv zeta.
  destruct (_ || _).
  - destruct (_ =? 0); [discriminate|apply finishCmd_has_fuel].
  - unfold fsCmdBlockRequeue. unfold not_cancelling in Hnc.
    change (cancelFlags (w_block (read_continuation K _ _ w)))
      with (cancelFlags (w_block w)).
    rewrite Hnc. discriminate.
Qed.

Lemma invoke_1_has_fuel (fn : FSFinishCmdFn) (status : Z) (w : World) :
  not_cancelling w -> invoke 1 fn status w <> OutOfFuel.
Proof.
  intros Hnc. destruct fn.
  - apply finishCmd_has_fuel.
  - change (finishRead (invoke 0) status w <> OutOfFuel).
    apply finishRead_has_fuel. exact Hnc.
  - discriminate.
Qed.

Lemma replyResult_has_fuel (inv : FSFinishCmdFn -> Z -> World -> Outcome World)
    (status : Z) (w : World) :
  (forall fn, inv fn status (call Call_fsCmdQueueFinishCmd w) <> OutOfFuel) ->
  fsCmdBlockReplyResult inv status w <> OutOfFuel.
Proof.
  intros Hinv. unfold fsCmdBlockReplyResult. cbv zeta.
  destruct (finishCmdFn _) as [fn|]; [|discriminate].
  specialize (Hinv fn). destruct (inv fn status _); try discriminate.
  contradiction.
Qed.

Lemma requeue_has_fuel (inv : FSFinishCmdFn -> Z -> World -> Outcome World)
    (front : bool) (fn : option FSFinishCmdFn) (w : World) :
  (forall fn' status w', not_cancelling w' -> inv fn' status w' <> OutOfFuel) ->
  fsCmdBlockRequeue K inv front fn w <> OutOfFuel.
Proof.
  intros Hinv. unfold fsCmdBlockRequeue. cbv zeta.
  destruct (negb _); [|discriminate].
  apply replyResult_has_fuel. intros fn'.
  apply Hinv. apply ldiff_not_cancelling.
Qed.

Lemma invoke_2_has_fuel (fn : FSFinishCmdFn) (status : Z) (w : World) :
  invoke 2 fn status w <> OutOfFuel.
Proof.
  destruct fn.
  - apply finishCmd_has_fuel.
  - change (finishRead (invoke 1) status w <> OutOfFuel).
    unfold fsCmdBlockFinishReadCmd.
    destruct (status <? 0); [apply finishCmd_has_fuel|]. cbv zeta.
    destruct (_ || _).
    + destruct (_ =? 0); [discriminate|apply finishCmd_has_fuel].
    + apply requeue_has_fuel. intros fn' status' w' Hnc.
      apply invoke_1_has_fuel. exact Hnc.
  - discriminate.
Qed.

(** [fsCmdBlockHandleResult] always comes to an end: run with two levels
    of calls through the pointer it returns, aborts or hits undefined
    behaviour, and never runs out of fuel. *)
Lemma handleResult_has_fuel (w : World) :
  fsCmdBlockHandleResult K (invoke 2) w <> OutOfFuel.
Proof.
  assert (Hreply : forall status w',
             fsCmdBlockReplyResult (invoke 2) status w' <> OutOfFuel).
  { intros status w'. apply replyResult_has_fuel. intros fn.
    apply invoke_2_has_fuel. }
  unfold fsCmdBlockHandleResult. cbv zeta.
  destruct (negb (registered _)).
  { destruct (finishCmdFn _); [apply invoke_2_has_fuel|discriminate]. }
  destruct (_ =? _); [discriminate|]. destruct (_ =? _); [discriminate|].
  destruct (_ <? 0); [|apply Hreply].
  destruct (switch_label _ _) as [[]|];
    try (destruct (negb _); [discriminate|apply Hreply]);
    try discriminate.
  apply requeue_has_fuel. intros fn' status' w' _. apply invoke_2_has_fuel.
Qed.

End FuelFacts.

(** ** The properties on concrete inputs *)

(** A block that is InProgress, and async data with both a callback and
    a message queue on an Initialised block: FatalError, block and calls
    as before. *)
Lemma fsCmdBlockPrepareAsync_fatal_witness :
  fsCmdBlockPrepareAsync sample_constants sample_fsAsyncResultInit (Some 8192)
    (Some sample_read_block) 512 (mkAsyncData None None (Some 12288)) [] =
  Done (-1024, sample_read_block, []) /\
  fsCmdBlockPrepareAsync sample_constants sample_fsAsyncResultInit (Some 8192)
    (Some (set_blk_status BlockStatus_Initialised sample_read_block)) 512
    (mkAsyncData (Some 100) None (Some 12288)) [] =
  Done (-1024, set_blk_status BlockStatus_Initialised sample_read_block, []).
Proof.
  split.
  - apply (fsCmdBlockPrepareAsync_fatal sample_constants sample_fsAsyncResultInit).
    left. split; discriminate.
  - apply (fsCmdBlockPrepareAsync_fatal sample_constants sample_fsAsyncResultInit).
    right. split; eexists; reflexivity.
Defined.

(** MediaNotReady and WriteProtected on the sample block. *)
Lemma handleResult_media_states_witness :
  fsCmdBlockHandleResult sample_constants
    (invokeFinishCmdFn sample_constants sample_OSSendMessage 2)
    (sample_world_with (-196672) 0) =
  Done (mkWorld (w_block (sample_world_with (-196672) 0))
          (mkClient true (-196672) (Some 4096))
          [Call_fsmSetState Vol_WrongMedia]) /\
  fsCmdBlockHandleResult sample_constants
    (invokeFinishCmdFn sample_constants sample_OSSendMessage 2)
    (sample_world_with (-196674) 0) =
  Done (mkWorld (w_block (sample_world_with (-196674) 0))
          (mkClient true (-196674) (Some 4096))
          [Call_fsmSetState Vol_MediaError]).
Proof.
  split.
  - apply (handleResult_media_states sample_constants _ (sample_world_with (-196672) 0));
      [reflexivity | discriminate | reflexivity].
  - apply (handleResult_media_states sample_constants _ (sample_world_with (-196674) 0));
      [reflexivity | discriminate | reflexivity].
Defined.

(** StorageFull on the sample block.  With an error mask without the
    StorageFull flag the user's queue receives FSStatus::StorageFull
    and no state machine function is called; with the flag in the mask
    the only call is [fsmEnterState] with Fatal. *)
Lemma handleResult_translation_witness :
  (exists w',
     fsCmdBlockHandleResult sample_constants
       (invokeFinishCmdFn sample_constants sample_OSSendMessage 2)
       (sample_world_with (-196636) 0) = Done w' /\
     w_calls w' =
       [Call_fsCmdQueueFinishCmd; Call_OSSendMessage (Some 12288) (Some 4080) (-12);
        Call_fsCmdQueueProcessCmd] /\
     ar_status (asyncResult (w_block w')) = -12) /\
  fsCmdBlockHandleResult sample_constants
    (invokeFinishCmdFn sample_constants sample_OSSendMessage 2)
    (sample_world_with (-196636) 512) =
  Done (mkWorld (w_block (sample_world_with (-196636) 512))
          (mkClient true (-196636) (Some 4096))
          [Call_fsmEnterState Vol_Fatal]).
Proof.
  split.
  - eexists. split; [|split].
    + etransitivity.
      * apply (handleResult_translation sample_constants _
                 (sample_world_with (-196636) 0) FSA_StorageFull
                 (Some FS_StorageFull) Flag_StorageFull);
          [reflexivity | apply sample_FSAStatus_distinct | reflexivity
          | reflexivity | reflexivity].
      * vm_compute. reflexivity.
    + reflexivity.
    + reflexivity.
  - etransitivity.
    + apply (handleResult_translation sample_constants _
               (sample_world_with (-196636) 512) FSA_StorageFull
               (Some FS_StorageFull) Flag_StorageFull);
        [reflexivity | apply sample_FSAStatus_distinct | reflexivity
        | reflexivity | reflexivity].
    + vm_compute. reflexivity.
Defined.

(** The first reply of the sample read does not complete it
    ([bytesRemaining] is 45056, the reply was a full request), and the
    block is requeued through [fsCmdQueueEnqueue], the call of the
    branch [insertAtFront = FALSE]; [fsCmdQueuePushFront], the call that
    puts a block at the front, is not made. *)
Lemma finishReadCmd_requeue_not_at_front :
  exists w',
    fsCmdBlockFinishReadCmd sample_constants sample_OSSendMessage
      (invokeFinishCmdFn sample_constants sample_OSSendMessage 2) 262144 sample_world =
    Done w' /\
    bytesRemaining (readFile (w_block w')) = 45056 /\
    w_calls w' =
      [Call_fsCmdQueueFinishCmd; Call_fsCmdQueueEnqueue 4096 true;
       Call_fsCmdQueueProcessCmd] /\
    blk_status (w_block w') = BlockStatus_QueuedCommand /\
    (Call_fsCmdQueuePushFront 4096 ∉ w_calls w').
Proof.
  eexists. split; [vm_compute; reflexivity|]. split; [reflexivity|].
  split; [reflexivity|]. split; [reflexivity|].
  intros Hin. simpl in Hin.
  repeat (apply elem_of_cons in Hin; destruct Hin as [Hin|Hin]; [discriminate Hin|]).
  apply elem_of_nil in Hin. exact Hin.
Qed.

Lemma finishReadCmd_continuation_witness :
  let w' := read_continuation sample_constants 262144
              (read_progress 262144 (readFile sample_read_block)) sample_world in
  fsCmdBlockFinishReadCmd sample_constants sample_OSSendMessage
    (invokeFinishCmdFn sample_constants sample_OSSendMessage 2) 262144 sample_world =
  Done sample_world_second_round /\
  readSize (readFile (w_block w')) = 45056 /\
  rq_buffer (request_readFile (fsaShimBuffer (w_block w'))) = 65536 + 262144 /\
  ioctlvVec (fsaShimBuffer (w_block w')) = [mkVec 0 0; mkVec 327680 45056; mkVec 0 0].
Proof.
  pose proof (finishReadCmd_continuation sample_constants sample_OSSendMessage
                (invokeFinishCmdFn sample_constants sample_OSSendMessage 2)
                262144 sample_world) as H.
  specialize (H ltac:(vm_compute; split; congruence)
                ltac:(vm_compute; discriminate) ltac:(vm_compute; discriminate)).
  cbv zeta in H. destruct H as (_ & _ & _ & _ & _ & _ & _ & _ & _ & H).
  split; [|repeat split; reflexivity].
  etransitivity; [apply H; reflexivity|]. vm_compute. reflexivity.
Defined.

(** StorageFull with an empty error mask on a client that is not
    registered: the finish function is called at once with
    FSStatus::Cancelled (-1 here), so the user's queue receives Cancelled
    and not FSStatus::StorageFull (-12); [lastError] is not written and
    the queue is not told that the command has finished. *)
Lemma handleResult_unregistered_client :
  exists w',
    fsCmdBlockHandleResult sample_constants
      (invokeFinishCmdFn sample_constants sample_OSSendMessage 2)
      (sample_world_unregistered (-196636) 0) = Done w' /\
    w_calls w' = [Call_OSSendMessage (Some 12288) (Some 4080) (-1)] /\
    ar_status (asyncResult (w_block w')) = -1 /\
    lastError (w_client w') = 0.
Proof.
  eexists. split; [vm_compute; reflexivity|]. repeat split; reflexivity.
Qed.

(* ===================================================================== *)
(** * Part III: further properties of the embedded code                   *)
(* ===================================================================== *)

(** ** The FIFO is a queue *)

Lemma mod_add_inj (n p k1 k2 : Z) :
  0 < n -> 0 <= k1 < n -> 0 <= k2 < n ->
  (p + k1) mod n = (p + k2) mod n -> k1 = k2.
Proof.
  intros Hn H1 H2 Heq.
  assert (Hd : forall a b, 0 <= b <= a -> a < n ->
               (p + a) mod n = (p + b) mod n -> a = b).
  { intros a b Hab Ha He.
    assert (H0 : ((p + a) - (p + b)) mod n = 0).
    { rewrite Zminus_mod, He, Z.sub_diag. apply Z.mod_0_l. lia. }
    replace (p + a - (p + b)) with (a - b) in H0 by lia.
    rewrite Z.mod_small in H0 by lia. lia. }
  destruct (Z_le_gt_dec k2 k1) as [Hle|Hgt].
  - apply Hd; [lia|lia|exact Heq].
  - symmetry. apply Hd; [lia|lia|]. symmetry. exact Heq.
Qed.

Section QueueFacts.

Variable N : nat.
Hypothesis N_pos : (0 < N)%nat.
Hypothesis N_int32 : Z.of_nat N < 2 ^ 31.

Lemma fifo_contents_length (f : IPCDriverFIFO) :
  length (fifo_contents N f) = Z.to_nat (count f).
Proof. unfold fifo_contents. rewrite length_map, length_seq. reflexivity. Qed.

Lemma push_appends (f : IPCDriverFIFO) (r : nat) :
  fifo_inv N f -> length (fifo_requests f) = N -> count f < Z.of_nat N ->
  fst (ipcDriverFifoPush N f r) = IOS_OK /\
  count (snd (ipcDriverFifoPush N f r)) = count f + 1 /\
  length (fifo_requests (snd (ipcDriverFifoPush N f r))) = N /\
  fifo_contents N (snd (ipcDriverFifoPush N f r)) = fifo_contents N f ++ [Some r].
Proof using N_pos N_int32.
  intros Hinv Hlen Hroom.
  pose proof (fifo_inv_full_iff N f Hinv) as Hfull.
  destruct Hinv as [Hpu Hc He Hpo Hpp].
  unfold ipcDriverFifoPush.
  destruct (Z.eqb_spec (pushIndex f) (popIndex f)) as [Heq|Hne];
    [destruct Hfull; lia|].
  assert (Hc' : int32 (count f + 1) = count f + 1) by (apply int32_small; lia).
  simpl. rewrite Hc'. split; [reflexivity|]. split; [reflexivity|].
  split; [rewrite length_insert; exact Hlen|].
  unfold fifo_contents. simpl.
  replace (Z.to_nat (count f + 1)) with (S (Z.to_nat (count f)))
    by (rewrite <- Z2Nat.inj_succ by lia; f_equal).
  rewrite seq_S, map_app. simpl. rewrite Z2Nat.id by lia.
  destruct (Z.eq_dec (count f) 0) as [H0|H0].
  - rewrite H0. simpl. specialize (He H0). rewrite He. simpl.
    rewrite Z.add_0_r, Z.mod_small by lia.
    rewrite list_lookup_insert_eq by lia. reflexivity.
  - assert (Hpos : 0 < count f) by lia.
    specialize (Hpo Hpos). specialize (Hpp Hpos).
    destruct (Z.eqb_spec (popIndex f) (-1)) as [Hm|Hm]; [lia|].
    f_equal.
    + apply map_ext_in. intros k Hk. apply in_seq in Hk.
      rewrite list_lookup_insert_ne; [reflexivity|].
      intros Hidx. apply Z2Nat.inj in Hidx;
        [|lia|apply Z.mod_pos_bound; lia].
      rewrite Hpp in Hidx. apply mod_add_inj in Hidx; lia.
    + rewrite <- Hpp. rewrite list_lookup_insert_eq by lia. reflexivity.
Qed.

Lemma pop_takes_head (f : IPCDriverFIFO) :
  fifo_inv N f -> 0 < count f ->
  exists x rest,
    fifo_contents N f = x :: rest /\
    ipcDriverFifoPop N f = (IOS_OK, snd (fst (ipcDriverFifoPop N f)), Some x) /\
    count (snd (fst (ipcDriverFifoPop N f))) = count f - 1 /\
    fifo_requests (snd (fst (ipcDriverFifoPop N f))) = fifo_requests f /\
    fifo_contents N (snd (fst (ipcDriverFifoPop N f))) = rest.
Proof using N_pos N_int32.
  intros [Hpu Hc He Hpo Hpp] Hpos.
  specialize (Hpo Hpos). specialize (Hpp Hpos).
  unfold ipcDriverFifoPop.
  destruct (Z.eqb_spec (popIndex f) (-1)) as [Hm|Hm]; [lia|].
  assert (Hc' : int32 (count f - 1) = count f - 1) by (apply int32_small; lia).
  simpl. rewrite Hc'.
  unfold fifo_contents at 1.
  replace (Z.to_nat (count f)) with (S (Z.to_nat (count f - 1)))
    by (rewrite <- Z2Nat.inj_succ by lia; f_equal; lia).
  simpl seq. simpl map.
  eexists _, _. split; [reflexivity|].
  change (Z.of_nat 0) with 0. rewrite Z.add_0_r.
  rewrite (Z.mod_small (popIndex f)) by lia.
  split; [reflexivity|]. split; [reflexivity|]. split; [reflexivity|].
  unfold fifo_contents. simpl.
  destruct (Z.eqb_spec (count f - 1) 0) as [Hz|Hz].
  - rewrite Hz. reflexivity.
  - rewrite <- seq_shift, map_map. apply map_ext. intros k.
    rewrite Z.add_mod_idemp_l by lia.
    replace (popIndex f + 1 + Z.of_nat k) with (popIndex f + Z.of_nat (S k)) by lia.
    reflexivity.
Qed.

Lemma fifo_run_length (fifo0 : IPCDriverFIFO) (ops : list FifoOp) :
  length (fifo_requests fifo0) = N ->
  length (fifo_requests (fifo_run N fifo0 ops)) = N.
Proof.
  intros Hlen. unfold fifo_run.
  induction ops as [|op ops IH] using rev_ind; simpl.
  - rewrite fifo_init_length. exact Hlen.
  - rewrite fold_left_app. simpl. destruct op; simpl.
    + unfold ipcDriverFifoPush. destruct (_ =? _); simpl; [exact IH|].
      rewrite length_insert. exact IH.
    + unfold ipcDriverFifoPop. destruct (_ =? _); exact IH.
Qed.

(** X1. In every FIFO state reached from [ipcDriverFifoInit] the ring of
    slots behaves as a queue: it holds [count] requests; a push into a
    FIFO that is not full succeeds and puts the request behind the ones
    already there; a pop from a FIFO that is not empty succeeds, writes
    out the oldest request and leaves the others in their order. *)
Theorem fifo_is_queue (fifo0 : IPCDriverFIFO) (ops : list FifoOp) (r : nat) :
  length (fifo_requests fifo0) = N ->
  let f := fifo_run N fifo0 ops in
  length (fifo_contents N f) = Z.to_nat (count f) /\
  (count f < Z.of_nat N ->
   fst (ipcDriverFifoPush N f r) = IOS_OK /\
   fifo_contents N (snd (ipcDriverFifoPush N f r)) = fifo_contents N f ++ [Some r]) /\
  (0 < count f ->
   exists x rest,
     fifo_contents N f = x :: rest /\
     ipcDriverFifoPop N f = (IOS_OK, snd (fst (ipcDriverFifoPop N f)), Some x) /\
     fifo_contents N (snd (fst (ipcDriverFifoPop N f))) = rest).
Proof using N_pos N_int32.
  intros Hlen f.
  pose proof (fifo_inv_run N fifo0 ops N_pos N_int32) as Hinv. fold f in Hinv.
  pose proof (fifo_run_length fifo0 ops Hlen) as Hl. fold f in Hl.
  split; [apply fifo_contents_length|]. split.
  - intros Hroom. destruct (push_appends f r Hinv Hl Hroom) as (H1 & _ & _ & H2).
    split; assumption.
  - intros Hpos. destruct (pop_takes_head f Hinv Hpos) as (x & rest & H1 & H2 & _ & _ & H3).
    exists x, rest. repeat split; assumption.
Qed.

End QueueFacts.

(** ** [maxCount] is the high-water mark of [count] *)

Section HighWater.

Variable N : nat.
Hypothesis N_pos : (0 < N)%nat.
Hypothesis N_int32 : Z.of_nat N < 2 ^ 31.

Lemma fifo_step_maxCount (f : IPCDriverFIFO) (op : FifoOp) :
  fifo_inv N f -> count f <= maxCount f ->
  maxCount (fifo_step N f op) = Z.max (maxCount f) (count (fifo_step N f op)).
Proof using N_pos N_int32.
  intros Hinv Hle. pose proof (fifo_inv_full_iff N f Hinv) as Hfull.
  destruct Hinv as [Hpu Hc He Hpo Hpp].
  destruct op as [r|]; simpl.
  - unfold ipcDriverFifoPush.
    destruct (Z.eqb_spec (pushIndex f) (popIndex f)) as [Heq|Hne]; simpl; [lia|].
    assert (Hlt : count f < Z.of_nat N) by (destruct Hfull; lia).
    rewrite int32_small by lia.
    destruct (Z.ltb_spec (maxCount f) (count f + 1)); lia.
  - unfold ipcDriverFifoPop.
    destruct (Z.eqb_spec (popIndex f) (-1)) as [Heq|Hne]; simpl; [lia|].
    assert (Hpos : 0 < count f).
    { destruct (Z.eq_dec (count f) 0) as [H0|H0]; [specialize (He H0)|]; lia. }
    rewrite int32_small by lia. lia.
Qed.

(** X2. In every FIFO state reached from [ipcDriverFifoInit], [maxCount] is
    the largest value that [count] has had since the initialisation: no
    earlier state held more requests, some state (possibly this one) held
    exactly that many, and it never exceeds the capacity. *)
Theorem maxCount_high_water (fifo0 : IPCDriverFIFO) (ops : list FifoOp) :
  let f := fifo_run N fifo0 ops in
  (forall k, count (fifo_run N fifo0 (take k ops)) <= maxCount f) /\
  (exists k, maxCount f = count (fifo_run N fifo0 (take k ops))) /\
  maxCount f <= Z.of_nat N.
Proof using N_pos N_int32.
  cbv zeta.
  assert (Hstrong :
    (forall k, count (fifo_run N fifo0 (take k ops)) <= maxCount (fifo_run N fifo0 ops)) /\
    (exists k, (k <= length ops)%nat /\
       maxCount (fifo_run N fifo0 ops) = count (fifo_run N fifo0 (take k ops)))).
  { induction ops as [|op ops IH] using rev_ind.
    - destruct (fifo_init_scalars N fifo0) as (_ & _ & Hc & Hm).
      split.
      + intros k. rewrite take_nil. unfold fifo_run. simpl. lia.
      + exists 0%nat. split; [simpl; lia|]. unfold fifo_run. simpl. lia.
    - destruct IH as (Hall & k0 & Hk0 & Hmax).
      pose proof (fifo_inv_run N fifo0 ops N_pos N_int32) as Hinv.
      assert (Hle : count (fifo_run N fifo0 ops) <= maxCount (fifo_run N fifo0 ops)).
      { specialize (Hall (length ops)). rewrite take_ge in Hall by lia. exact Hall. }
      assert (Hrun : fifo_run N fifo0 (ops ++ [op]) = fifo_step N (fifo_run N fifo0 ops) op).
      { unfold fifo_run. rewrite fold_left_app. reflexivity. }
      pose proof (fifo_step_maxCount _ op Hinv Hle) as Hstep.
      rewrite <- Hrun in Hstep.
      split.
      + intros k. destruct (le_lt_dec k (length ops)) as [Hk|Hk].
        * rewrite take_app_le by exact Hk. specialize (Hall k). lia.
        * rewrite take_ge by (rewrite length_app; simpl; lia). lia.
      + destruct (Z_le_gt_dec (count (fifo_run N fifo0 (ops ++ [op])))
                    (maxCount (fifo_run N fifo0 ops))) as [Hold|Hnew].
        * exists k0. split; [rewrite length_app; simpl; lia|].
          rewrite take_app_le by exact Hk0. lia.
        * exists (length (ops ++ [op])). split; [lia|].
          rewrite take_ge by lia. lia. }
  destruct Hstrong as (Hall & k & _ & Hk).
  split; [exact Hall|]. split; [exists k; exact Hk|].
  rewrite Hk. apply (fifo_inv_run N fifo0 (take k ops) N_pos N_int32).
Qed.

End HighWater.

(** ** Allocating and freeing requests *)

Section AllocFacts.

Variable N : nat.
Hypothesis N_pos : (0 < N)%nat.
Hypothesis N_int32 : Z.of_nat N < 2 ^ 31.

Local Abbreviation contents := (fifo_contents N).

(** The free FIFO that [IPCDriverOpen] builds. *)
Lemma IPCDriverOpen_freeFifo (d : IPCDriver) :
  status d = Status_Closed \/ status d = Status_Initialised ->
  length (requests d) = N -> length (fifo_requests (freeFifo d)) = N ->
  let d' := snd (IPCDriverOpen N d) in
  fifo_inv N (freeFifo d') /\
  length (fifo_requests (freeFifo d')) = N /\
  length (requests d') = N /\
  contents (freeFifo d') = map Some (seq 0 N) /\
  (forall i, (i < N)%nat ->
     requests d' !! i = linked (ipcBuffers d) i <$> requests d !! i).
Proof using N_pos N_int32.
  intros Hst Hlen Hflen.
  destruct (IPCDriverOpen_success N d N_pos N_int32 Hst Hlen Hflen)
    as (_ & Hlink & _ & _ & Hcount & Hcont).
  cbv zeta in *. revert Hlink Hcount Hcont. unfold IPCDriverOpen.
  assert (Hguard : negb (bool_decide (status d = Status_Closed)) &&
                   negb (bool_decide (status d = Status_Initialised)) = false).
  { destruct Hst as [-> | ->]; reflexivity. }
  rewrite Hguard. cbv zeta. simpl snd. intros Hlink Hcount Hcont.
  destruct (open_link_loop d N) as (_ & _ & Hf1 & _ & Hl1 & _ & _).
  set (d1 := for_upto N open_link_request d) in *.
  set (d4 := set_outboundFifo _ _) in *.
  destruct (open_push_loop_driver N d4 N) as (Hf5 & Hr5 & _ & _).
  set (d5 := for_upto N _ d4) in *.
  assert (Hfree4 : freeFifo d4 = ipcDriverFifoInit N (freeFifo d1)) by reflexivity.
  destruct (fifo_init_scalars N (freeFifo d1)) as (Hpu & Hpo & Hc & _).
  destruct (open_push_loop N (freeFifo d4) N N_int32) as (Hc5 & Hpo5 & Hpu5 & Hl5 & _).
  { rewrite Hfree4. exact Hpu. }
  { rewrite Hfree4. exact Hpo. }
  { rewrite Hfree4. exact Hc. }
  { rewrite Hfree4, fifo_init_length, Hf1. exact Hflen. }
  { lia. }
  rewrite <- Hf5 in Hc5, Hpo5, Hpu5, Hl5.
  destruct (Nat.eqb_spec N 0) as [H0|H0]; [lia|].
  rewrite Z.mod_same in Hpu5 by lia.
  split; [|split; [exact Hl5|split; [|split; [exact Hcont|exact Hlink]]]].
  - constructor; rewrite ?Hpu5, ?Hc5, ?Hpo5; try lia.
    intros _. rewrite Z.add_0_l, Z.mod_same by lia. reflexivity.
  - rewrite Hr5. simpl. rewrite Hl1. exact Hlen.
Qed.

(** [IPCDriverOpen] establishes [driver_inv]. *)
Lemma driver_inv_open (d : IPCDriver) :
  status d = Status_Closed \/ status d = Status_Initialised ->
  length (requests d) = N -> length (fifo_requests (freeFifo d)) = N ->
  (forall i rq, requests d !! i = Some rq -> allocated rq = false) ->
  driver_inv N (snd (IPCDriverOpen N d)).
Proof using N_pos N_int32.
  intros Hst Hlen Hflen Hfree.
  destruct (IPCDriverOpen_freeFifo d Hst Hlen Hflen) as (Hinv & Hl & Hlr & Hcont & Hlink).
  cbv zeta in *.
  split; [exact Hinv|]. split; [exact Hl|]. split; [exact Hlr|].
  rewrite Hcont. split.
  - apply NoDup_fmap_2; [intros a b H; congruence|].
    apply NoDup_ListNoDup, seq_NoDup.
  - intros x. rewrite list_elem_of_fmap. split.
    + intros (i & -> & Hi). apply list_elem_of_In, in_seq in Hi.
      destruct (lookup_lt_is_Some_2 (requests d) i ltac:(lia)) as [rq Hrq].
      exists i, (linked (ipcBuffers d) i rq). split; [reflexivity|].
      rewrite Hlink, Hrq by lia. split; [reflexivity|].
      simpl. eapply Hfree. exact Hrq.
    + intros (i & rq & -> & Hrq & _). exists i. split; [reflexivity|].
      apply list_elem_of_In, in_seq. apply lookup_lt_Some in Hrq. lia.
Qed.

(** X3. After [IPCDriverOpen] on a driver none of whose requests is marked
    allocated, the call has returned OK, every request is in the free
    FIFO (it is full) and [driver_inv] holds: the free FIFO holds, once
    each, exactly the requests that are not allocated. *)
Theorem IPCDriverOpen_driver_inv (d : IPCDriver) :
  status d = Status_Closed \/ status d = Status_Initialised ->
  length (requests d) = N -> length (fifo_requests (freeFifo d)) = N ->
  (forall i rq, requests d !! i = Some rq -> allocated rq = false) ->
  fst (IPCDriverOpen N d) = IOS_OK /\
  driver_inv N (snd (IPCDriverOpen N d)) /\
  count (freeFifo (snd (IPCDriverOpen N d))) = Z.of_nat N.
Proof using N_pos N_int32.
  intros Hst Hlen Hflen Hfree.
  destruct (IPCDriverOpen_success N d N_pos N_int32 Hst Hlen Hflen)
    as (Hok & _ & _ & _ & Hcount & _).
  cbv zeta in *. split; [exact Hok|]. split; [|exact Hcount].
  apply driver_inv_open; assumption.
Qed.

(** A list of distinct request pointers that misses one request of the
    driver is shorter than the capacity. *)
Lemma free_slots_bound (d : IPCDriver) (r : nat) (rq : IPCDriverRequest) :
  driver_inv N d -> requests d !! r = Some rq -> allocated rq = true ->
  count (freeFifo d) < Z.of_nat N /\ Some r ∉ contents (freeFifo d).
Proof using N_pos N_int32.
  intros (Hinv & Hl & Hlr & Hnd & Hiff) Hr Halloc.
  assert (Hnotin : Some r ∉ contents (freeFifo d)).
  { intros Hin. apply Hiff in Hin. destruct Hin as (i & rq' & Heq & Hrq' & Hfalse).
    injection Heq as <-. congruence. }
  split; [|exact Hnotin].
  assert (Hsub : (Some r :: contents (freeFifo d)) ⊆+ map Some (seq 0 N)).
  { apply NoDup_submseteq; [constructor; assumption|].
    intros x Hx. apply list_elem_of_fmap.
    apply elem_of_cons in Hx. destruct Hx as [->|Hx].
    - exists r. split; [reflexivity|]. apply list_elem_of_In, in_seq.
      apply lookup_lt_Some in Hr. lia.
    - apply Hiff in Hx. destruct Hx as (i & rq' & -> & Hrq' & _).
      exists i. split; [reflexivity|]. apply list_elem_of_In, in_seq.
      apply lookup_lt_Some in Hrq'. lia. }
  apply submseteq_length in Hsub. simpl in Hsub.
  rewrite length_map, length_seq, fifo_contents_length in Hsub.
  destruct Hinv as [_ Hc _ _ _]. lia.
Qed.

(** What [ipcDriverFreeRequest] does to a request that is allocated. *)
Lemma driver_inv_free (d : IPCDriver) (r : nat) (rq : IPCDriverRequest) :
  driver_inv N d -> requests d !! r = Some rq -> allocated rq = true ->
  let res := ipcDriverFreeRequest N d r in
  fst res = IOS_OK /\
  snd res =
    set_requests (alter (set_allocated false) r (requests d))
      (set_freeFifo (snd (ipcDriverFifoPush N (freeFifo d) r)) d) /\
  contents (freeFifo (snd res)) = contents (freeFifo d) ++ [Some r] /\
  driver_inv N (snd res).
Proof using N_pos N_int32.
  intros Hdinv Hr Halloc.
  destruct (free_slots_bound d r rq Hdinv Hr Halloc) as (Hroom & Hnotin).
  destruct Hdinv as (Hinv & Hl & Hlr & Hnd & Hiff).
  destruct (push_appends N N_pos N_int32 (freeFifo d) r Hinv Hl Hroom)
    as (Hok & Hcnt & Hlen' & Hcont).
  pose proof (fifo_inv_push N (freeFifo d) r N_int32 Hinv) as Hinv'.
  unfold ipcDriverFreeRequest. cbv zeta.
  destruct (ipcDriverFifoPush N (freeFifo d) r) as [error fifo'] eqn:Hpush.
  simpl in Hok, Hcnt, Hlen', Hcont, Hinv'. subst error. simpl.
  split; [reflexivity|]. split; [reflexivity|]. split; [exact Hcont|].
  split; [exact Hinv'|]. split; [exact Hlen'|].
  change (requests (set_requests (alter (set_allocated false) r (requests d))
                      (set_freeFifo fifo' d)))
    with (alter (set_allocated false) r (requests d)).
  change (freeFifo (set_requests (alter (set_allocated false) r (requests d))
                      (set_freeFifo fifo' d)))
    with fifo'.
  split; [rewrite length_alter; exact Hlr|].
  rewrite Hcont. split.
  - apply NoDup_app. split; [exact Hnd|]. split.
    + intros x Hx Hx'. apply list_elem_of_singleton in Hx'. subst x. contradiction.
    + apply NoDup_singleton.
  - intros x. rewrite elem_of_app, list_elem_of_singleton. split.
    + intros [Hx| ->].
      * apply Hiff in Hx. destruct Hx as (i & rq' & -> & Hrq' & Hf).
        exists i, rq'. split; [reflexivity|]. split; [|exact Hf].
        rewrite list_lookup_alter_ne; [exact Hrq'|]. intros ->. congruence.
      * exists r, (set_allocated false rq). split; [reflexivity|].
        split; [|reflexivity]. rewrite list_lookup_alter_eq, Hr. reflexivity.
    + intros (i & rq' & -> & Hrq' & Hf).
      destruct (decide (i = r)) as [->|Hne]; [right; reflexivity|].
      left. apply Hiff. exists i, rq'. split; [reflexivity|]. split; [|exact Hf].
      rewrite list_lookup_alter_ne in Hrq' by congruence. exact Hrq'.
Qed.

(** X4. Freeing a request that is allocated, on a driver that satisfies
    [driver_inv]: the push into the free FIFO cannot fail, so
    [ipcDriverFreeRequest] returns OK, the failure counter stays as it
    is, the request goes to the back of the free FIFO with its flag
    cleared, and [driver_inv] holds again. *)
Theorem ipcDriverFreeRequest_allocated (d : IPCDriver) (r : nat) (rq : IPCDriverRequest) :
  driver_inv N d -> requests d !! r = Some rq -> allocated rq = true ->
  let res := ipcDriverFreeRequest N d r in
  fst res = IOS_OK /\
  failedFreeRequestBlock (snd res) = failedFreeRequestBlock d /\
  contents (freeFifo (snd res)) = contents (freeFifo d) ++ [Some r] /\
  requests (snd res) !! r = Some (set_allocated false rq) /\
  driver_inv N (snd res).
Proof using N_pos N_int32.
  intros Hdinv Hr Halloc.
  destruct (driver_inv_free d r rq Hdinv Hr Halloc) as (Hok & Heq & Hcont & Hinv').
  cbv zeta. split; [exact Hok|]. split; [rewrite Heq; reflexivity|].
  split; [exact Hcont|]. split; [|exact Hinv'].
  rewrite Heq. simpl. rewrite list_lookup_alter_eq, Hr. reflexivity.
Qed.

(** Taking the oldest free request out of the free FIFO and marking
    it allocated keeps [driver_inv]. *)
Lemma driver_inv_allocate (d : IPCDriver) (r : nat) (rest : list (option nat))
    (unk : Z) (cb ctx p : option Z) :
  driver_inv N d -> contents (freeFifo d) = Some r :: rest ->
  driver_inv N
    (set_requests (<[r := mkRequest true unk cb ctx p]> (requests d))
       (set_freeFifo (snd (fst (ipcDriverFifoPop N (freeFifo d)))) d)).
Proof using N_pos N_int32.
  intros (Hinv & Hl & Hlr & Hnd & Hiff) Hcont.
  assert (Hpos : 0 < count (freeFifo d)).
  { pose proof (fifo_contents_length N (freeFifo d)) as Hlen.
    rewrite Hcont in Hlen. simpl in Hlen. lia. }
  destruct (pop_takes_head N N_pos N_int32 (freeFifo d) Hinv Hpos)
    as (x & rest' & Hcont' & Hpop & Hcnt & Hslots & Hrest).
  rewrite Hcont in Hcont'. injection Hcont' as <- <-.
  set (fifo' := snd (fst (ipcDriverFifoPop N (freeFifo d)))) in *.
  rewrite Hcont in Hnd. apply NoDup_cons in Hnd. destruct Hnd as (Hnotin & Hnd).
  split; [apply (fifo_inv_pop N (freeFifo d) N_int32 Hinv)|].
  split; [simpl; fold fifo'; rewrite Hslots; exact Hl|].
  split; [simpl; rewrite length_insert; exact Hlr|].
  simpl freeFifo. rewrite Hrest. split; [exact Hnd|].
  intros x. simpl requests. split.
  - intros Hx.
    assert (Hx' : x ∈ contents (freeFifo d)) by (rewrite Hcont; apply elem_of_cons; tauto).
    apply Hiff in Hx'. destruct Hx' as (i & rq' & -> & Hrq' & Hf).
    exists i, rq'. split; [reflexivity|]. split; [|exact Hf].
    rewrite list_lookup_insert_ne; [exact Hrq'|]. intros ->. contradiction.
  - intros (i & rq' & -> & Hrq' & Hf).
    destruct (decide (i = r)) as [->|Hne].
    + apply list_lookup_insert_Some in Hrq'.
      destruct Hrq' as [(_ & <- & _)|(Hne & _)]; [discriminate Hf|congruence].
    + rewrite list_lookup_insert_ne in Hrq' by congruence.
      assert (Hin : Some i ∈ contents (freeFifo d)).
      { apply Hiff. exists i, rq'. tauto. }
      rewrite Hcont in Hin. apply elem_of_cons in Hin.
      destruct Hin as [Heq|Hin]; [congruence|exact Hin].
Qed.

Section Allocate.

Variable IOSError_value : IOSError -> Z.
Variable wait : IPCDriver -> IPCDriver.

Local Abbreviation allocate := (ipcDriverAllocateRequest N IOSError_value wait).

(** X5. Allocating on a driver that satisfies [driver_inv], has a free
    request and whose requests are linked to buffers: the call returns OK
    at the first pop, without waiting; the request it hands out is the
    oldest one in the free FIFO, was not allocated and now is, with the
    caller's callback and context; its buffer carries the command and the
    handle, zeroed arguments, flags and process id 0 and reply OK; every
    other request and buffer is untouched; and [driver_inv] holds
    again. *)
Theorem ipcDriverAllocateRequest_free_request (fuel : nat) (d : IPCDriver)
    (mem : gmap Z IPCBufferData) (handle : Z) (command : IOSCommand)
    (unk : Z) (cb ctx : option Z) :
  driver_inv N d -> requests_linked d mem -> 0 < count (freeFifo d) ->
  exists r rest rq p buffer,
    contents (freeFifo d) = Some r :: rest /\
    requests d !! r = Some rq /\ allocated rq = false /\
    ipcBuffer rq = Some p /\ mem !! p = Some buffer /\
    let d' := set_requests (<[r := mkRequest true unk cb ctx (Some p)]> (requests d))
                (set_freeFifo (snd (fst (ipcDriverFifoPop N (freeFifo d)))) d) in
    let mem' :=
      <[p := mkBufferData command (IOSError_value IOS_OK) handle 0 0
               (b_prevCommand buffer) (b_prevHandle buffer)
               (replicate (length (b_args buffer)) 0)
               (b_buffer1 buffer) (b_buffer2 buffer)]> mem in
    allocate (S fuel) d mem handle command unk cb ctx = Done (IOS_OK, d', mem', Some r) /\
    contents (freeFifo d') = rest /\
    failedAllocateRequestBlock d' = failedAllocateRequestBlock d /\
    driver_inv N d'.
Proof using N_pos N_int32.
  intros (Hinv & Hl & Hlr & Hnd & Hiff) Hlinked Hpos.
  destruct (pop_takes_head N N_pos N_int32 (freeFifo d) Hinv Hpos)
    as (x & rest & Hcont & Hpop & Hcnt & Hslots & Hrest).
  assert (Hx : x ∈ contents (freeFifo d)) by (rewrite Hcont; apply elem_of_cons; tauto).
  apply Hiff in Hx. destruct Hx as (r & rq & -> & Hrq & Hfree).
  destruct (Hlinked r rq Hrq) as (p & buffer & Hp & Hmem).
  exists r, rest, rq, p, buffer.
  split; [exact Hcont|]. split; [exact Hrq|]. split; [exact Hfree|].
  split; [exact Hp|]. split; [exact Hmem|]. cbv zeta.
  set (fifo' := snd (fst (ipcDriverFifoPop N (freeFifo d)))) in *.
  split.
  { unfold ipcDriverAllocateRequest. simpl allocate_pop_loop.
    rewrite Hpop. simpl. rewrite Hrq, Hp, Hmem. reflexivity. }
  split; [exact Hrest|]. split; [reflexivity|].
  apply driver_inv_allocate with (rest := rest); [|exact Hcont].
  split; [exact Hinv|]. split; [exact Hl|]. split; [exact Hlr|].
  split; [exact Hnd|exact Hiff].
Qed.

(** Allocating when the free FIFO is empty: every failed pop counts in
    [failedAllocateRequestBlock] and sets [waitingFreeFifo] before the
    caller waits; when the driver it wakes up to has a free request the
    next pop hands that request out. *)
Lemma ipcDriverAllocateRequest_waits (fuel : nat) (d : IPCDriver)
    (mem : gmap Z IPCBufferData) (handle : Z) (command : IOSCommand)
    (unk : Z) (cb ctx : option Z) :
  driver_inv N d -> count (freeFifo d) = 0 ->
  let blocked :=
    set_waitingFreeFifo true
      (set_failedAllocateRequestBlock (uint32 (failedAllocateRequestBlock d + 1)) d) in
  allocate (S fuel) d mem handle command unk cb ctx =
  allocate fuel (wait blocked) mem handle command unk cb ctx.
Proof.
  intros (Hinv & _) H0. destruct Hinv as [_ _ He _ _]. specialize (He H0).
  unfold ipcDriverAllocateRequest. simpl allocate_pop_loop.
  unfold ipcDriverFifoPop. rewrite He. simpl.
  destruct d as [? ? ? ? [] ? ? ? ? ? ? ? ? ?]. reflexivity.
Qed.

End Allocate.

End AllocFacts.

(** ** The kernel dispatcher and the open-handle table *)

Section DispatchFacts.

Variable IOSError_value : IOSError -> Z.
Variable DeviceImpl : Type.
Variable device_open : DeviceImpl -> Z -> Z * DeviceImpl.
Variable device_close : DeviceImpl -> Z * DeviceImpl.
Variable device_ioctl : DeviceImpl -> Z -> option Z -> Z -> option Z -> Z -> Z * DeviceImpl.
Variable device_ioctlv : DeviceImpl -> Z -> Z -> Z -> option Z -> Z * DeviceImpl.
Variable read_name : Z -> string.

Local Abbreviation State := (IOSState DeviceImpl).
Local Abbreviation open := (iosOpen IOSError_value DeviceImpl device_open).
Local Abbreviation close := (iosClose IOSError_value DeviceImpl device_close).
Local Abbreviation getDevice := (iosGetDevice DeviceImpl).
Local Abbreviation command :=
  (dispatch_command IOSError_value DeviceImpl device_open device_close
     device_ioctl device_ioctlv read_name).
Local Abbreviation dispatch :=
  (iosDispatchIpcRequest IOSError_value DeviceImpl device_open device_close
     device_ioctl device_ioctlv read_name).
Local Abbreviation step :=
  (dispatch_step IOSError_value DeviceImpl device_open device_close
     device_ioctl device_ioctlv read_name).
Local Abbreviation run :=
  (dispatch_run IOSError_value DeviceImpl device_open device_close
     device_ioctl device_ioctlv read_name).
Local Abbreviation table_inv := (table_inv DeviceImpl).

Lemma table_inv_initial (registry : gmap string DeviceImpl) :
  table_inv (ios_initial _ registry).
Proof.
  split; [simpl; lia|]. intros h device Hh. simpl in Hh.
  rewrite lookup_empty in Hh. discriminate.
Qed.

Lemma iosOpen_table_inv (name : string) (mode : Z) (st st' : State) (r : OpenReturn) :
  open name mode st = Done (r, st') -> table_inv st -> table_inv st'.
Proof.
  intros Hopen (H1 & Hinv). apply iosOpen_cases in Hopen.
  destruct Hopen as [(e & _ & ->)|(_ & Hc & _ & impl & Hmap)]; [split; assumption|].
  split; [lia|].
  intros h device Hh. rewrite Hmap in Hh.
  destruct (decide (DeviceHandles _ st = h)) as [Heq|Hne].
  - subst h. rewrite lookup_insert_eq in Hh. injection Hh as <-. simpl.
    split; [reflexivity|lia].
  - rewrite lookup_insert_ne in Hh by exact Hne.
    destruct (Hinv h device Hh) as (Hd & Hr). split; [exact Hd|lia].
Qed.

Lemma iosClose_table_inv (handle : Z) (st : State) :
  table_inv st -> table_inv (snd (close handle st)).
Proof.
  intros (H1 & Hinv). unfold iosClose.
  destruct (iosGetDevice _ st handle) as [device|]; [|split; assumption].
  destruct (device_close (dev_impl _ device)) as [reply impl]. simpl.
  split; [exact H1|]. intros h dev Hh. simpl in Hh.
  apply lookup_delete_Some in Hh. destruct Hh as (_ & Hh). apply Hinv. exact Hh.
Qed.

Lemma device_update_table_inv (st : State) (handle : Z) (device : IOSDevice DeviceImpl)
    (impl : DeviceImpl) :
  table_inv st -> getDevice st handle = Some device ->
  table_inv (mkIOS _ (sDeviceMap _ st)
               (<[handle := mkDevice _ (dev_handle _ device) impl]> (sOpenDeviceMap _ st))
               (DeviceHandles _ st)).
Proof.
  intros (H1 & Hinv) Hdev. split; [exact H1|]. intros h dev Hh. simpl in Hh.
  destruct (decide (handle = h)) as [->|Hne].
  - rewrite lookup_insert_eq in Hh. injection Hh as <-. simpl.
    apply Hinv. exact Hdev.
  - rewrite lookup_insert_ne in Hh by exact Hne. apply Hinv. exact Hh.
Qed.

Lemma dispatch_command_table_inv (buffer : IPCBufferData) (st st' : State) (reply : Z) :
  command buffer st = Done (reply, st') -> table_inv st -> table_inv st'.
Proof.
  unfold dispatch_command. intros Hcmd Hinv.
  destruct (b_command buffer); try discriminate.
  - destruct (b_buffer1 buffer) as [name_pointer|]; [|discriminate].
    destruct (open _ _ st) as [[r st1]| | |] eqn:Hopen; try discriminate.
    simpl in Hcmd. injection Hcmd as _ <-. eapply iosOpen_table_inv; eassumption.
  - pose proof (iosClose_table_inv (b_handle buffer) st Hinv) as Hcl.
    destruct (close (b_handle buffer) st) as [rp st1].
    injection Hcmd as _ <-. exact Hcl.
  - destruct (iosGetDevice _ st (b_handle buffer)) as [device|] eqn:Hdev.
    + destruct (device_ioctl _ _ _ _ _ _) as [rp impl]. injection Hcmd as _ <-.
      apply device_update_table_inv; assumption.
    + injection Hcmd as _ <-. exact Hinv.
  - destruct (iosGetDevice _ st (b_handle buffer)) as [device|] eqn:Hdev.
    + destruct (device_ioctlv _ _ _ _ _) as [rp impl]. injection Hcmd as _ <-.
      apply device_update_table_inv; assumption.
    + injection Hcmd as _ <-. exact Hinv.
Qed.

Lemma dispatch_facts (buffer reply : IPCBufferData) (st st' : State) :
  dispatch buffer st = Done (reply, st') ->
  table_inv st -> table_inv st' /\ echoes buffer reply.
Proof.
  unfold iosDispatchIpcRequest. intros Hd Hinv.
  destruct (command buffer st) as [[rp st1]| | |] eqn:Hcmd; try discriminate.
  simpl in Hd. injection Hd as <- <-.
  split; [eapply dispatch_command_table_inv; eassumption|].
  repeat split.
Qed.

Lemma dispatch_step_not_done (buffers : list IPCBufferData)
    (acc : Outcome (list IPCBufferData * State)) :
  (forall x, acc <> Done x) -> fold_left step buffers acc = acc.
Proof.
  revert acc. induction buffers as [|b bs IH]; intros acc Hacc; [reflexivity|].
  simpl. assert (Hstep : step acc b = acc).
  { destruct acc; try reflexivity. exfalso. eapply Hacc. reflexivity. }
  rewrite Hstep. apply IH. exact Hacc.
Qed.

Lemma dispatch_run_facts (buffers : list IPCBufferData)
    (replies0 replies : list IPCBufferData) (st0 st : State) :
  fold_left step buffers (Done (replies0, st0)) = Done (replies, st) ->
  table_inv st0 ->
  table_inv st /\
  exists new, replies = replies0 ++ new /\ Forall2 (echoes) buffers new.
Proof.
  revert replies0 st0. induction buffers as [|b bs IH]; intros replies0 st0 Hrun Hinv.
  - simpl in Hrun. injection Hrun as <- <-. split; [exact Hinv|].
    exists []. rewrite app_nil_r. split; [reflexivity|constructor].
  - change (fold_left step bs (step (Done (replies0, st0)) b) = Done (replies, st)) in Hrun.
    destruct (step (Done (replies0, st0)) b) as [[replies1 st1]| | |] eqn:Hstep;
      try (rewrite dispatch_step_not_done in Hrun by discriminate; discriminate).
    simpl in Hstep.
    destruct (dispatch b st0) as [[reply st1']| | |] eqn:Hd; try discriminate.
    simpl in Hstep. injection Hstep as <- <-.
    destruct (dispatch_facts b reply st0 st1' Hd Hinv) as (Hinv1 & Hecho).
    destruct (IH _ _ Hrun Hinv1) as (Hinv' & new & -> & Hall).
    split; [exact Hinv'|]. exists (reply :: new).
    rewrite <- app_assoc. split; [reflexivity|]. constructor; assumption.
Qed.

(** A handle that is not in the open-handle table is refused by Close,
    Ioctl and Ioctlv with InvalidHandle, and the statics stay as they
    are. *)
Lemma unknown_handle_refused (st : State) (buffer : IPCBufferData) :
  getDevice st (b_handle buffer) = None ->
  b_command buffer = IOSCmd_Close \/ b_command buffer = IOSCmd_Ioctl \/
  b_command buffer = IOSCmd_Ioctlv ->
  command buffer st = Done (IOSError_value IOS_InvalidHandle, st).
Proof.
  intros Hnone Hcmd. unfold dispatch_command, iosClose.
  destruct Hcmd as [->|[->| ->]]; rewrite Hnone; reflexivity.
Qed.

(** X7. In every state that the kernel reaches from its initial state by
    dispatching requests: the reply buffers echo their requests with
    command Reply, one per request and in order; every handle in the
    open-handle table was issued (it is at least 1 and below the
    counter) and names a device that carries it; and a Close, Ioctl or
    Ioctlv on a handle that was never issued is answered with
    InvalidHandle and changes nothing. *)
Theorem dispatch_run_handles (registry : gmap string DeviceImpl)
    (buffers replies : list IPCBufferData) (st : State) :
  run buffers (ios_initial _ registry) = Done (replies, st) ->
  Forall2 echoes buffers replies /\
  (forall h device, getDevice st h = Some device ->
     dev_handle _ device = h /\ 1 <= h < DeviceHandles _ st) /\
  (forall buffer,
     b_handle buffer < 1 \/ DeviceHandles _ st <= b_handle buffer ->
     b_command buffer = IOSCmd_Close \/ b_command buffer = IOSCmd_Ioctl \/
     b_command buffer = IOSCmd_Ioctlv ->
     command buffer st = Done (IOSError_value IOS_InvalidHandle, st)).
Proof.
  intros Hrun. unfold dispatch_run in Hrun.
  destruct (dispatch_run_facts _ _ _ _ _ Hrun (table_inv_initial registry))
    as ((H1 & Hinv) & new & -> & Hall).
  split; [exact Hall|]. split; [exact Hinv|].
  intros buffer Hrange Hcmd. apply unknown_handle_refused; [|exact Hcmd].
  destruct (getDevice st (b_handle buffer)) as [device|] eqn:Hdev; [|reflexivity].
  apply Hinv in Hdev. lia.
Qed.

(** X8. Open and Close are inverse on the open-handle table.  In a state
    that dispatching has reached, a successful [iosOpen] returns a handle
    that was not open before and registers a device under it without
    touching the other handles; closing that handle returns what the
    device's [close] returns and leaves the table exactly as it was
    before the open (only the counter has advanced); after that the
    handle is refused: a second Close, an Ioctl or an Ioctlv on it is
    answered with InvalidHandle. *)
Theorem open_close_round_trip (registry : gmap string DeviceImpl)
    (buffers replies : list IPCBufferData) (st st1 : State)
    (name : string) (mode h : Z) :
  run buffers (ios_initial _ registry) = Done (replies, st) ->
  open name mode st = Done (ReturnHandle h, st1) ->
  getDevice st h = None /\
  (exists impl,
     getDevice st1 h = Some (mkDevice _ h impl) /\
     fst (close h st1) = fst (device_close impl)) /\
  (forall h', h' <> h -> getDevice st1 h' = getDevice st h') /\
  sOpenDeviceMap _ (snd (close h st1)) = sOpenDeviceMap _ st /\
  DeviceHandles _ (snd (close h st1)) = DeviceHandles _ st + 1 /\
  (forall buffer,
     b_handle buffer = h ->
     b_command buffer = IOSCmd_Close \/ b_command buffer = IOSCmd_Ioctl \/
     b_command buffer = IOSCmd_Ioctlv ->
     command buffer (snd (close h st1)) =
     Done (IOSError_value IOS_InvalidHandle, snd (close h st1))).
Proof.
  intros Hrun Hopen. unfold dispatch_run in Hrun.
  destruct (dispatch_run_facts _ _ _ _ _ Hrun (table_inv_initial registry))
    as ((H1 & Hinv) & _).
  apply iosOpen_cases in Hopen.
  destruct Hopen as [(e & Heq & _)|(Heq & Hc & _ & impl & Hmap)]; [discriminate|].
  injection Heq as ->.
  assert (Hfresh : getDevice st (DeviceHandles _ st) = None).
  { destruct (getDevice st (DeviceHandles _ st)) as [device|] eqn:Hdev; [|reflexivity].
    apply Hinv in Hdev. lia. }
  assert (Hget1 : getDevice st1 (DeviceHandles _ st) =
                  Some (mkDevice _ (DeviceHandles _ st) impl)).
  { unfold iosGetDevice. rewrite Hmap, lookup_insert_eq. reflexivity. }
  assert (Hclose : close (DeviceHandles _ st) st1 =
                   (fst (device_close impl),
                    mkIOS _ (sDeviceMap _ st1) (sOpenDeviceMap _ st) (DeviceHandles _ st1))).
  { unfold iosClose. rewrite Hget1. simpl.
    destruct (device_close impl) as [reply impl']. simpl.
    rewrite Hmap, delete_insert_eq. f_equal. f_equal.
    apply delete_id. exact Hfresh. }
  split; [exact Hfresh|]. split.
  { exists impl. split; [exact Hget1|]. rewrite Hclose. reflexivity. }
  split.
  { intros h' Hne. unfold iosGetDevice. rewrite Hmap.
    rewrite lookup_insert_ne by congruence. reflexivity. }
  rewrite Hclose. simpl. split; [reflexivity|]. split; [exact Hc|].
  intros buffer Hh Hcmd. apply unknown_handle_refused; [|exact Hcmd].
  rewrite Hh. exact Hfresh.
Qed.

End DispatchFacts.

(** ** Delivery of a command's result *)

Section DeliveryFacts.

Variable K : FSConstants.
Variable OSSendMessage : option Z -> bool.

Local Abbreviation FSAStatus := (FSAStatus_value K).
Local Abbreviation FSStatus := (FSStatus_value K).
Local Abbreviation Cancelling := (FSCmdCancelFlags_Cancelling K).
Local Abbreviation invoke := (invokeFinishCmdFn K OSSendMessage).
Local Abbreviation finishCmd := (fsCmdBlockFinishCmd K OSSendMessage).
Local Abbreviation queue_of w := (ioMsgQueue (asyncData (asyncResult (w_block w)))).

Lemma setResult_done (status : Z) (w w' : World) :
  fsCmdBlockSetResult OSSendMessage status w = Done w' ->
  OSSendMessage (queue_of w) = true /\
  w' = mkWorld
         (set_asyncResult
            (mkAsyncResult (asyncData (asyncResult (w_block w))) (block (w_block w)) status)
            (w_block w))
         (w_client w) (w_calls w ++ [result_message (w_block w) status]).
Proof.
  unfold fsCmdBlockSetResult. cbv zeta. simpl.
  destruct (OSSendMessage _); [|discriminate].
  intros [= <-]. split; reflexivity.
Qed.

(** The block as [fsCmdBlockFinishCmd] leaves it, and what it has
    called, when it returns. *)
Lemma finishCmd_done (result : Z) (w w' : World) :
  finishCmd result w = Done w' ->
  let b1 := set_blk_status BlockStatus_Cancelled
              (set_cancelFlags (Z.ldiff (cancelFlags (w_block w)) Cancelling) (w_block w)) in
  OSSendMessage (queue_of w) = true /\
  exists outputs,
    (outputs = [] \/ exists cmd, outputs = [Call_writeOutput cmd]) /\
    (result < 0 -> outputs = []) /\
    w' = mkWorld
           (set_asyncResult
              (mkAsyncResult (asyncData (asyncResult (w_block w))) (block (w_block w)) result)
              (if result <? 0 then b1 else clear_unk b1))
           (w_client (forget_if_last_dequeued w))
           (w_calls w ++ outputs ++ [result_message (w_block w) result]).
Proof.
  unfold fsCmdBlockFinishCmd. cbv zeta.
  assert (Hforget : forall b,
            body_address b = body_address (w_block w) ->
            forget_if_last_dequeued (set_block b w) =
            set_block b (forget_if_last_dequeued w)).
  { intros b Hb. unfold forget_if_last_dequeued. simpl. rewrite Hb.
    destruct (bool_decide _); reflexivity. }
  rewrite Hforget by reflexivity.
  set (w2 := forget_if_last_dequeued w).
  assert (Hc2 : w_calls w2 = w_calls w).
  { subst w2. unfold forget_if_last_dequeued. destruct (bool_decide _); reflexivity. }
  destruct (Z.ltb_spec result 0) as [Hneg|Hpos].
  - intros Hdone. apply setResult_done in Hdone. destruct Hdone as (Hq & ->).
    simpl in Hq. split; [exact Hq|].
    exists []. split; [left; reflexivity|]. split; [reflexivity|].
    unfold result_message. simpl. rewrite Hc2. reflexivity.
  - assert (Hcase : forall wa outputs,
              w_block wa = clear_unk (set_blk_status BlockStatus_Cancelled
                (set_cancelFlags (Z.ldiff (cancelFlags (w_block w)) Cancelling) (w_block w))) ->
              w_client wa = w_client w2 ->
              w_calls wa = w_calls w ++ outputs ->
              (outputs = [] \/ exists cmd, outputs = [Call_writeOutput cmd]) ->
              fsCmdBlockSetResult OSSendMessage result wa = Done w' ->
              OSSendMessage (queue_of w) = true /\
              exists outputs,
                (outputs = [] \/ exists cmd, outputs = [Call_writeOutput cmd]) /\
                (result < 0 -> outputs = []) /\
                w' = mkWorld
                       (set_asyncResult
                          (mkAsyncResult (asyncData (asyncResult (w_block w)))
                             (block (w_block w)) result)
                          (clear_unk (set_blk_status BlockStatus_Cancelled
                             (set_cancelFlags (Z.ldiff (cancelFlags (w_block w)) Cancelling)
                                (w_block w)))))
                       (w_client w2)
                       (w_calls w ++ outputs ++ [result_message (w_block w) result])).
    { intros wa outputs Hba Hca Hla Hout Hdone.
      apply setResult_done in Hdone. destruct Hdone as (Hq & ->).
      rewrite Hba, Hca, Hla in *. simpl in Hq. split; [exact Hq|].
      exists outputs. split; [exact Hout|]. split; [lia|].
      unfold result_message. simpl. rewrite <- app_assoc. reflexivity. }
    assert (Hnone : forall wa,
              w_block wa = clear_unk (set_blk_status BlockStatus_Cancelled
                (set_cancelFlags (Z.ldiff (cancelFlags (w_block w)) Cancelling) (w_block w))) ->
              w_client wa = w_client w2 ->
              w_calls wa = w_calls w -> _) by
      (intros wa Hba Hca Hla;
       refine (Hcase wa [] Hba Hca _ (or_introl eq_refl));
       rewrite app_nil_r; exact Hla).
    assert (Hone : forall wa cmd,
              w_block wa = clear_unk (set_blk_status BlockStatus_Cancelled
                (set_cancelFlags (Z.ldiff (cancelFlags (w_block w)) Cancelling) (w_block w))) ->
              w_client wa = w_client w2 ->
              w_calls wa = w_calls w ++ [Call_writeOutput cmd] -> _) by
      (intros wa cmd Hba Hca Hla;
       exact (Hcase wa [Call_writeOutput cmd] Hba Hca Hla
                (or_intror (ex_intro _ cmd eq_refl)))).
    clear Hcase.
    destruct (shim_command (fsaShimBuffer (w_block w))) eqn:Hcmd; simpl; rewrite ?Hcmd;
      try (apply Hnone; [reflexivity|reflexivity|exact Hc2]);
      try (eapply Hone; [reflexivity|reflexivity|simpl; rewrite Hc2; reflexivity]);
      try discriminate.
    + destruct (getFileBlockAddress_address (w_block w)).
      * eapply Hone; [reflexivity|reflexivity|simpl; rewrite Hc2; reflexivity].
      * apply Hnone; [reflexivity|reflexivity|exact Hc2].
    + destruct (negb (getCwd_bytes (w_block w) =? 0)).
      * unfold decaf_check. destruct (_ <? _); [|discriminate]. simpl.
        eapply Hone; [reflexivity|reflexivity|simpl; rewrite Hc2; reflexivity].
      * apply Hnone; [reflexivity|reflexivity|exact Hc2].
Qed.

Lemma finishCmd_negative (result : Z) (w : World) :
  result < 0 -> OSSendMessage (queue_of w) = true ->
  finishCmd result w =
  Done (mkWorld
          (set_asyncResult
             (mkAsyncResult (asyncData (asyncResult (w_block w))) (block (w_block w)) result)
             (set_blk_status BlockStatus_Cancelled
                (set_cancelFlags (Z.ldiff (cancelFlags (w_block w)) Cancelling) (w_block w))))
          (w_client (forget_if_last_dequeued w))
          (w_calls w ++ [result_message (w_block w) result])).
Proof.
  intros Hneg Hq. unfold fsCmdBlockFinishCmd. cbv zeta.
  destruct (Z.ltb_spec result 0) as [_|Hpos]; [|lia].
  unfold fsCmdBlockSetResult, forget_if_last_dequeued. cbv zeta. simpl.
  destruct (bool_decide _); simpl; rewrite Hq; reflexivity.
Qed.

Lemma invoke_2_finishCmd (status : Z) (w : World) :
  invoke 2 Fn_fsCmdBlockFinishCmd status w = finishCmd status w.
Proof. reflexivity. Qed.

Lemma invoke_2_finishRead (status : Z) (w : World) :
  invoke 2 Fn_fsCmdBlockFinishReadCmd status w =
  fsCmdBlockFinishReadCmd K OSSendMessage (invoke 1) status w.
Proof. reflexivity. Qed.

Lemma finishRead_negative (inv : FSFinishCmdFn -> Z -> World -> Outcome World)
    (status : Z) (w : World) :
  status < 0 ->
  fsCmdBlockFinishReadCmd K OSSendMessage inv status w = finishCmd status w.
Proof.
  intros Hneg. unfold fsCmdBlockFinishReadCmd.
  destruct (Z.ltb_spec status 0); [reflexivity|lia].
Qed.

(** X9. When [fsCmdBlockFinishCmd] returns, the result has been delivered:
    the last call it made is the one [OSSendMessage] to the queue of the
    block's async data, with the block and [result]; before it there is
    at most the store to the output binding of the command, and none for
    a negative result;
    the async result holds [result]; the block is Cancelled (ready for
    reuse) with the Cancelling flag clear, its finish function, error
    mask and read state as before; and the client no longer names the
    block as its last dequeued command.  It returns for every negative
    result that the queue accepts, and it aborts whenever the queue
    refuses the message. *)
Theorem fsCmdBlockFinishCmd_delivers (result : Z) (w : World) :
  (forall w',
     finishCmd result w = Done w' ->
     OSSendMessage (queue_of w) = true /\
     (exists outputs,
        w_calls w' = w_calls w ++ outputs ++ [result_message (w_block w) result] /\
        (outputs = [] \/ exists cmd, outputs = [Call_writeOutput cmd]) /\
        (result < 0 -> outputs = [])) /\
     asyncResult (w_block w') =
       mkAsyncResult (asyncData (asyncResult (w_block w))) (block (w_block w)) result /\
     blk_status (w_block w') = BlockStatus_Cancelled /\
     not_cancelling K w' /\
     lastDequeuedCommand (w_client w') <> Some (body_address (w_block w')) /\
     finishCmdFn (w_block w') = finishCmdFn (w_block w) /\
     errorMask (w_block w') = errorMask (w_block w) /\
     readFile (w_block w') = readFile (w_block w)) /\
  (result < 0 -> OSSendMessage (queue_of w) = true ->
   exists w', finishCmd result w = Done w') /\
  (OSSendMessage (queue_of w) = false ->
   exists msg, finishCmd result w = Aborted msg).
Proof.
  split; [|split].
  - intros w' Hdone. apply finishCmd_done in Hdone. cbv zeta in Hdone.
    destruct Hdone as (Hq & outputs & Hout & Hneg & ->).
    split; [exact Hq|]. split.
    { exists outputs. split; [reflexivity|]. split; [exact Hout|exact Hneg]. }
    split; [reflexivity|].
    split; [destruct (result <? 0); reflexivity|].
    split.
    { unfold not_cancelling. destruct (result <? 0); simpl; apply ldiff_not_cancelling. }
    split.
    { unfold forget_if_last_dequeued.
      destruct (result <? 0); simpl;
        (destruct (bool_decide_reflect
                     (lastDequeuedCommand (w_client w) = Some (body_address (w_block w))));
         simpl; [discriminate|assumption]). }
    destruct (result <? 0); repeat split; reflexivity.
  - intros Hneg Hq. eexists. apply finishCmd_negative; assumption.
  - intros Hq.
    assert (Hset : forall status wa,
              ioMsgQueue (asyncData (asyncResult (w_block wa))) = queue_of w ->
              exists msg, fsCmdBlockSetResult OSSendMessage status wa = Aborted msg).
    { intros status wa Hwa. unfold fsCmdBlockSetResult. cbv zeta. simpl.
      rewrite Hwa, Hq. eexists. reflexivity. }
    unfold fsCmdBlockFinishCmd, forget_if_last_dequeued. cbv zeta. simpl.
    destruct (bool_decide _); simpl;
      (destruct (result <? 0); [apply Hset; reflexivity|]);
      (destruct (shim_command (fsaShimBuffer (w_block w)));
       try (apply Hset; reflexivity);
       try (eexists; reflexivity);
       [ destruct (getFileBlockAddress_address (w_block w)); apply Hset; reflexivity
       | destruct (negb (getCwd_bytes (w_block w) =? 0)); [|apply Hset; reflexivity];
         unfold decaf_check; destruct (_ <? _); simpl;
         [apply Hset; reflexivity|eexists; reflexivity] ]).
Qed.

(** X10. Requeueing a block that is being cancelled, when its stored finish
    function is one of the two of this file, FSStatus::Cancelled is
    negative and the user's queue accepts the message: the block is not
    put back into the command queue (neither [fsCmdQueuePushFront] nor
    [fsCmdQueueEnqueue] is called) and the finish function passed to
    [fsCmdBlockRequeue] is not stored; the command is finished on the
    queue, the user receives FSStatus::Cancelled once, and the next
    command is started.  The block ends Cancelled with the Cancelling
    flag clear and the client's last dequeued command is null. *)
Theorem fsCmdBlockRequeue_cancelling (front : bool) (fn : option FSFinishCmdFn) (w : World) :
  Z.land (cancelFlags (w_block w)) Cancelling <> 0 ->
  FSStatus FS_Cancelled < 0 ->
  finishCmdFn (w_block w) = Some Fn_fsCmdBlockFinishCmd \/
  finishCmdFn (w_block w) = Some Fn_fsCmdBlockFinishReadCmd ->
  OSSendMessage (queue_of w) = true ->
  exists w',
    fsCmdBlockRequeue K (invoke 2) front fn w = Done w' /\
    w_calls w' =
      w_calls w ++ [Call_fsCmdQueueFinishCmd;
                    result_message (w_block w) (FSStatus FS_Cancelled);
                    Call_fsCmdQueueProcessCmd] /\
    ar_status (asyncResult (w_block w')) = FSStatus FS_Cancelled /\
    blk_status (w_block w') = BlockStatus_Cancelled /\
    not_cancelling K w' /\
    finishCmdFn (w_block w') = finishCmdFn (w_block w) /\
    lastDequeuedCommand (w_client w') = None.
Proof.
  intros Hc Hneg Hfn Hq.
  unfold fsCmdBlockRequeue. cbv zeta.
  destruct (Z.eqb_spec (Z.land (cancelFlags (w_block w)) Cancelling) 0) as [H0|_];
    [contradiction|].
  simpl negb. cbv iota.
  unfold fsCmdBlockReplyResult. cbv zeta.
  set (w1 := call Call_fsCmdQueueFinishCmd _).
  assert (Hfn1 : finishCmdFn (w_block w1) = finishCmdFn (w_block w)) by reflexivity.
  assert (Hq1 : OSSendMessage (queue_of w1) = true) by exact Hq.
  assert (Hinv : forall f, finishCmdFn (w_block w) = Some f ->
            f = Fn_fsCmdBlockFinishCmd \/ f = Fn_fsCmdBlockFinishReadCmd ->
            invoke 2 f (FSStatus FS_Cancelled) w1 = finishCmd (FSStatus FS_Cancelled) w1).
  { intros f _ [-> | ->]; [reflexivity|].
    rewrite invoke_2_finishRead. apply finishRead_negative. exact Hneg. }
  rewrite Hfn1.
  destruct (finishCmdFn (w_block w)) as [f|] eqn:Hf;
    [|destruct Hfn; discriminate].
  rewrite (Hinv f eq_refl) by (destruct Hfn as [[= <-]|[= <-]]; tauto).
  rewrite (finishCmd_negative _ w1 Hneg Hq1). simpl.
  eexists. split; [reflexivity|]. simpl.
  split; [rewrite <- !app_assoc; reflexivity|].
  split; [reflexivity|]. split; [reflexivity|].
  split; [apply ldiff_not_cancelling|].
  split; [exact Hf|]. reflexivity.
Qed.

(** X11. A Busy reply on a registered client, for a block that is not being
    cancelled: the status is recorded in [lastError], the block is marked
    QueuedCommand and put back at the front of the command queue with
    the finish function it already had, and the queue is processed.
    Nothing is delivered to the user and the block is otherwise
    untouched; the client's last dequeued command stays as it is. *)
Theorem handleResult_busy
    (inv : FSFinishCmdFn -> Z -> World -> Outcome World) (w : World) :
  registered (w_client w) = true ->
  FSAStatus_distinct K ->
  fsaStatus (w_block w) = FSAStatus FSA_Busy ->
  FSAStatus FSA_Busy < 0 ->
  not_cancelling K w ->
  fsCmdBlockHandleResult K inv w =
  Done (mkWorld (set_blk_status BlockStatus_QueuedCommand (w_block w))
          (set_lastError (FSAStatus FSA_Busy) (w_client w))
          (w_calls w ++ [Call_fsCmdQueueFinishCmd;
                         Call_fsCmdQueuePushFront (body_address (w_block w));
                         Call_fsCmdQueueProcessCmd])).
Proof.
  intros Hreg Hinj Hst Hneg Hnc.
  assert (Hnr : (fsaStatus (w_block w) =? FSAStatus FSA_MediaNotReady) = false).
  { apply Z.eqb_neq. rewrite Hst. intros Heq. apply Hinj in Heq. discriminate. }
  assert (Hwp : (fsaStatus (w_block w) =? FSAStatus FSA_WriteProtected) = false).
  { apply Z.eqb_neq. rewrite Hst. intros Heq. apply Hinj in Heq. discriminate. }
  assert (Hlt : (fsaStatus (w_block w) <? 0) = true) by (apply Z.ltb_lt; lia).
  assert (Hin : In FSA_Busy handleResult_case_labels) by (simpl; tauto).
  unfold fsCmdBlockHandleResult. rewrite Hreg. cbv zeta. simpl negb. cbv iota.
  simpl w_block. rewrite Hnr, Hwp, Hlt.
  rewrite Hst at 1. rewrite (switch_label_hit K FSA_Busy Hinj Hin).
  unfold fsCmdBlockRequeue. cbv zeta. simpl w_block.
  unfold not_cancelling in Hnc. rewrite Hnc. simpl.
  unfold call. simpl. rewrite <- !app_assoc, Hst. simpl.
  destruct w as [[] ? ?]. reflexivity.
Qed.

(** X12. The rows of the switch that neither translate nor requeue, on a
    registered client and for a negative status: InvalidMedia records
    the status in [lastError] and returns, so that the command gets no
    reply and the queue is not told that it has finished; DataCorrupted
    and MediaError abort the emulator; and a negative status that is no
    enumerator at all is handled with the error flags All: the client
    goes to Fatal if the error mask has any of these bits, and the raw
    status is replied otherwise. *)
Theorem handleResult_untranslated_rows
    (inv : FSFinishCmdFn -> Z -> World -> Outcome World) (w : World) :
  registered (w_client w) = true ->
  FSAStatus_distinct K ->
  fsaStatus (w_block w) < 0 ->
  let w1 := set_client (set_lastError (fsaStatus (w_block w)) (w_client w)) w in
  (fsaStatus (w_block w) = FSAStatus FSA_InvalidMedia ->
   fsCmdBlockHandleResult K inv w = Done w1) /\
  (fsaStatus (w_block w) = FSAStatus FSA_DataCorrupted \/
   fsaStatus (w_block w) = FSAStatus FSA_MediaError ->
   fsCmdBlockHandleResult K inv w = Aborted "TODO: Reverse me.") /\
  ((forall name, fsaStatus (w_block w) <> FSAStatus name) ->
   fsCmdBlockHandleResult K inv w =
   if Z.land (errorMask (w_block w)) (FSErrorFlag_value K Flag_All) =? 0
   then fsCmdBlockReplyResult inv (fsaStatus (w_block w)) (forget_if_last_dequeued w1)
   else Done (call (Call_fsmEnterState Vol_Fatal) w1)).
Proof.
  intros Hreg Hinj Hneg w1.
  assert (Hlt : (fsaStatus (w_block w) <? 0) = true) by (apply Z.ltb_lt; lia).
  assert (Hrow : forall name,
            name <> FSA_MediaNotReady -> name <> FSA_WriteProtected ->
            In name handleResult_case_labels ->
            fsaStatus (w_block w) = FSAStatus name ->
            fsCmdBlockHandleResult K inv w =
            match name with
            | FSA_InvalidMedia => Done w1
            | FSA_DataCorrupted | FSA_MediaError => Aborted "TODO: Reverse me."
            | _ => fsCmdBlockHandleResult K inv w
            end).
  { intros name Hn1 Hn2 Hin Hst.
    assert (Hnr : (fsaStatus (w_block w) =? FSAStatus FSA_MediaNotReady) = false).
    { apply Z.eqb_neq. rewrite Hst. intros Heq. apply Hinj in Heq. contradiction. }
    assert (Hwp : (fsaStatus (w_block w) =? FSAStatus FSA_WriteProtected) = false).
    { apply Z.eqb_neq. rewrite Hst. intros Heq. apply Hinj in Heq. contradiction. }
    destruct name; try reflexivity;
      unfold fsCmdBlockHandleResult; rewrite Hreg; cbv zeta; simpl negb; cbv iota;
      simpl w_block; rewrite Hnr, Hwp, Hlt; rewrite Hst at 1;
      rewrite (switch_label_hit K _ Hinj Hin); reflexivity. }
  split; [|split].
  - intros Hst. apply (Hrow FSA_InvalidMedia); [discriminate|discriminate|simpl; tauto|exact Hst].
  - intros [Hst|Hst].
    + apply (Hrow FSA_DataCorrupted); [discriminate|discriminate|simpl; tauto|exact Hst].
    + apply (Hrow FSA_MediaError); [discriminate|discriminate|simpl; tauto|exact Hst].
  - intros Hnone.
    assert (Hnr : (fsaStatus (w_block w) =? FSAStatus FSA_MediaNotReady) = false).
    { apply Z.eqb_neq. apply Hnone. }
    assert (Hwp : (fsaStatus (w_block w) =? FSAStatus FSA_WriteProtected) = false).
    { apply Z.eqb_neq. apply Hnone. }
    assert (Hlabel : switch_label K (fsaStatus (w_block w)) = None).
    { unfold switch_label. clear Hrow.
      induction handleResult_case_labels as [|l ls IH]; [reflexivity|]. simpl.
      destruct (Z.eqb_spec (fsaStatus (w_block w)) (FSAStatus l)) as [Heq|_];
        [exfalso; exact (Hnone l Heq)|exact IH]. }
    unfold fsCmdBlockHandleResult. rewrite Hreg. cbv zeta. simpl negb. cbv iota.
    simpl w_block. rewrite Hnr, Hwp, Hlt, Hlabel.
    destruct (Z.land _ _ =? 0); reflexivity.
Qed.

(** *** A block is settled at most once *)

Lemma one_outcome_pre (w w1 w' : World) (pre : list FsCall) :
  block (w_block w1) = block (w_block w) ->
  body_address (w_block w1) = body_address (w_block w) ->
  asyncData (asyncResult (w_block w1)) = asyncData (asyncResult (w_block w)) ->
  w_calls w1 = w_calls w ++ pre ->
  List.filter is_outcome pre = [] ->
  one_outcome w1 w' -> one_outcome w w'.
Proof.
  intros Hb Ha Hd Hc Hpre (Hb' & Ha' & Hd' & new & Hnew & Hcases).
  split; [congruence|]. split; [congruence|]. split; [congruence|].
  exists (pre ++ new). split; [rewrite Hnew, Hc, app_assoc; reflexivity|].
  rewrite List.filter_app, Hpre. simpl.
  unfold result_message in *. rewrite Hb, Ha, Hd in Hcases. exact Hcases.
Qed.

Lemma one_outcome_post (w w1 : World) (c : FsCall) :
  is_outcome c = false -> one_outcome w w1 -> one_outcome w (call c w1).
Proof.
  intros Hc (Hb' & Ha' & Hd' & new & Hnew & Hcases).
  split; [exact Hb'|]. split; [exact Ha'|]. split; [exact Hd'|].
  exists (new ++ [c]). split; [simpl; rewrite Hnew, app_assoc; reflexivity|].
  rewrite List.filter_app. simpl. rewrite Hc, app_nil_r. exact Hcases.
Qed.

Lemma one_outcome_silent (w w1 : World) (pre : list FsCall) :
  block (w_block w1) = block (w_block w) ->
  body_address (w_block w1) = body_address (w_block w) ->
  asyncData (asyncResult (w_block w1)) = asyncData (asyncResult (w_block w)) ->
  w_calls w1 = w_calls w ++ pre ->
  List.filter is_outcome pre = [] ->
  one_outcome w w1.
Proof.
  intros Hb Ha Hd Hc Hpre.
  split; [exact Hb|]. split; [exact Ha|]. split; [exact Hd|].
  exists pre. split; [exact Hc|]. left. exact Hpre.
Qed.

Ltac outcome_pre H pre :=
  refine (one_outcome_pre _ _ _ pre _ _ _ _ _ H);
  first [reflexivity | symmetry; apply app_nil_r].

Lemma finishCmd_one_outcome (result : Z) (w w' : World) :
  finishCmd result w = Done w' -> one_outcome w w'.
Proof.
  intros Hdone. apply finishCmd_done in Hdone. cbv zeta in Hdone.
  destruct Hdone as (_ & outputs & Hout & _ & ->).
  split; [destruct (result <? 0); reflexivity|].
  split; [destruct (result <? 0); reflexivity|].
  split; [reflexivity|].
  exists (outputs ++ [result_message (w_block w) result]). split; [reflexivity|].
  right. left. exists result.
  split; [|split; [reflexivity|destruct (result <? 0); reflexivity]].
  destruct Hout as [->|(cmd & ->)]; reflexivity.
Qed.

Section OneOutcome.

Variable inv : FSFinishCmdFn -> Z -> World -> Outcome World.
Hypothesis inv_one_outcome :
  forall fn status w w', inv fn status w = Done w' -> one_outcome w w'.

Lemma replyResult_one_outcome (status : Z) (w w' : World) :
  fsCmdBlockReplyResult inv status w = Done w' -> one_outcome w w'.
Proof using inv_one_outcome.
  unfold fsCmdBlockReplyResult. cbv zeta. intros Hdone.
  assert (Hstep : forall w2,
            one_outcome (call Call_fsCmdQueueFinishCmd w) w2 ->
            one_outcome w (call Call_fsCmdQueueProcessCmd w2)).
  { intros w2 H2. apply one_outcome_post; [reflexivity|].
    outcome_pre H2 [Call_fsCmdQueueFinishCmd]. }
  destruct (finishCmdFn (w_block (call Call_fsCmdQueueFinishCmd w))) as [fn|].
  - destruct (inv fn status _) as [w2| | |] eqn:Hinv; try discriminate.
    simpl in Hdone. injection Hdone as <-.
    apply Hstep. eapply inv_one_outcome. exact Hinv.
  - simpl in Hdone. injection Hdone as <-. apply Hstep.
    eapply one_outcome_silent with (pre := []);
      [reflexivity|reflexivity|reflexivity|symmetry; apply app_nil_r|reflexivity].
Qed.

Lemma requeue_one_outcome (front : bool) (fn : option FSFinishCmdFn) (w w' : World) :
  fsCmdBlockRequeue K inv front fn w = Done w' -> one_outcome w w'.
Proof using inv_one_outcome.
  unfold fsCmdBlockRequeue. cbv zeta.
  destruct (negb (Z.land (cancelFlags (w_block w)) Cancelling =? 0)).
  - intros Hdone. apply replyResult_one_outcome in Hdone.
    outcome_pre Hdone (@nil FsCall).
  - intros [= <-]. destruct front.
    + split; [reflexivity|]. split; [reflexivity|]. split; [reflexivity|].
      eexists. split; [unfold call; simpl; rewrite <- !app_assoc; reflexivity|].
      right. right. eexists. split; [reflexivity|].
      split; [left; reflexivity|reflexivity].
    + split; [reflexivity|]. split; [reflexivity|]. split; [reflexivity|].
      eexists. split; [unfold call; simpl; rewrite <- !app_assoc; reflexivity|].
      right. right. eexists. split; [reflexivity|].
      split; [right; reflexivity|reflexivity].
Qed.

Lemma finishRead_one_outcome (result : Z) (w w' : World) :
  fsCmdBlockFinishReadCmd K OSSendMessage inv result w = Done w' -> one_outcome w w'.
Proof using inv_one_outcome.
  unfold fsCmdBlockFinishReadCmd. cbv zeta.
  destruct (result <? 0); [apply finishCmd_one_outcome|].
  destruct (_ || _).
  - destruct (_ =? 0); [discriminate|]. intros Hdone.
    apply finishCmd_one_outcome in Hdone.
    outcome_pre Hdone (@nil FsCall).
  - intros Hdone. apply requeue_one_outcome in Hdone.
    outcome_pre Hdone (@nil FsCall).
Qed.

Lemma handleResult_one_outcome (w w' : World) :
  fsCmdBlockHandleResult K inv w = Done w' -> one_outcome w w'.
Proof using inv_one_outcome.
  unfold fsCmdBlockHandleResult. cbv zeta.
  destruct (negb (registered (w_client w))).
  { destruct (finishCmdFn (w_block w)) as [fn|].
    - apply inv_one_outcome.
    - intros [= <-]. eapply one_outcome_silent with (pre := []);
        [reflexivity|reflexivity|reflexivity|symmetry; apply app_nil_r|reflexivity]. }
  set (w1 := set_client _ w).
  assert (Hw1 : forall w2, one_outcome w1 w2 -> one_outcome w w2).
  { intros w2 H2. outcome_pre H2 (@nil FsCall). }
  assert (Hfsm : forall c, is_outcome c = false -> one_outcome w (call c w1)).
  { intros c Hc. apply one_outcome_post; [exact Hc|]. apply Hw1.
    eapply one_outcome_silent with (pre := []);
      [reflexivity|reflexivity|reflexivity|symmetry; apply app_nil_r|reflexivity]. }
  assert (Hreply : forall status,
            fsCmdBlockReplyResult inv status (forget_if_last_dequeued w1) = Done w' ->
            one_outcome w w').
  { intros status Hdone. apply replyResult_one_outcome in Hdone. apply Hw1.
    assert (Hf : w_block (forget_if_last_dequeued w1) = w_block w1 /\
                 w_calls (forget_if_last_dequeued w1) = w_calls w1).
    { unfold forget_if_last_dequeued. destruct (bool_decide _); split; reflexivity. }
    destruct Hf as (Hfb & Hfc).
    refine (one_outcome_pre _ _ _ [] _ _ _ _ _ Hdone);
      rewrite ?Hfb, ?Hfc; first [reflexivity|symmetry; apply app_nil_r]. }
  assert (Hafter : forall flags status,
            (if negb (Z.land (errorMask (w_block w)) flags =? 0)
             then Done (call (Call_fsmEnterState Vol_Fatal) w1)
             else fsCmdBlockReplyResult inv status (forget_if_last_dequeued w1)) = Done w' ->
            one_outcome w w').
  { intros flags status. destruct (negb _); [|apply Hreply].
    intros [= <-]. apply Hfsm. reflexivity. }
  destruct (_ =? _); [intros [= <-]; apply Hfsm; reflexivity|].
  destruct (_ =? _); [intros [= <-]; apply Hfsm; reflexivity|].
  destruct (_ <? 0); [|apply Hreply].
  destruct (switch_label K (fsaStatus (w_block w))) as [[]|];
    try apply Hafter; try discriminate.
  - intros Hdone. apply requeue_one_outcome in Hdone. apply Hw1. exact Hdone.
  - intros [= <-]. apply Hw1.
    eapply one_outcome_silent with (pre := []);
      [reflexivity|reflexivity|reflexivity|symmetry; apply app_nil_r|reflexivity].
Qed.

End OneOutcome.

Lemma invoke_one_outcome (fuel : nat) (fn : FSFinishCmdFn) (status : Z) (w w' : World) :
  invoke fuel fn status w = Done w' -> one_outcome w w'.
Proof.
  revert fn status w w'. induction fuel as [|fuel IH]; intros fn status w w';
    [discriminate|].
  destruct fn.
  - apply finishCmd_one_outcome.
  - change (fsCmdBlockFinishReadCmd K OSSendMessage (invoke fuel) status w = Done w' ->
            one_outcome w w').
    apply finishRead_one_outcome. exact IH.
  - intros [= <-]. apply one_outcome_post; [reflexivity|].
    eapply one_outcome_silent with (pre := []);
      [reflexivity|reflexivity|reflexivity|symmetry; apply app_nil_r|reflexivity].
Qed.

(** X13. Whenever [fsCmdBlockHandleResult] returns, whatever the block, the
    client and the FSA status were, the calls it has made settle the
    block at most once: there is at most one call among the message to
    the user and the two queue insertions.  If it is the message, it
    goes to the queue of the block's own async data and names the
    block, the async result holds the status sent and the block is
    Cancelled; if it is an insertion, it inserts this block and the
    block is QueuedCommand.  A result is never delivered twice, and a
    block that has been delivered is never put back into the queue. *)
Theorem handleResult_settles_once (fuel : nat) (w w' : World) :
  fsCmdBlockHandleResult K (invoke fuel) w = Done w' -> one_outcome w w'.
Proof.
  apply handleResult_one_outcome. intros fn status w1 w2. apply invoke_one_outcome.
Qed.

(** *** Results that are not errors *)

Lemma forget_if_last_dequeued_facts (w : World) :
  w_block (forget_if_last_dequeued w) = w_block w /\
  w_calls (forget_if_last_dequeued w) = w_calls w /\
  registered (w_client (forget_if_last_dequeued w)) = registered (w_client w) /\
  lastError (w_client (forget_if_last_dequeued w)) = lastError (w_client w) /\
  lastDequeuedCommand (w_client (forget_if_last_dequeued w)) <>
    Some (body_address (w_block w)).
Proof.
  unfold forget_if_last_dequeued.
  destruct (bool_decide_reflect
              (lastDequeuedCommand (w_client w) = Some (body_address (w_block w))));
    simpl; repeat split; try reflexivity; [discriminate|assumption].
Qed.

Lemma handleResult_nonneg (inv : FSFinishCmdFn -> Z -> World -> Outcome World) (w : World) :
  registered (w_client w) = true ->
  0 <= fsaStatus (w_block w) ->
  FSAStatus FSA_MediaNotReady < 0 -> FSAStatus FSA_WriteProtected < 0 ->
  fsCmdBlockHandleResult K inv w =
  fsCmdBlockReplyResult inv (fsaStatus (w_block w))
    (forget_if_last_dequeued
       (set_client (set_lastError (fsaStatus (w_block w)) (w_client w)) w)).
Proof.
  intros Hreg Hpos Hnr Hwp. unfold fsCmdBlockHandleResult. rewrite Hreg.
  cbv zeta. simpl negb. cbv iota. simpl w_block.
  destruct (Z.eqb_spec (fsaStatus (w_block w)) (FSAStatus FSA_MediaNotReady)); [lia|].
  destruct (Z.eqb_spec (fsaStatus (w_block w)) (FSAStatus FSA_WriteProtected)); [lia|].
  destruct (Z.ltb_spec (fsaStatus (w_block w)) 0); [lia|]. reflexivity.
Qed.

(** X14. A status that is not negative, on a registered client whose block
    is finished by [fsCmdBlockFinishCmd]: whatever the error mask of the
    block, [fsCmdBlockHandleResult] records the status in [lastError],
    tells the queue that the command has finished, runs
    [fsCmdBlockFinishCmd] with the status unchanged and starts the next
    command.  When it returns, the user's queue has received exactly
    that status, after at most one store to an output binding; no state
    machine function has been called and the block is Cancelled. *)
Theorem handleResult_success_delivered (w : World) :
  registered (w_client w) = true ->
  0 <= fsaStatus (w_block w) ->
  FSAStatus FSA_MediaNotReady < 0 -> FSAStatus FSA_WriteProtected < 0 ->
  finishCmdFn (w_block w) = Some Fn_fsCmdBlockFinishCmd ->
  let status := fsaStatus (w_block w) in
  let w1 :=
    call Call_fsCmdQueueFinishCmd
      (forget_if_last_dequeued (set_client (set_lastError status (w_client w)) w)) in
  fsCmdBlockHandleResult K (invoke 2) w =
    (w2 ← finishCmd status w1; Done (call Call_fsCmdQueueProcessCmd w2)) /\
  forall w',
    fsCmdBlockHandleResult K (invoke 2) w = Done w' ->
    (exists outputs,
       w_calls w' =
         w_calls w ++ [Call_fsCmdQueueFinishCmd] ++ outputs ++
         [result_message (w_block w) status; Call_fsCmdQueueProcessCmd] /\
       (outputs = [] \/ exists cmd, outputs = [Call_writeOutput cmd])) /\
    ar_status (asyncResult (w_block w')) = status /\
    lastError (w_client w') = status /\
    lastDequeuedCommand (w_client w') <> Some (body_address (w_block w')) /\
    blk_status (w_block w') = BlockStatus_Cancelled.
Proof.
  intros Hreg Hpos Hnr Hwp Hfn status w1.
  set (w0 := set_client (set_lastError status (w_client w)) w) in *.
  destruct (forget_if_last_dequeued_facts w0) as (Hb & Hc & _ & He & Hl).
  assert (Heq : fsCmdBlockHandleResult K (invoke 2) w =
                (w2 ← finishCmd status w1; Done (call Call_fsCmdQueueProcessCmd w2))).
  { rewrite (handleResult_nonneg _ w Hreg Hpos Hnr Hwp).
    unfold fsCmdBlockReplyResult. cbv zeta. fold status. fold w0. fold w1.
    replace (finishCmdFn (w_block w1)) with (Some Fn_fsCmdBlockFinishCmd)
      by (subst w1; simpl; rewrite Hb; symmetry; exact Hfn).
    reflexivity. }
  split; [exact Heq|]. intros w' Hdone. rewrite Heq in Hdone.
  destruct (finishCmd status w1) as [w2| | |] eqn:Hfin; try discriminate.
  simpl in Hdone. injection Hdone as <-.
  apply finishCmd_done in Hfin. cbv zeta in Hfin.
  destruct Hfin as (_ & outputs & Hout & _ & ->).
  destruct (forget_if_last_dequeued_facts w1) as (_ & _ & _ & He1 & Hl1).
  assert (Hb1 : w_block w1 = w_block w) by (subst w1; simpl; exact Hb).
  split.
  { exists outputs. split; [|exact Hout]. simpl. subst w1. simpl.
    rewrite Hc, Hb. simpl. rewrite <- !app_assoc. reflexivity. }
  split; [reflexivity|]. split.
  { simpl. rewrite He1. subst w1. simpl. rewrite He. reflexivity. }
  split.
  { simpl. replace (body_address _) with (body_address (w_block w1)); [exact Hl1|].
    destruct (status <? 0); reflexivity. }
  simpl. destruct (status <? 0); reflexivity.
Qed.

(** *** A block can be used again once it is finished *)

(** X15. A block that [fsCmdBlockFinishCmd] has finished is accepted by
    [fsCmdBlockPrepareAsync] for a new command (when the async data do
    not carry both a callback and a queue): the error mask and the
    client are stamped and [fsAsyncResultInit] is called once, its
    status returned.  A block that [fsCmdBlockRequeue] has put back into
    the queue is refused with FatalError and left as it is. *)
Theorem finished_block_reusable
    (fsAsyncResultInit : Z -> FSAsyncResult -> FSAsyncData -> Z * FSAsyncResult)
    (client mask : Z) (data : FSAsyncData) (calls : list FsCall) (w w' : World) :
  ~ (is_Some (userCallback data) /\ is_Some (ioMsgQueue data)) ->
  (forall result,
     finishCmd result w = Done w' ->
     exists status body,
       fsCmdBlockPrepareAsync K fsAsyncResultInit (Some client) (Some (w_block w'))
         mask data calls =
       Done (status, body, calls ++ [Call_fsAsyncResultInit client]) /\
       errorMask body = mask /\ clientBody body = Some client /\
       (status, asyncResult body) =
         fsAsyncResultInit client (asyncResult (w_block w')) data) /\
  (forall inv front fn,
     not_cancelling K w ->
     fsCmdBlockRequeue K inv front fn w = Done w' ->
     fsCmdBlockPrepareAsync K fsAsyncResultInit (Some client) (Some (w_block w'))
       mask data calls =
     Done (FSStatus FS_FatalError, w_block w', calls)).
Proof.
  intros Hexcl. split.
  - intros result Hdone. apply finishCmd_done in Hdone. cbv zeta in Hdone.
    destruct Hdone as (_ & outputs & _ & _ & ->).
    unfold fsCmdBlockPrepareAsync. simpl w_block.
    assert (Hst : forall b, blk_status (set_asyncResult b
                    (if result <? 0
                     then set_blk_status BlockStatus_Cancelled
                            (set_cancelFlags (Z.ldiff (cancelFlags (w_block w)) Cancelling)
                               (w_block w))
                     else clear_unk (set_blk_status BlockStatus_Cancelled
                            (set_cancelFlags (Z.ldiff (cancelFlags (w_block w)) Cancelling)
                               (w_block w))))) = BlockStatus_Cancelled).
    { intros b. destruct (result <? 0); reflexivity. }
    rewrite Hst. simpl andb at 1. cbv iota.
    destruct (bool_decide_reflect (is_Some (userCallback data)));
      destruct (bool_decide_reflect (is_Some (ioMsgQueue data)));
      try (exfalso; apply Hexcl; split; assumption); simpl andb; cbv iota;
      (destruct (fsAsyncResultInit client _ data) as [status res] eqn:Hinit;
       eexists _, _; split; [reflexivity|];
       split; [reflexivity|]; split; [reflexivity|];
       simpl; rewrite <- Hinit; f_equal).
  - intros inv front fn Hnc. unfold fsCmdBlockRequeue. cbv zeta.
    unfold not_cancelling in Hnc. rewrite Hnc. simpl negb. cbv iota.
    intros [= <-]. destruct front; reflexivity.
Qed.

(** *** A chunked read, from the first reply to the last *)

Lemma finishRead_continue (inv : FSFinishCmdFn -> Z -> World -> Outcome World)
    (n : Z) (w : World) :
  0 <= n < 2 ^ 31 -> not_cancelling K w ->
  bytesRemaining (read_progress n (readFile (w_block w))) <> 0 ->
  readSize (readFile (w_block w)) <= n ->
  fsCmdBlockFinishReadCmd K OSSendMessage inv n w =
  Done (mkWorld
          (set_blk_status BlockStatus_QueuedCommand
             (set_finishCmdFn (Some Fn_fsCmdBlockFinishReadCmd)
                (w_block (read_continuation K n
                            (read_progress n (readFile (w_block w))) w))))
          (w_client w)
          (w_calls w ++ [Call_fsCmdQueueFinishCmd;
                         Call_fsCmdQueueEnqueue (body_address (w_block w)) true;
                         Call_fsCmdQueueProcessCmd])).
Proof.
  intros Hn Hnc Hrem Hfull. unfold fsCmdBlockFinishReadCmd.
  rewrite (uint32_small n) by lia.
  destruct (Z.ltb_spec n 0); [lia|]. cbv zeta.
  set (rs1 := read_progress n (readFile (w_block w))) in *.
  destruct (Z.eqb_spec (bytesRemaining rs1) 0); [contradiction|].
  destruct (Z.ltb_spec n (readSize rs1)); [simpl in *; lia|].
  simpl orb. cbv iota. unfold fsCmdBlockRequeue. cbv zeta.
  change (cancelFlags (w_block (read_continuation K n rs1 w)))
    with (cancelFlags (w_block w)).
  unfold not_cancelling in Hnc. rewrite Hnc. simpl negb. cbv iota.
  unfold call. simpl. rewrite <- !app_assoc. reflexivity.
Qed.

Lemma finishRead_complete (inv : FSFinishCmdFn -> Z -> World -> Outcome World)
    (n : Z) (w : World) :
  0 <= n < 2 ^ 31 -> 0 < chunkSize (readFile (w_block w)) ->
  bytesRemaining (read_progress n (readFile (w_block w))) = 0 ->
  fsCmdBlockFinishReadCmd K OSSendMessage inv n w =
  finishCmd
    (int32 (bytesRead (read_progress n (readFile (w_block w))) /
            chunkSize (readFile (w_block w))))
    (set_block (set_readFile (read_progress n (readFile (w_block w))) (w_block w)) w).
Proof.
  intros Hn Hc Hrem. unfold fsCmdBlockFinishReadCmd.
  rewrite (uint32_small n) by lia.
  destruct (Z.ltb_spec n 0); [lia|]. cbv zeta.
  set (rs1 := read_progress n (readFile (w_block w))) in *.
  rewrite Hrem. simpl orb. cbv iota.
  destruct (Z.eqb_spec (chunkSize rs1) 0); [simpl in *; lia|]. reflexivity.
Qed.

Lemma finishCmd_readFile (result : Z) (w : World) :
  0 <= result ->
  shim_command (fsaShimBuffer (w_block w)) = FSACmd_ReadFile ->
  OSSendMessage (queue_of w) = true ->
  finishCmd result w =
  Done (mkWorld
          (set_asyncResult
             (mkAsyncResult (asyncData (asyncResult (w_block w))) (block (w_block w)) result)
             (clear_unk
                (set_blk_status BlockStatus_Cancelled
                   (set_cancelFlags (Z.ldiff (cancelFlags (w_block w)) Cancelling)
                      (w_block w)))))
          (w_client (forget_if_last_dequeued w))
          (w_calls w ++ [result_message (w_block w) result])).
Proof.
  intros Hpos Hcmd Hq. unfold fsCmdBlockFinishCmd. cbv zeta.
  destruct (Z.ltb_spec result 0); [lia|].
  unfold forget_if_last_dequeued. simpl.
  destruct (bool_decide _); simpl; rewrite Hcmd;
    unfold fsCmdBlockSetResult; simpl; rewrite Hq; reflexivity.
Qed.

Local Abbreviation M := (FSMaxBytesPerRequest K).
Local Abbreviation reading := (reading K OSSendMessage).
Local Abbreviation handle_replies := (handle_replies K OSSendMessage).
Local Abbreviation buffer_of w := (rq_buffer (request_readFile (fsaShimBuffer (w_block w)))).

(** The world in which the finish function of a reply runs. *)
Lemma reply_world (n : Z) (w : World) (b r : Z) :
  reading w b r ->
  0 <= n -> FSAStatus FSA_MediaNotReady < 0 -> FSAStatus FSA_WriteProtected < 0 ->
  exists wq,
    fsCmdBlockHandleResult K (invoke 2) (set_block (set_fsaStatus n (w_block w)) w) =
      (w2 ← fsCmdBlockFinishReadCmd K OSSendMessage (invoke 1) n wq;
       Done (call Call_fsCmdQueueProcessCmd w2)) /\
    w_block wq = set_fsaStatus n (w_block w) /\
    w_calls wq = w_calls w ++ [Call_fsCmdQueueFinishCmd] /\
    registered (w_client wq) = true.
Proof.
  intros (Hreg & Hfn & _) Hn Hnr Hwp.
  set (wn := set_block (set_fsaStatus n (w_block w)) w).
  set (w0 := set_client (set_lastError n (w_client wn)) wn).
  destruct (forget_if_last_dequeued_facts w0) as (Hb & Hc & Hr & _).
  exists (call Call_fsCmdQueueFinishCmd (forget_if_last_dequeued w0)).
  split; [|split; [exact Hb|split; [simpl; rewrite Hc; reflexivity|]]].
  - rewrite (handleResult_nonneg _ wn Hreg Hn Hnr Hwp).
    unfold fsCmdBlockReplyResult. cbv zeta.
    change (set_client (set_lastError (fsaStatus (w_block wn)) (w_client wn)) wn) with w0.
    replace (finishCmdFn (w_block (call Call_fsCmdQueueFinishCmd (forget_if_last_dequeued w0))))
      with (Some Fn_fsCmdBlockFinishReadCmd)
      by (simpl; rewrite Hb; symmetry; exact Hfn).
    reflexivity.
  - simpl. rewrite Hr. exact Hreg.
Qed.

Lemma read_round_continue (w : World) (b r : Z) :
  reading w b r ->
  FSAStatus FSA_MediaNotReady < 0 -> FSAStatus FSA_WriteProtected < 0 ->
  0 < M < r -> 0 <= b -> b + r < 2 ^ 31 ->
  exists w1,
    fsCmdBlockHandleResult K (invoke 2) (set_block (set_fsaStatus M (w_block w)) w) =
      Done w1 /\
    reading w1 (b + M) (r - M) /\
    chunkSize (readFile (w_block w1)) = chunkSize (readFile (w_block w)) /\
    block (w_block w1) = block (w_block w) /\
    body_address (w_block w1) = body_address (w_block w) /\
    asyncData (asyncResult (w_block w1)) = asyncData (asyncResult (w_block w)) /\
    w_calls w1 = w_calls w ++ continuation_calls (body_address (w_block w)) /\
    buffer_of w1 = uint32 (buffer_of w + M).
Proof.
  intros Hreading Hnr Hwp HM Hb Hsum.
  destruct (reply_world M w b r Hreading ltac:(lia) Hnr Hwp)
    as (wq & Heq & Hbq & Hcq & Hrq).
  destruct Hreading as (Hreg & Hfn & Hcmd & Hnc & Hq & Hread & Hrem & Hsize).
  rewrite Heq.
  assert (Hrs : readFile (w_block wq) = readFile (w_block w)) by (rewrite Hbq; reflexivity).
  rewrite (finishRead_continue (invoke 1) M wq).
  - simpl. eexists. split; [reflexivity|]. simpl. rewrite Hbq, Hcq. simpl.
    rewrite Hread, Hrem.
    assert (H1 : uint32 (b + M) = b + M) by (apply uint32_small; lia).
    assert (H2 : uint32 (r - M) = r - M) by (apply uint32_small; lia).
    rewrite H1, H2.
    split.
    { split; [exact Hrq|]. split; [reflexivity|]. split; [exact Hcmd|].
      split; [exact Hnc|]. split; [exact Hq|]. split; [reflexivity|].
      split; [reflexivity|].
      simpl. destruct (Z.ltb_spec M (r - M)); lia. }
    split; [reflexivity|]. split; [reflexivity|]. split; [reflexivity|].
    split; [reflexivity|].
    split; [rewrite <- !app_assoc; reflexivity|reflexivity].
  - lia.
  - unfold not_cancelling. rewrite Hbq. exact Hnc.
  - rewrite Hrs. simpl. rewrite Hrem, uint32_small by lia. lia.
  - rewrite Hrs, Hsize. lia.
Qed.

Lemma read_round_final (w : World) (b r : Z) :
  reading w b r ->
  FSAStatus FSA_MediaNotReady < 0 -> FSAStatus FSA_WriteProtected < 0 ->
  0 < r <= M -> 0 <= b -> b + r < 2 ^ 31 ->
  0 < chunkSize (readFile (w_block w)) ->
  exists w1,
    fsCmdBlockHandleResult K (invoke 2) (set_block (set_fsaStatus r (w_block w)) w) =
      Done w1 /\
    bytesRead (readFile (w_block w1)) = b + r /\
    bytesRemaining (readFile (w_block w1)) = 0 /\
    ar_status (asyncResult (w_block w1)) = (b + r) / chunkSize (readFile (w_block w)) /\
    blk_status (w_block w1) = BlockStatus_Cancelled /\
    w_calls w1 =
      w_calls w ++
      [Call_fsCmdQueueFinishCmd;
       result_message (w_block w) ((b + r) / chunkSize (readFile (w_block w)));
       Call_fsCmdQueueProcessCmd] /\
    buffer_of w1 = buffer_of w.
Proof.
  intros Hreading Hnr Hwp Hr Hb Hsum Hchunk.
  destruct (reply_world r w b r Hreading ltac:(lia) Hnr Hwp)
    as (wq & Heq & Hbq & Hcq & Hrq).
  destruct Hreading as (Hreg & Hfn & Hcmd & Hnc & Hq & Hread & Hrem & Hsize).
  rewrite Heq.
  assert (Hrs : readFile (w_block wq) = readFile (w_block w)) by (rewrite Hbq; reflexivity).
  assert (H1 : uint32 (b + r) = b + r) by (apply uint32_small; lia).
  assert (H2 : uint32 (r - r) = 0) by (rewrite Z.sub_diag; reflexivity).
  assert (Hdiv : 0 <= (b + r) / chunkSize (readFile (w_block w)) < 2 ^ 31).
  { split; [apply Z.div_pos; lia|].
    apply Z.div_lt_upper_bound; [exact Hchunk|]. nia. }
  rewrite (finishRead_complete (invoke 1) r wq);
    [|lia|rewrite Hrs; exact Hchunk|rewrite Hrs; simpl; rewrite Hrem; exact H2].
  rewrite Hrs. simpl bytesRead. rewrite Hread, H1.
  rewrite (int32_small ((b + r) / chunkSize (readFile (w_block w)))) by lia.
  rewrite finishCmd_readFile;
    [|lia|simpl; rewrite Hbq; exact Hcmd|simpl; rewrite Hbq; exact Hq].
  simpl. eexists. split; [reflexivity|]. simpl. rewrite Hbq, Hcq. simpl.
  rewrite Hread, Hrem, H1, H2.
  split; [reflexivity|]. split; [reflexivity|]. split; [reflexivity|].
  split; [reflexivity|].
  split; [unfold result_message; simpl; rewrite <- !app_assoc; reflexivity|reflexivity].
Qed.

Lemma handle_replies_cons (n : Z) (rest : list Z) (w : World) :
  handle_replies (n :: rest) w =
  (w' ← fsCmdBlockHandleResult K (invoke 2) (set_block (set_fsaStatus n (w_block w)) w);
   handle_replies rest w').
Proof. reflexivity. Qed.

Lemma read_rounds (k : nat) : forall (last : Z) (w : World) (b : Z),
  reading w b (Z.of_nat k * M + last) ->
  FSAStatus FSA_MediaNotReady < 0 -> FSAStatus FSA_WriteProtected < 0 ->
  0 < M -> 0 < last <= M -> 0 <= b -> b + Z.of_nat k * M + last < 2 ^ 31 ->
  0 < chunkSize (readFile (w_block w)) ->
  0 <= buffer_of w < 2 ^ 32 ->
  exists w',
    handle_replies (replicate k M ++ [last]) w = Done w' /\
    bytesRead (readFile (w_block w')) = b + Z.of_nat k * M + last /\
    bytesRemaining (readFile (w_block w')) = 0 /\
    ar_status (asyncResult (w_block w')) =
      (b + Z.of_nat k * M + last) / chunkSize (readFile (w_block w)) /\
    blk_status (w_block w') = BlockStatus_Cancelled /\
    w_calls w' =
      w_calls w ++
      concat (replicate k (continuation_calls (body_address (w_block w)))) ++
      [Call_fsCmdQueueFinishCmd;
       result_message (w_block w)
         ((b + Z.of_nat k * M + last) / chunkSize (readFile (w_block w)));
       Call_fsCmdQueueProcessCmd] /\
    buffer_of w' = uint32 (buffer_of w + Z.of_nat k * M).
Proof.
  induction k as [|k IH]; intros last w b Hreading Hnr Hwp HM Hlast Hb Hsum Hchunk Hbuf.
  - change (Z.of_nat 0 * M + last) with last in Hreading.
    destruct (read_round_final w b last Hreading Hnr Hwp Hlast Hb ltac:(lia) Hchunk)
      as (w1 & Hrun & H1 & H2 & H3 & H4 & H5 & H6).
    exists w1. change (replicate 0 M ++ [last]) with [last].
    rewrite handle_replies_cons, Hrun.
    replace (b + Z.of_nat 0 * M + last) with (b + last) by lia.
    split; [reflexivity|]. split; [exact H1|]. split; [exact H2|].
    split; [exact H3|]. split; [exact H4|]. split; [exact H5|].
    rewrite H6, Z.add_0_r. symmetry. apply uint32_small. exact Hbuf.
  - assert (Hr : Z.of_nat (S k) * M + last - M = Z.of_nat k * M + last) by lia.
    destruct (read_round_continue w b _ Hreading Hnr Hwp ltac:(nia) Hb ltac:(lia))
      as (w1 & Hrun & Hreading1 & Hc1 & Hblock1 & Haddr1 & Hdata1 & Hcalls1 & Hbuf1).
    rewrite Hr in Hreading1.
    destruct (IH last w1 (b + M) Hreading1 Hnr Hwp HM Hlast ltac:(lia) ltac:(lia)
                ltac:(rewrite Hc1; exact Hchunk)
                ltac:(rewrite Hbuf1; apply uint32_range))
      as (w' & Hrest & H1 & H2 & H3 & H4 & H5 & H6).
    exists w'. split.
    { change (replicate (S k) M ++ [last]) with (M :: (replicate k M ++ [last])).
      rewrite handle_replies_cons, Hrun. exact Hrest. }
    replace (b + Z.of_nat (S k) * M + last) with (b + M + Z.of_nat k * M + last) by lia.
    rewrite Hc1 in H3.
    split; [exact H1|]. split; [exact H2|]. split; [exact H3|]. split; [exact H4|].
    split.
    { rewrite H5, Hcalls1, Haddr1, Hc1. unfold result_message.
      rewrite Hblock1, Hdata1. simpl concat. rewrite <- !app_assoc. reflexivity. }
    rewrite H6, Hbuf1. unfold uint32. rewrite Zplus_mod_idemp_l. f_equal. lia.
Qed.

(** X16. A read of [total] bytes whose every request is answered in full.
    With [M] bytes per request at most, the FSA device answers [k]
    requests with [M] bytes and the last one with the [last] bytes that
    are left ([total = k * M + last], [0 < last <= M]).  Handling these
    replies one after the other returns; each of the first [k] rounds
    requeues the block through [fsCmdQueueEnqueue] and sends nothing to
    the user; the last round sends one message, whose status is
    [total / chunkSize], the number of chunks read.  At the end all
    [total] bytes are accounted for, nothing remains, the block is
    Cancelled, and the buffer pointer of the request has advanced by the
    [k * M] bytes of the rounds before the last. *)
Theorem chunked_read_completes (k : nat) (last : Z) (w : World) :
  let total := Z.of_nat k * M + last in
  let chunk := chunkSize (readFile (w_block w)) in
  reading w 0 total ->
  FSAStatus FSA_MediaNotReady < 0 -> FSAStatus FSA_WriteProtected < 0 ->
  0 < M -> 0 < last <= M -> total < 2 ^ 31 -> 0 < chunk ->
  0 <= buffer_of w < 2 ^ 32 ->
  exists w',
    handle_replies (replicate k M ++ [last]) w = Done w' /\
    bytesRead (readFile (w_block w')) = total /\
    bytesRemaining (readFile (w_block w')) = 0 /\
    ar_status (asyncResult (w_block w')) = total / chunk /\
    blk_status (w_block w') = BlockStatus_Cancelled /\
    w_calls w' =
      w_calls w ++
      concat (replicate k (continuation_calls (body_address (w_block w)))) ++
      [Call_fsCmdQueueFinishCmd;
       result_message (w_block w) (total / chunk);
       Call_fsCmdQueueProcessCmd] /\
    buffer_of w' = uint32 (buffer_of w + Z.of_nat k * M).
Proof.
  intros total chunk Hreading Hnr Hwp HM Hlast Htotal Hchunk Hbuf.
  destruct (read_rounds k last w 0 Hreading Hnr Hwp HM Hlast ltac:(lia)
              ltac:(subst total; lia) Hchunk Hbuf)
    as (w' & Hrun & H1 & H2 & H3 & H4 & H5 & H6).
  exists w'. split; [exact Hrun|]. subst total chunk.
  rewrite Z.add_0_l in H1, H3, H5.
  split; [exact H1|]. split; [exact H2|]. split; [exact H3|]. split; [exact H4|].
  split; [exact H5|exact H6].
Qed.

End DeliveryFacts.

(** ** Processing the responses of the kernel *)

Section ResponseFacts.

Variable N : nat.
Hypothesis N_pos : (0 < N)%nat.
Hypothesis N_int32 : Z.of_nat N < 2 ^ 31.

Variable mem : BufferPtr -> IPCBuffer.

Local Abbreviation process := (processResponse N mem).

Lemma driver_inv_ext (d d' : IPCDriver) :
  freeFifo d' = freeFifo d -> requests d' = requests d ->
  driver_inv N d -> driver_inv N d'.
Proof. unfold driver_inv. intros -> ->. tauto. Qed.

(** One iteration of the loop, on a response that is the buffer of a
    request of the driver. *)
Lemma processResponse_step (i index : nat) (d : IPCDriver) (calls : list IpcCall)
    (request : IPCDriverRequest) :
  length (requests d) = N ->
  responses d !! i = Some (Some (ipcBuffers d + Z.of_nat index)) ->
  requests d !! index = Some request ->
  ipcBuffer request = Some (ipcBuffers d + Z.of_nat index) ->
  let d1 :=
    match asyncCallback request with
    | None => d
    | Some _ => snd (ipcDriverFreeRequest N d index)
    end in
  let c :=
    match asyncCallback request with
    | None => Call_OSSignalEvent index
    | Some fn =>
        Call_asyncCallback fn (buf_reply (mem (ipcBuffers d + Z.of_nat index)))
          (asyncContext request)
    end in
  process i (d, calls) =
  Done (set_responses (<[i := None]> (responses d1))
          (set_requestsProcessed (uint32 (requestsProcessed d1 + 1)) d1),
        calls ++ [c]).
Proof.
  clear N_pos N_int32.
  intros Hlen Hresp Hreq Hbuf. cbv zeta. unfold processResponse. rewrite Hresp.
  replace (ipcBuffers d + Z.of_nat index - ipcBuffers d) with (Z.of_nat index) by lia.
  assert (Hlt : (index < N)%nat) by (apply lookup_lt_Some in Hreq; lia).
  unfold decaf_check.
  destruct (Z.leb_spec 0 (Z.of_nat index)); [|lia].
  destruct (Z.leb_spec (Z.of_nat index) (Z.of_nat N)); [|lia].
  destruct (Z.ltb_spec (Z.of_nat index) (Z.of_nat N)); [|lia].
  simpl. rewrite Nat2Z.id, Hreq.
  rewrite bool_decide_eq_true_2 by exact Hbuf. simpl.
  destruct (asyncCallback request); reflexivity.
Qed.

Lemma process_loop (d : IPCDriver) :
  driver_inv N d -> responses_valid d -> 0 <= requestsProcessed d < 2 ^ 32 ->
  forall k, (k <= numResponses d)%nat ->
  exists dk ck,
    fold_left (fun acc i => acc ≫= process i) (seq 0 k) (Done (d, [])) = Done (dk, ck) /\
    ipcBuffers dk = ipcBuffers d /\
    (forall j, (k <= j)%nat -> responses dk !! j = responses d !! j) /\
    (forall j, (j < k)%nat -> responses dk !! j = Some None) /\
    requestsProcessed dk = uint32 (requestsProcessed d + Z.of_nat k) /\
    failedFreeRequestBlock dk = failedFreeRequestBlock d /\
    driver_inv N dk /\
    (forall index request,
       requests d !! index = Some request ->
       exists request',
         requests dk !! index = Some request' /\
         unk0x04 request' = unk0x04 request /\
         asyncCallback request' = asyncCallback request /\
         asyncContext request' = asyncContext request /\
         ipcBuffer request' = ipcBuffer request /\
         (allocated request' = false <->
          allocated request = false \/
          (is_Some (asyncCallback request) /\
           exists i, (i < k)%nat /\
             responses d !! i = Some (Some (ipcBuffers d + Z.of_nat index))))) /\
    length ck = k /\
    (forall i buffer, (i < k)%nat -> responses d !! i = Some (Some buffer) ->
       ck !! i = response_call mem d buffer).
Proof using N_pos N_int32.
  intros Hinv (Hvalid & Hdistinct) Hrange k. induction k as [|k IH]; intros Hk.
  - exists d, []. split; [reflexivity|]. split; [reflexivity|].
    split; [reflexivity|]. split; [intros j Hj; lia|].
    split; [rewrite Z.add_0_r; symmetry; apply uint32_small; exact Hrange|].
    split; [reflexivity|]. split; [exact Hinv|]. split.
    { intros index request Hreq. exists request.
      split; [exact Hreq|]. split; [reflexivity|]. split; [reflexivity|].
      split; [reflexivity|]. split; [reflexivity|]. split.
      - intros Hf. left. exact Hf.
      - intros [Hf|(_ & i & Hi & _)]; [exact Hf|lia]. }
    split; [reflexivity|]. intros i buffer Hi. lia.
  - destruct IH as (dk & ck & Hrun & Hbase & Hlater & Hearlier & Hproc & Hfail &
                    Hinvk & Hreqs & Hlen & Hcalls); [lia|].
    destruct (Hvalid k ltac:(lia)) as (index & request & Hresp & Hreq & Hbuf & Halloc).
    destruct (Hreqs index request Hreq)
      as (request' & Hreq' & Hunk & Hcb & Hctx & Hbuf' & Hflag).
    assert (Hlenk : length (requests dk) = N) by (destruct Hinvk as (_ & _ & H & _); exact H).
    assert (Hrespk : responses dk !! k = Some (Some (ipcBuffers dk + Z.of_nat index))).
    { rewrite Hlater, Hbase by lia. exact Hresp. }
    assert (Hklen : (k < length (responses dk))%nat) by (eapply lookup_lt_Some; exact Hrespk).
    assert (Hallock : allocated request' = true).
    { apply not_false_is_true. intros Ha.
      apply Hflag in Ha. destruct Ha as [Ha|(_ & i & Hi & Hri)]; [congruence|].
      rewrite <- Hresp in Hri. apply Hdistinct in Hri; lia. }
    assert (Hindex : forall index',
              ipcBuffers d + Z.of_nat index' = ipcBuffers d + Z.of_nat index ->
              index' = index) by (intros; lia).
    pose proof (processResponse_step k index dk ck request' Hlenk Hrespk Hreq'
                  ltac:(rewrite Hbuf', Hbase; exact Hbuf)) as Hstep.
    cbv zeta in Hstep. rewrite Hcb, Hctx, Hbase in Hstep.
    rewrite seq_S, fold_left_app. simpl fold_left. rewrite Hrun.
    change (Done (dk, ck) ≫= process k) with (process k (dk, ck)).
    rewrite Hstep. clear Hstep.
    assert (Hcall : forall c,
              Some c = response_call mem d (ipcBuffers d + Z.of_nat index) ->
              length (ck ++ [c]) = S k /\
              (forall i buffer, (i < S k)%nat -> responses d !! i = Some (Some buffer) ->
                 (ck ++ [c]) !! i = response_call mem d buffer)).
    { intros c Hc. split; [rewrite length_app; simpl; lia|].
      intros i buffer Hi Hri. destruct (decide (i = k)) as [->|Hne].
      - rewrite Hresp in Hri. injection Hri as <-.
        rewrite lookup_app_r by lia. rewrite Hlen, Nat.sub_diag. simpl. exact Hc.
      - rewrite lookup_app_l by lia. apply Hcalls; [lia|exact Hri]. }
    assert (Hrc : response_call mem d (ipcBuffers d + Z.of_nat index) =
                  Some (match asyncCallback request with
                        | None => Call_OSSignalEvent index
                        | Some fn =>
                            Call_asyncCallback fn
                              (buf_reply (mem (ipcBuffers d + Z.of_nat index)))
                              (asyncContext request)
                        end)).
    { unfold response_call.
      replace (ipcBuffers d + Z.of_nat index - ipcBuffers d) with (Z.of_nat index) by lia.
      rewrite Nat2Z.id, Hreq. reflexivity. }
    assert (Hproc' : uint32 (uint32 (requestsProcessed d + Z.of_nat k) + 1) =
                     uint32 (requestsProcessed d + Z.of_nat (S k))).
    { unfold uint32. rewrite Zplus_mod_idemp_l. f_equal. lia. }
    destruct (asyncCallback request) as [fn|] eqn:Hasync.
    + destruct (driver_inv_free N N_pos N_int32 dk index request' Hinvk Hreq' Hallock)
        as (_ & Hfree & _ & Hinv1).
      cbv zeta in Hfree, Hinv1.
      set (d1 := snd (ipcDriverFreeRequest N dk index)) in *.
      assert (Hreq1 : requests d1 = alter (set_allocated false) index (requests dk))
        by (rewrite Hfree; reflexivity).
      assert (Hresp1 : responses d1 = responses dk) by (rewrite Hfree; reflexivity).
      eexists _, _. split; [reflexivity|].
      split; [simpl; rewrite Hfree; simpl; exact Hbase|].
      split.
      { intros j Hj. simpl. rewrite Hresp1.
        rewrite list_lookup_insert_ne by lia. apply Hlater. lia. }
      split.
      { intros j Hj. simpl. rewrite Hresp1. destruct (decide (j = k)) as [->|Hne].
        - apply list_lookup_insert_eq. exact Hklen.
        - rewrite list_lookup_insert_ne by lia. apply Hearlier. lia. }
      split.
      { simpl. rewrite Hfree. simpl. rewrite Hproc. exact Hproc'. }
      split; [simpl; rewrite Hfree; simpl; exact Hfail|].
      split; [eapply driver_inv_ext; [| |exact Hinv1]; reflexivity|].
      split.
      { intros index' request0 Hreq0. simpl requests. rewrite Hreq1.
        destruct (Hreqs index' request0 Hreq0)
          as (request0' & Hreq0' & Hunk0 & Hcb0 & Hctx0 & Hbuf0 & Hflag0).
        destruct (decide (index' = index)) as [->|Hne].
        - exists (set_allocated false request0').
          rewrite list_lookup_alter_eq, Hreq0'.
          split; [reflexivity|]. split; [exact Hunk0|]. split; [exact Hcb0|].
          split; [exact Hctx0|]. split; [exact Hbuf0|].
          split; [|reflexivity]. intros _. right.
          rewrite Hreq in Hreq0. injection Hreq0 as <-.
          split; [rewrite Hasync; eexists; reflexivity|].
          exists k. split; [lia|exact Hresp].
        - exists request0'. rewrite list_lookup_alter_ne by congruence.
          split; [exact Hreq0'|]. split; [exact Hunk0|]. split; [exact Hcb0|].
          split; [exact Hctx0|]. split; [exact Hbuf0|].
          rewrite Hflag0. split.
          + intros [Hf|(Hs & i & Hi & Hri)]; [left; exact Hf|].
            right. split; [exact Hs|]. exists i. split; [lia|exact Hri].
          + intros [Hf|(Hs & i & Hi & Hri)]; [left; exact Hf|].
            right. split; [exact Hs|]. exists i. split; [|exact Hri].
            destruct (decide (i = k)) as [->|Hik]; [|lia].
            rewrite Hresp in Hri. injection Hri as Hri. symmetry in Hri.
            apply Hindex in Hri. congruence. }
      apply Hcall. rewrite Hrc. reflexivity.
    + eexists _, _. split; [reflexivity|].
      split; [exact Hbase|].
      split.
      { intros j Hj. simpl. rewrite list_lookup_insert_ne by lia. apply Hlater. lia. }
      split.
      { intros j Hj. simpl. destruct (decide (j = k)) as [->|Hne].
        - apply list_lookup_insert_eq. exact Hklen.
        - rewrite list_lookup_insert_ne by lia. apply Hearlier. lia. }
      split; [simpl; rewrite Hproc; exact Hproc'|].
      split; [exact Hfail|].
      split; [eapply driver_inv_ext; [| |exact Hinvk]; reflexivity|].
      split.
      { intros index' request0 Hreq0. simpl requests.
        destruct (Hreqs index' request0 Hreq0)
          as (request0' & Hreq0' & Hunk0 & Hcb0 & Hctx0 & Hbuf0 & Hflag0).
        exists request0'.
        split; [exact Hreq0'|]. split; [exact Hunk0|]. split; [exact Hcb0|].
        split; [exact Hctx0|]. split; [exact Hbuf0|].
        rewrite Hflag0. split.
        + intros [Hf|(Hs & i & Hi & Hri)]; [left; exact Hf|].
          right. split; [exact Hs|]. exists i. split; [lia|exact Hri].
        + intros [Hf|(Hs & i & Hi & Hri)]; [left; exact Hf|].
          right. split; [exact Hs|]. exists i. split; [|exact Hri].
          destruct (decide (i = k)) as [->|Hik]; [|lia].
          rewrite Hresp in Hri. injection Hri as Hri. symmetry in Hri.
          apply Hindex in Hri.
          subst index'. rewrite Hreq in Hreq0. injection Hreq0 as <-.
          rewrite Hasync in Hs. destruct Hs as [? Hs]. discriminate Hs. }
      apply Hcall. rewrite Hrc. reflexivity.
Qed.

(** X6. Processing the responses that the kernel hands over, on a driver
    that satisfies [driver_inv]: no check fails and the function
    returns.  It has made one call per response, in the order of the
    responses: the finish event of the request is signalled when the
    request has no callback, and the callback is called with the reply
    and the context when it has one.  Every request answered through
    its callback has been freed (no free has failed), the other requests
    are as they were, [driver_inv] holds again, the response slots are
    null, [requestsProcessed] has advanced by the number of responses
    and [numResponses] is 0. *)
Theorem ipcDriverProcessResponses_valid (d : IPCDriver) :
  driver_inv N d -> responses_valid d -> 0 <= requestsProcessed d < 2 ^ 32 ->
  exists d' calls,
    ipcDriverProcessResponses N mem d = Done (d', calls) /\
    numResponses d' = 0%nat /\
    requestsProcessed d' = uint32 (requestsProcessed d + Z.of_nat (numResponses d)) /\
    failedFreeRequestBlock d' = failedFreeRequestBlock d /\
    (forall i, (i < numResponses d)%nat -> responses d' !! i = Some None) /\
    length calls = numResponses d /\
    (forall i buffer, (i < numResponses d)%nat -> responses d !! i = Some (Some buffer) ->
       calls !! i = response_call mem d buffer) /\
    (forall index request,
       requests d !! index = Some request ->
       exists request',
         requests d' !! index = Some request' /\
         unk0x04 request' = unk0x04 request /\
         asyncCallback request' = asyncCallback request /\
         asyncContext request' = asyncContext request /\
         ipcBuffer request' = ipcBuffer request /\
         (allocated request' = false <->
          allocated request = false \/
          (is_Some (asyncCallback request) /\
           exists i, (i < numResponses d)%nat /\
             responses d !! i = Some (Some (ipcBuffers d + Z.of_nat index))))) /\
    driver_inv N d'.
Proof using N_pos N_int32.
  intros Hinv Hvalid Hrange.
  destruct (process_loop d Hinv Hvalid Hrange (numResponses d) (le_n _))
    as (dk & ck & Hrun & Hbase & Hlater & Hearlier & Hproc & Hfail &
        Hinvk & Hreqs & Hlen & Hcalls).
  exists (set_numResponses 0 dk), ck. split.
  { unfold ipcDriverProcessResponses. rewrite Hrun. reflexivity. }
  split; [reflexivity|]. split; [exact Hproc|]. split; [exact Hfail|].
  split; [exact Hearlier|]. split; [exact Hlen|]. split; [exact Hcalls|].
  split; [exact Hreqs|].
  eapply driver_inv_ext; [| |exact Hinvk]; reflexivity.
Qed.

End ResponseFacts.

(** ** The further properties on concrete inputs *)

(** On a FIFO of capacity 4 after two pushes, a pop and a push, which
    holds the requests 1 and 2. *)
Lemma fifo_is_queue_witness :
  let f := fifo_run 4 (mkFIFO 7 7 7 7 [None; None; None; None])
             [OpPush 0; OpPush 1; OpPop; OpPush 2]%nat in
  fifo_contents 4 f = [Some 1; Some 2]%nat /\
  fifo_contents 4 (snd (ipcDriverFifoPush 4 f 3)) = [Some 1; Some 2; Some 3]%nat /\
  exists rest,
    ipcDriverFifoPop 4 f = (IOS_OK, snd (fst (ipcDriverFifoPop 4 f)), Some (Some 1%nat)) /\
    fifo_contents 4 (snd (fst (ipcDriverFifoPop 4 f))) = rest.
Proof.
  cbv zeta.
  destruct (fifo_is_queue 4 ltac:(lia) ltac:(lia)
              (mkFIFO 7 7 7 7 [None; None; None; None])
              [OpPush 0; OpPush 1; OpPop; OpPush 2]%nat 3%nat eq_refl)
    as (_ & Hpush & Hpop).
  set (f := fifo_run 4 _ _) in *.
  split; [vm_compute; reflexivity|]. split.
  - destruct (Hpush ltac:(vm_compute; reflexivity)) as (_ & ->). vm_compute. reflexivity.
  - destruct (Hpop ltac:(vm_compute; reflexivity)) as (x & rest & Hc & Hp & Hr).
    exists rest. split; [|exact Hr].
    rewrite Hp. f_equal. f_equal.
    assert (Hx : fifo_contents 4 f = [Some 1; Some 2]%nat) by (vm_compute; reflexivity).
    rewrite Hx in Hc. injection Hc as <- _. reflexivity.
Defined.

(** A FIFO of capacity 4 that has held three requests and holds one. *)
Lemma maxCount_high_water_witness :
  let ops := [OpPush 0; OpPush 1; OpPush 2; OpPop; OpPop]%nat in
  let f := fifo_run 4 (mkFIFO 7 7 7 7 [None; None; None; None]) ops in
  count f = 1 /\ maxCount f = 3 /\
  (forall k, count (fifo_run 4 (mkFIFO 7 7 7 7 [None; None; None; None]) (take k ops))
             <= maxCount f) /\
  (exists k, maxCount f =
             count (fifo_run 4 (mkFIFO 7 7 7 7 [None; None; None; None]) (take k ops))) /\
  maxCount f <= Z.of_nat 4.
Proof.
  intros ops f. split; [reflexivity|]. split; [reflexivity|].
  apply (maxCount_high_water 4); lia.
Defined.

Lemma sample_driver_not_allocated (i : nat) (rq : IPCDriverRequest) :
  requests sample_driver !! i = Some rq -> allocated rq = false.
Proof.
  intros H. apply lookup_replicate in H. destruct H as (-> & _). reflexivity.
Qed.

Lemma sample_open_driver_inv : driver_inv 4 sample_open_driver.
Proof.
  apply driver_inv_open;
    [lia|lia|right; reflexivity|reflexivity|reflexivity|
     exact sample_driver_not_allocated].
Qed.

Lemma sample_mem_linked : requests_linked sample_open_driver sample_mem.
Proof.
  intros i rq H.
  destruct i as [|[|[|[|i]]]]; vm_compute in H; try discriminate H;
    injection H as <-; eexists _, _; split; reflexivity.
Qed.

Lemma sample_busy_driver_inv : driver_inv 4 sample_busy_driver.
Proof.
  pose proof (driver_inv_allocate 4 ltac:(lia) ltac:(lia) sample_open_driver 0%nat
                [Some 1; Some 2; Some 3]%nat 0 None None (Some 0)
                sample_open_driver_inv ltac:(vm_compute; reflexivity)) as H1.
  pose proof (driver_inv_allocate 4 ltac:(lia) ltac:(lia) _ 1%nat
                [Some 2; Some 3]%nat 0 (Some 500) (Some 600) (Some 1)
                H1 ltac:(vm_compute; reflexivity)) as H2.
  eapply driver_inv_ext; [| |exact H2]; vm_compute; reflexivity.
Qed.

(** [IPCDriverOpen] on the sample driver. *)
Lemma IPCDriverOpen_driver_inv_witness :
  fifo_contents 4 (freeFifo (snd (IPCDriverOpen 4 sample_driver))) =
    [Some 0; Some 1; Some 2; Some 3]%nat /\
  fst (IPCDriverOpen 4 sample_driver) = IOS_OK /\
  driver_inv 4 (snd (IPCDriverOpen 4 sample_driver)) /\
  count (freeFifo (snd (IPCDriverOpen 4 sample_driver))) = Z.of_nat 4.
Proof.
  split; [vm_compute; reflexivity|].
  apply (IPCDriverOpen_driver_inv 4);
    [lia|lia|right; reflexivity|reflexivity|reflexivity|
     exact sample_driver_not_allocated].
Defined.

(** Freeing request 0 of the busy sample driver: it goes behind the
    requests 2 and 3. *)
Lemma ipcDriverFreeRequest_allocated_witness :
  let res := ipcDriverFreeRequest 4 sample_busy_driver 0 in
  fifo_contents 4 (freeFifo sample_busy_driver) = [Some 2; Some 3]%nat /\
  fst res = IOS_OK /\
  failedFreeRequestBlock (snd res) = failedFreeRequestBlock sample_busy_driver /\
  fifo_contents 4 (freeFifo (snd res)) =
    fifo_contents 4 (freeFifo sample_busy_driver) ++ [Some 0%nat] /\
  requests (snd res) !! 0%nat =
    Some (set_allocated false (mkRequest true 0 None None (Some 0))) /\
  driver_inv 4 (snd res).
Proof.
  intros res. split; [vm_compute; reflexivity|].
  apply (ipcDriverFreeRequest_allocated 4 ltac:(lia) ltac:(lia) sample_busy_driver 0%nat
           (mkRequest true 0 None None (Some 0)));
    [exact sample_busy_driver_inv|reflexivity|reflexivity].
Defined.

(** Allocating on the open sample driver for an Ioctl on handle 7 with
    callback 500 and context 600: request 0 is handed out. *)
Lemma ipcDriverAllocateRequest_free_request_witness :
  exists d' mem',
    ipcDriverAllocateRequest 4 sample_IOSError sample_wait 1 sample_open_driver
      sample_mem 7 IOSCmd_Ioctl 0 (Some 500) (Some 600) =
    Done (IOS_OK, d', mem', Some 0%nat) /\
    requests d' !! 0%nat = Some (mkRequest true 0 (Some 500) (Some 600) (Some 0)) /\
    mem' !! 0 =
      Some (mkBufferData IOSCmd_Ioctl 0 7 0 0 IOSCmd_other 0 [0; 0; 0; 0; 0] None None) /\
    fifo_contents 4 (freeFifo d') = [Some 1; Some 2; Some 3]%nat /\
    driver_inv 4 d'.
Proof.
  destruct (ipcDriverAllocateRequest_free_request 4 ltac:(lia) ltac:(lia)
              sample_IOSError sample_wait 0 sample_open_driver sample_mem 7
              IOSCmd_Ioctl 0 (Some 500) (Some 600)
              sample_open_driver_inv sample_mem_linked ltac:(vm_compute; reflexivity))
    as (r & rest & rq & p & buffer & Hcont & Hrq & Hfree & Hp & Hmem & Hrun & Hrest & _ & Hinv).
  assert (Hc : fifo_contents 4 (freeFifo sample_open_driver) =
               [Some 0; Some 1; Some 2; Some 3]%nat) by (vm_compute; reflexivity).
  rewrite Hc in Hcont. injection Hcont as <- <-.
  assert (Hr0 : requests sample_open_driver !! 0%nat =
                Some (mkRequest false 0 None None (Some 0))) by (vm_compute; reflexivity).
  rewrite Hr0 in Hrq. injection Hrq as <-.
  simpl in Hp. injection Hp as <-.
  assert (Hm0 : sample_mem !! 0 = Some sample_buffer) by (vm_compute; reflexivity).
  rewrite Hm0 in Hmem. injection Hmem as <-.
  eexists _, _. split; [exact Hrun|].
  split; [reflexivity|]. split; [apply lookup_insert_eq|].
  split; [exact Hrest|exact Hinv].
Defined.

(** The two responses of the busy sample driver: the callback of
    request 1 is called with the reply 7 and its context, then the event
    of request 0 is signalled; request 1 is free again. *)
Lemma ipcDriverProcessResponses_valid_witness :
  exists d' calls,
    ipcDriverProcessResponses 4 sample_replies sample_busy_driver = Done (d', calls) /\
    calls = [Call_asyncCallback 500 7 (Some 600); Call_OSSignalEvent 0] /\
    fifo_contents 4 (freeFifo d') = [Some 2; Some 3; Some 1]%nat /\
    requestsProcessed d' = 2 /\
    numResponses d' = 0%nat /\
    driver_inv 4 d'.
Proof.
  destruct (ipcDriverProcessResponses_valid 4 ltac:(lia) ltac:(lia) sample_replies
              sample_busy_driver sample_busy_driver_inv)
    as (d' & calls & Hrun & Hnum & _ & _ & _ & _ & _ & _ & Hinv).
  - split.
    + intros i Hi. simpl in Hi. destruct i as [|[|i]]; [| |lia].
      * exists 1%nat, (mkRequest true 0 (Some 500) (Some 600) (Some 1)).
        split; [reflexivity|]. split; [reflexivity|]. split; reflexivity.
      * exists 0%nat, (mkRequest true 0 None None (Some 0)).
        split; [reflexivity|]. split; [reflexivity|]. split; reflexivity.
    + intros i j Hi Hj. simpl in Hi, Hj.
      destruct i as [|[|i]], j as [|[|j]]; try lia; try reflexivity; discriminate.
  - vm_compute. split; congruence.
  - exists d', calls. split; [exact Hrun|].
    assert (Hv : exists d0 c0,
               ipcDriverProcessResponses 4 sample_replies sample_busy_driver =
               Done (d0, c0) /\
               c0 = [Call_asyncCallback 500 7 (Some 600); Call_OSSignalEvent 0] /\
               fifo_contents 4 (freeFifo d0) = [Some 2; Some 3; Some 1]%nat /\
               requestsProcessed d0 = 2).
    { eexists _, _. split; [vm_compute; reflexivity|].
      split; [reflexivity|]. split; reflexivity. }
    destruct Hv as (d0 & c0 & Hrun0 & Hc0 & Hf0 & Hp0).
    rewrite Hrun in Hrun0. injection Hrun0 as <- <-.
    split; [exact Hc0|]. split; [exact Hf0|]. split; [exact Hp0|].
    split; [exact Hnum|exact Hinv].
Defined.

(** The sample requests, dispatched from the initial state: the replies
    are handle 1, OK, OK and InvalidHandle. *)
Lemma dispatch_run_handles_witness :
  exists replies st,
    dispatch_run sample_IOSError unit sample_device_open sample_device_close
      sample_device_ioctl sample_device_ioctlv sample_read_name
      sample_requests (ios_initial unit sample_registry) = Done (replies, st) /\
    map b_reply replies = [1; 0; 0; -12] /\
    Forall2 echoes sample_requests replies /\
    (forall h device, iosGetDevice unit st h = Some device ->
       dev_handle unit device = h /\ 1 <= h < DeviceHandles unit st) /\
    (forall buffer,
       b_handle buffer < 1 \/ DeviceHandles unit st <= b_handle buffer ->
       b_command buffer = IOSCmd_Close \/ b_command buffer = IOSCmd_Ioctl \/
       b_command buffer = IOSCmd_Ioctlv ->
       dispatch_command sample_IOSError unit sample_device_open sample_device_close
         sample_device_ioctl sample_device_ioctlv sample_read_name buffer st =
       Done (sample_IOSError IOS_InvalidHandle, st)).
Proof.
  eexists _, _. split; [vm_compute; reflexivity|]. split; [reflexivity|].
  apply (dispatch_run_handles sample_IOSError unit sample_device_open
           sample_device_close sample_device_ioctl sample_device_ioctlv
           sample_read_name sample_registry sample_requests).
  vm_compute. reflexivity.
Defined.

(** After the sample requests, an Open of "/dev/fsa" returns handle 2;
    closing it returns OK and leaves the table as it was, and a second
    Close of handle 2 is answered with InvalidHandle. *)
Lemma open_close_round_trip_witness :
  exists replies st st1,
    dispatch_run sample_IOSError unit sample_device_open sample_device_close
      sample_device_ioctl sample_device_ioctlv sample_read_name
      sample_requests (ios_initial unit sample_registry) = Done (replies, st) /\
    iosOpen sample_IOSError unit sample_device_open "/dev/fsa" 0 st =
      Done (ReturnHandle 2, st1) /\
    iosGetDevice unit st 2 = None /\
    iosGetDevice unit st1 2 = Some (mkDevice unit 2 tt) /\
    fst (iosClose sample_IOSError unit sample_device_close 2 st1) = 0 /\
    sOpenDeviceMap unit (snd (iosClose sample_IOSError unit sample_device_close 2 st1)) =
      sOpenDeviceMap unit st /\
    DeviceHandles unit (snd (iosClose sample_IOSError unit sample_device_close 2 st1)) =
      DeviceHandles unit st + 1 /\
    dispatch_command sample_IOSError unit sample_device_open sample_device_close
      sample_device_ioctl sample_device_ioctlv sample_read_name
      (mkBufferData IOSCmd_Close 0 2 0 0 IOSCmd_other 0 [0; 0; 0; 0; 0] None None)
      (snd (iosClose sample_IOSError unit sample_device_close 2 st1)) =
    Done (-12, snd (iosClose sample_IOSError unit sample_device_close 2 st1)).
Proof.
  eexists _, _, _. split; [vm_compute; reflexivity|].
  split; [vm_compute; reflexivity|].
  match goal with
  | |- iosGetDevice unit ?st 2 = None /\ iosGetDevice unit ?st1 2 = _ /\ _ =>
      destruct (open_close_round_trip sample_IOSError unit sample_device_open
                  sample_device_close sample_device_ioctl sample_device_ioctlv
                  sample_read_name sample_registry sample_requests _ st st1
                  "/dev/fsa" 0 2
                  ltac:(vm_compute; reflexivity) ltac:(vm_compute; reflexivity))
        as (Hfresh & (impl & Hget & Hclose) & _ & Hmap & Hcount & Hrefused)
  end.
  split; [exact Hfresh|].
  split; [destruct impl; exact Hget|].
  split; [rewrite Hclose; destruct impl; reflexivity|].
  split; [exact Hmap|]. split; [exact Hcount|].
  apply (Hrefused (mkBufferData IOSCmd_Close 0 2 0 0 IOSCmd_other 0 [0; 0; 0; 0; 0]
                     None None)); [reflexivity|left; reflexivity].
Defined.

(** StorageFull finished on the sample block: one message with -12. *)
Lemma fsCmdBlockFinishCmd_delivers_witness :
  exists w',
    fsCmdBlockFinishCmd sample_constants sample_OSSendMessage (-12)
      (sample_world_with 0 0) = Done w' /\
    w_calls w' = [Call_OSSendMessage (Some 12288) (Some 4080) (-12)] /\
    ar_status (asyncResult (w_block w')) = -12 /\
    blk_status (w_block w') = BlockStatus_Cancelled /\
    lastDequeuedCommand (w_client w') = None.
Proof.
  destruct (fsCmdBlockFinishCmd_delivers sample_constants sample_OSSendMessage (-12)
              (sample_world_with 0 0)) as (Hall & Hneg & _).
  destruct (Hneg ltac:(lia) eq_refl) as (w' & Hdone).
  destruct (Hall w' Hdone)
    as (_ & (outputs & Hcalls & _ & Hnone) & Hres & Hst & _).
  exists w'. split; [exact Hdone|].
  rewrite (Hnone ltac:(lia)) in Hcalls.
  split; [exact Hcalls|]. split; [rewrite Hres; reflexivity|]. split; [exact Hst|].
  assert (Hw : exists w0,
            fsCmdBlockFinishCmd sample_constants sample_OSSendMessage (-12)
              (sample_world_with 0 0) = Done w0 /\
            lastDequeuedCommand (w_client w0) = None).
  { eexists. split; [vm_compute; reflexivity|reflexivity]. }
  destruct Hw as (w0 & Hdone0 & Hl). rewrite Hdone in Hdone0.
  injection Hdone0 as <-. exact Hl.
Defined.

(** The sample read, requeued while it is being cancelled: the user
    receives Cancelled (-1) and the block is not enqueued. *)
Lemma fsCmdBlockRequeue_cancelling_witness :
  exists w',
    fsCmdBlockRequeue sample_constants
      (invokeFinishCmdFn sample_constants sample_OSSendMessage 2) false
      (Some Fn_fsCmdBlockFinishReadCmd) sample_world_cancelling = Done w' /\
    w_calls w' =
      w_calls sample_world_cancelling ++
      [Call_fsCmdQueueFinishCmd;
       result_message (w_block sample_world_cancelling) (-1);
       Call_fsCmdQueueProcessCmd] /\
    ar_status (asyncResult (w_block w')) = -1 /\
    blk_status (w_block w') = BlockStatus_Cancelled /\
    not_cancelling sample_constants w' /\
    finishCmdFn (w_block w') = finishCmdFn (w_block sample_world_cancelling) /\
    lastDequeuedCommand (w_client w') = None.
Proof.
  apply (fsCmdBlockRequeue_cancelling sample_constants sample_OSSendMessage false
           (Some Fn_fsCmdBlockFinishReadCmd) sample_world_cancelling);
    [vm_compute; discriminate|reflexivity|right; reflexivity|reflexivity].
Defined.

(** Busy on the sample block: back to the front of the queue. *)
Lemma handleResult_busy_witness :
  fsCmdBlockHandleResult sample_constants
    (invokeFinishCmdFn sample_constants sample_OSSendMessage 2)
    (sample_world_with (-196610) 0) =
  Done (mkWorld
          (set_blk_status BlockStatus_QueuedCommand (w_block (sample_world_with (-196610) 0)))
          (mkClient true (-196610) (Some 4096))
          [Call_fsCmdQueueFinishCmd; Call_fsCmdQueuePushFront 4096;
           Call_fsCmdQueueProcessCmd]).
Proof.
  apply (handleResult_busy sample_constants _ (sample_world_with (-196610) 0));
    [reflexivity|apply sample_FSAStatus_distinct|reflexivity|reflexivity|reflexivity].
Defined.

(** InvalidMedia, DataCorrupted and a status that is no enumerator
    (-5, with an empty error mask and with the mask 1) on the sample
    block. *)
Lemma handleResult_untranslated_rows_witness :
  fsCmdBlockHandleResult sample_constants
    (invokeFinishCmdFn sample_constants sample_OSSendMessage 2)
    (sample_world_with (-196675) 0) =
  Done (mkWorld (w_block (sample_world_with (-196675) 0))
          (mkClient true (-196675) (Some 4096)) []) /\
  fsCmdBlockHandleResult sample_constants
    (invokeFinishCmdFn sample_constants sample_OSSendMessage 2)
    (sample_world_with (-196635) 0) = Aborted "TODO: Reverse me." /\
  fsCmdBlockHandleResult sample_constants
    (invokeFinishCmdFn sample_constants sample_OSSendMessage 2)
    (sample_world_with (-5) 1) =
  Done (mkWorld (w_block (sample_world_with (-5) 1))
          (mkClient true (-5) (Some 4096)) [Call_fsmEnterState Vol_Fatal]).
Proof.
  split; [|split].
  - apply (handleResult_untranslated_rows sample_constants _ (sample_world_with (-196675) 0));
      [reflexivity|apply sample_FSAStatus_distinct|reflexivity|reflexivity].
  - apply (handleResult_untranslated_rows sample_constants _ (sample_world_with (-196635) 0));
      [reflexivity|apply sample_FSAStatus_distinct|reflexivity|left; reflexivity].
  - etransitivity.
    + apply (handleResult_untranslated_rows sample_constants _ (sample_world_with (-5) 1));
        [reflexivity|apply sample_FSAStatus_distinct|reflexivity|].
      intros name. destruct name; discriminate.
    + reflexivity.
Defined.

(** StorageFull on the sample block is delivered once, and the first
    reply to the sample read enqueues the block once. *)
Lemma handleResult_settles_once_witness :
  (exists w',
     fsCmdBlockHandleResult sample_constants
       (invokeFinishCmdFn sample_constants sample_OSSendMessage 2)
       (sample_world_with (-196636) 0) = Done w' /\
     one_outcome (sample_world_with (-196636) 0) w') /\
  (exists w',
     fsCmdBlockHandleResult sample_constants
       (invokeFinishCmdFn sample_constants sample_OSSendMessage 2)
       (set_block (set_fsaStatus 262144 (w_block sample_world)) sample_world) = Done w' /\
     one_outcome (set_block (set_fsaStatus 262144 (w_block sample_world)) sample_world) w').
Proof.
  split.
  - eexists. split; [vm_compute; reflexivity|].
    apply (handleResult_settles_once sample_constants sample_OSSendMessage 2).
    vm_compute. reflexivity.
  - eexists. split; [vm_compute; reflexivity|].
    apply (handleResult_settles_once sample_constants sample_OSSendMessage 2).
    vm_compute. reflexivity.
Defined.

(** Status 5 on the sample block, with the error mask 512: delivered
    as 5. *)
Lemma handleResult_success_delivered_witness :
  exists w',
    fsCmdBlockHandleResult sample_constants
      (invokeFinishCmdFn sample_constants sample_OSSendMessage 2)
      (sample_world_with 5 512) = Done w' /\
    w_calls w' =
      [Call_fsCmdQueueFinishCmd; Call_OSSendMessage (Some 12288) (Some 4080) 5;
       Call_fsCmdQueueProcessCmd] /\
    ar_status (asyncResult (w_block w')) = 5 /\
    lastError (w_client w') = 5 /\
    blk_status (w_block w') = BlockStatus_Cancelled.
Proof.
  destruct (handleResult_success_delivered sample_constants sample_OSSendMessage
              (sample_world_with 5 512)) as (Heq & Hall);
    [reflexivity|discriminate|reflexivity|reflexivity|reflexivity|].
  assert (Hrun : exists w0,
            fsCmdBlockHandleResult sample_constants
              (invokeFinishCmdFn sample_constants sample_OSSendMessage 2)
              (sample_world_with 5 512) = Done w0 /\
            w_calls w0 =
              [Call_fsCmdQueueFinishCmd; Call_OSSendMessage (Some 12288) (Some 4080) 5;
               Call_fsCmdQueueProcessCmd]).
  { eexists. split; [rewrite Heq; vm_compute; reflexivity|reflexivity]. }
  destruct Hrun as (w' & Hrun & Hcalls).
  destruct (Hall w' Hrun) as (_ & Hst & Herr & _ & Hblk).
  exists w'. split; [exact Hrun|]. split; [exact Hcalls|].
  split; [exact Hst|]. split; [exact Herr|exact Hblk].
Defined.

(** The sample block after StorageFull has been delivered is accepted
    for a new command; the sample read after its first reply, which is
    queued, is refused. *)
Lemma finished_block_reusable_witness :
  (exists w' status body,
     fsCmdBlockFinishCmd sample_constants sample_OSSendMessage (-12)
       (sample_world_with 0 0) = Done w' /\
     fsCmdBlockPrepareAsync sample_constants sample_fsAsyncResultInit (Some 8192)
       (Some (w_block w')) 512 (mkAsyncData None None (Some 12288)) [] =
     Done (status, body, [Call_fsAsyncResultInit 8192]) /\
     errorMask body = 512) /\
  fsCmdBlockPrepareAsync sample_constants sample_fsAsyncResultInit (Some 8192)
    (Some (w_block sample_world_second_round)) 512 (mkAsyncData None None (Some 12288)) [] =
  Done (-1024, w_block sample_world_second_round, []).
Proof.
  split.
  - assert (Hrun : exists w',
              fsCmdBlockFinishCmd sample_constants sample_OSSendMessage (-12)
                (sample_world_with 0 0) = Done w').
    { eexists. vm_compute. reflexivity. }
    destruct Hrun as (w' & Hrun).
    destruct (finished_block_reusable sample_constants sample_OSSendMessage
                sample_fsAsyncResultInit 8192 512 (mkAsyncData None None (Some 12288)) []
                (sample_world_with 0 0) w') as (Hok & _).
    { intros ((x & Hx) & _). discriminate Hx. }
    destruct (Hok (-12) Hrun) as (status & body & Hprep & Hmask & _).
    exists w', status, body. split; [exact Hrun|]. split; [exact Hprep|exact Hmask].
  - destruct (finished_block_reusable sample_constants sample_OSSendMessage
                sample_fsAsyncResultInit 8192 512 (mkAsyncData None None (Some 12288)) []
                (read_continuation sample_constants 262144
                   (read_progress 262144 (readFile sample_read_block)) sample_world)
                sample_world_second_round) as (_ & Hqueued).
    { intros ((x & Hx) & _). discriminate Hx. }
    apply (Hqueued (invokeFinishCmdFn sample_constants sample_OSSendMessage 2) false
             (Some Fn_fsCmdBlockFinishReadCmd)); [reflexivity|].
    vm_compute. reflexivity.
Defined.

(** The read of 300 KB in chunks of 4096 bytes with 256 KB per request:
    one full request and a last one of 44 KB; the user receives 75. *)
Lemma chunked_read_completes_witness :
  exists w',
    handle_replies sample_constants sample_OSSendMessage [262144; 45056] sample_world =
      Done w' /\
    bytesRead (readFile (w_block w')) = 307200 /\
    bytesRemaining (readFile (w_block w')) = 0 /\
    ar_status (asyncResult (w_block w')) = 75 /\
    blk_status (w_block w') = BlockStatus_Cancelled /\
    w_calls w' =
      [Call_fsCmdQueueFinishCmd; Call_fsCmdQueueFinishCmd;
       Call_fsCmdQueueEnqueue 4096 true;
       Call_fsCmdQueueProcessCmd; Call_fsCmdQueueProcessCmd;
       Call_fsCmdQueueFinishCmd; Call_OSSendMessage (Some 12288) (Some 4080) 75;
       Call_fsCmdQueueProcessCmd] /\
    rq_buffer (request_readFile (fsaShimBuffer (w_block w'))) = 327680.
Proof.
  apply (chunked_read_completes sample_constants sample_OSSendMessage 1 45056 sample_world);
    [ repeat split; reflexivity
    | reflexivity | reflexivity | reflexivity
    | split; [reflexivity|discriminate]
    | reflexivity | reflexivity
    | split; [discriminate|reflexivity] ].
Defined.

(** ** Initialising and opening the drivers of the cores *)

Section InitFacts.

Variable N : nat.
Hypothesis N_pos : (0 < N)%nat.
Hypothesis N_int32 : Z.of_nat N < 2 ^ 31.

Lemma IPCDriverOpen_coreId (d : IPCDriver) :
  coreId (snd (IPCDriverOpen N d)) = coreId d.
Proof.
  unfold IPCDriverOpen.
  destruct (negb (bool_decide (status d = Status_Closed)) &&
            negb (bool_decide (status d = Status_Initialised))); [reflexivity|].
  simpl.
  apply (for_upto_preserves (fun d' => coreId d' = coreId d)).
  { intros i d' H. exact H. }
  simpl.
  apply (for_upto_preserves (fun d' => coreId d' = coreId d)); [|reflexivity].
  intros i d' H. unfold open_link_request. now destruct (_ !! _).
Qed.

(** What [IPCDriverInit] and [IPCDriverOpen] make of the driver of
    core [c]. *)
Local Abbreviation booted base c d :=
  (driver_inv N d /\ driver_fresh N d /\ coreId d = Z.of_nat c /\
   forall i rq, requests d !! i = Some rq ->
     ipcBuffer rq = Some (base + Z.of_nat (N * c + i))).

Lemma boot_core_step (c : nat) (data : IpcData) (d : IPCDriver) :
  getIPCDriver c data = Some d -> driver_fresh N d ->
  exists d2,
    boot_core N c data =
      Done (mkIpcData (data_ipcBuffers data) (<[c := d2]> (data_drivers data))) /\
    booted (data_ipcBuffers data) c d2.
Proof using N_pos N_int32.
  intros Hd (Hlen & Hflen & Hfree). unfold getIPCDriver in Hd.
  assert (Hc : (c < length (data_drivers data))%nat) by (eapply lookup_lt_Some; exact Hd).
  unfold boot_core, IPCDriverInit. rewrite Hd. simpl.
  unfold IPCDriverOpen_core, getIPCDriver. simpl.
  rewrite list_lookup_insert_eq by exact Hc.
  set (d1 := mkDriver _ _ _ _ _ _ _ _ _ _ _ _ _ _).
  assert (Hst : status d1 = Status_Closed \/ status d1 = Status_Initialised)
    by (right; reflexivity).
  destruct (IPCDriverOpen_success N d1 N_pos N_int32 Hst Hlen Hflen)
    as (_ & Hlink & _).
  pose proof (driver_inv_open N N_pos N_int32 d1 Hst Hlen Hflen Hfree) as Hinv.
  pose proof (IPCDriverOpen_coreId d1) as Hcore.
  cbv zeta in Hlink.
  destruct (IPCDriverOpen N d1) as [error d2] eqn:Hopen. simpl in Hlink, Hinv, Hcore.
  exists d2. split.
  { simpl. rewrite list_insert_insert_eq. reflexivity. }
  assert (Hreq : forall i rq, requests d2 !! i = Some rq ->
            exists rq0, requests d !! i = Some rq0 /\ rq = linked (ipcBuffers d1) i rq0).
  { intros i rq Hrq.
    assert (Hi : (i < N)%nat).
    { apply lookup_lt_Some in Hrq. destruct Hinv as (_ & _ & Hl & _). lia. }
    rewrite (Hlink i Hi) in Hrq. change (requests d1) with (requests d) in Hrq.
    destruct (requests d !! i) as [rq0|]; [|discriminate].
    exists rq0. injection Hrq as <-. split; reflexivity. }
  split; [exact Hinv|]. split.
  { destruct Hinv as (_ & Hl1 & Hl2 & _). split; [exact Hl2|]. split; [exact Hl1|].
    intros i rq Hrq. destruct (Hreq i rq Hrq) as (rq0 & Hrq0 & ->).
    simpl. eapply Hfree. exact Hrq0. }
  split; [exact Hcore|].
  intros i rq Hrq. destruct (Hreq i rq Hrq) as (rq0 & Hrq0 & ->).
  simpl. f_equal. lia.
Qed.

Lemma boot_app (cores : list nat) (c : nat) (data : IpcData) :
  boot N (cores ++ [c]) data = boot N cores data ≫= boot_core N c.
Proof. unfold boot. rewrite fold_left_app. reflexivity. Qed.

Lemma boot_invariant (cores : list nat) (data : IpcData) :
  (forall c, c ∈ cores -> (c < length (data_drivers data))%nat) ->
  (forall d, d ∈ data_drivers data -> driver_fresh N d) ->
  exists data',
    boot N cores data = Done data' /\
    data_ipcBuffers data' = data_ipcBuffers data /\
    length (data_drivers data') = length (data_drivers data) /\
    (forall d, d ∈ data_drivers data' -> driver_fresh N d) /\
    (forall c, c ∉ cores -> getIPCDriver c data' = getIPCDriver c data) /\
    (forall c d, c ∈ cores -> getIPCDriver c data' = Some d ->
       booted (data_ipcBuffers data) c d).
Proof using N_pos N_int32.
  intros Hcores Hfresh. induction cores as [|c cores IH] using rev_ind.
  - exists data. split; [reflexivity|]. split; [reflexivity|]. split; [reflexivity|].
    split; [exact Hfresh|]. split; [reflexivity|].
    intros c d Hc. apply elem_of_nil in Hc. contradiction.
  - destruct IH as (datak & Hrun & Hbase & Hlen & Hfreshk & Hother & Hbooted).
    { intros c' Hc'. apply Hcores. apply elem_of_app. left. exact Hc'. }
    assert (Hc : (c < length (data_drivers datak))%nat).
    { rewrite Hlen. apply Hcores. apply elem_of_app. right. apply list_elem_of_singleton.
      reflexivity. }
    destruct (lookup_lt_is_Some_2 _ _ Hc) as [d Hd].
    assert (Hfd : driver_fresh N d).
    { apply Hfreshk. eapply list_elem_of_lookup_2. exact Hd. }
    destruct (boot_core_step c datak d Hd Hfd) as (d2 & Hstep & Hb2).
    rewrite Hbase in Hb2.
    eexists. split; [rewrite boot_app, Hrun; exact Hstep|].
    split; [exact Hbase|]. split; [simpl; rewrite length_insert; exact Hlen|].
    split.
    { intros d' Hd'. simpl in Hd'. apply list_elem_of_lookup in Hd'.
      destruct Hd' as (c' & Hc'). destruct (decide (c' = c)) as [->|Hne].
      - rewrite list_lookup_insert_eq in Hc' by exact Hc. injection Hc' as <-.
        destruct Hb2 as (_ & Hf & _). exact Hf.
      - rewrite list_lookup_insert_ne in Hc' by congruence.
        apply Hfreshk. eapply list_elem_of_lookup_2. exact Hc'. }
    split.
    { intros c' Hc'. unfold getIPCDriver. simpl.
      rewrite list_lookup_insert_ne.
      - apply Hother. intros Hin. apply Hc'. apply elem_of_app. left. exact Hin.
      - intros ->. apply Hc'. apply elem_of_app. right. apply list_elem_of_singleton.
        reflexivity. }
    intros c' d' Hc' Hd'. unfold getIPCDriver in Hd'. simpl in Hd'.
    destruct (decide (c' = c)) as [->|Hne].
    + rewrite list_lookup_insert_eq in Hd' by exact Hc. injection Hd' as <-. exact Hb2.
    + rewrite list_lookup_insert_ne in Hd' by congruence.
      apply Hbooted; [|exact Hd'].
      apply elem_of_app in Hc'. destruct Hc' as [Hin|Hin]; [exact Hin|].
      apply list_elem_of_singleton in Hin. contradiction.
Qed.

(** X17. The cores [cores], in any order, each run [IPCDriverInit] and
    then [IPCDriverOpen], on a machine whose drivers all have their [N]
    requests, none marked allocated.  Every call returns, and the
    driver of a core that is not in [cores] is untouched.  Afterwards
    the driver of every core [c] of [cores] knows its core, satisfies
    [driver_inv], and its request [i] points to buffer [N * c + i] of
    the shared array, which lies inside the array; and no two requests
    of these drivers, of the same core or of two different cores, point
    to the same buffer. *)
Theorem boot_buffers_disjoint (cores : list nat) (data : IpcData) :
  (forall c, c ∈ cores -> (c < length (data_drivers data))%nat) ->
  (forall d, d ∈ data_drivers data -> driver_fresh N d) ->
  exists data',
    boot N cores data = Done data' /\
    (forall c, c ∉ cores -> getIPCDriver c data' = getIPCDriver c data) /\
    (forall c, c ∈ cores ->
       exists d,
         getIPCDriver c data' = Some d /\ coreId d = Z.of_nat c /\ driver_inv N d /\
         forall i, (i < N)%nat ->
           exists rq,
             requests d !! i = Some rq /\
             ipcBuffer rq = Some (data_ipcBuffers data + Z.of_nat (N * c + i)) /\
             (N * c + i < N * length (data_drivers data))%nat) /\
    (forall c c' d d' i j rq rq',
       c ∈ cores -> c' ∈ cores ->
       getIPCDriver c data' = Some d -> getIPCDriver c' data' = Some d' ->
       requests d !! i = Some rq -> requests d' !! j = Some rq' ->
       ipcBuffer rq = ipcBuffer rq' -> c = c' /\ i = j).
Proof using N_pos N_int32.
  intros Hcores Hfresh.
  destruct (boot_invariant cores data Hcores Hfresh)
    as (data' & Hrun & Hbase & Hlen & _ & Hother & Hbooted).
  exists data'. split; [exact Hrun|]. split; [exact Hother|]. split.
  - intros c Hc.
    assert (Hlt : (c < length (data_drivers data'))%nat) by (rewrite Hlen; apply Hcores, Hc).
    destruct (lookup_lt_is_Some_2 _ _ Hlt) as [d Hd].
    destruct (Hbooted c d Hc Hd) as (Hinv & _ & Hcore & Hlink).
    exists d. split; [exact Hd|]. split; [exact Hcore|]. split; [exact Hinv|].
    intros i Hi.
    assert (Hl : length (requests d) = N) by (destruct Hinv as (_ & _ & H & _); exact H).
    destruct (lookup_lt_is_Some_2 (requests d) i ltac:(lia)) as [rq Hrq].
    exists rq. split; [exact Hrq|]. split; [exact (Hlink i rq Hrq)|].
    specialize (Hcores c Hc). nia.
  - intros c c' d d' i j rq rq' Hc Hc' Hd Hd' Hrq Hrq' Heq.
    destruct (Hbooted c d Hc Hd) as (Hinv & _ & _ & Hlink).
    destruct (Hbooted c' d' Hc' Hd') as (Hinv' & _ & _ & Hlink').
    assert (Hi : (i < N)%nat).
    { apply lookup_lt_Some in Hrq. destruct Hinv as (_ & _ & H & _). lia. }
    assert (Hj : (j < N)%nat).
    { apply lookup_lt_Some in Hrq'. destruct Hinv' as (_ & _ & H & _). lia. }
    rewrite (Hlink i rq Hrq), (Hlink' j rq' Hrq') in Heq. injection Heq as Heq.
    assert (Hnat : (N * c + i = N * c' + j)%nat) by lia.
    assert (Hcc : c = c') by nia. subst c'. split; [reflexivity|lia].
Qed.

End InitFacts.

(** Cores 1, 0 and 2 of a machine with three cores whose drivers are
    all as the sample driver, buffers from address 1000 on: request 3 of
    core 0 has buffer 1003 and request 0 of core 1 has buffer 1004. *)
Lemma boot_buffers_disjoint_witness :
  let data := mkIpcData 1000 [sample_driver; sample_driver; sample_driver] in
  exists data',
    boot 4 [1; 0; 2]%nat data = Done data' /\
    (ipcBuffer <$> (getIPCDriver 0 data' ≫= fun d => requests d !! 3%nat)) =
      Some (Some 1003) /\
    (ipcBuffer <$> (getIPCDriver 1 data' ≫= fun d => requests d !! 0%nat)) =
      Some (Some 1004) /\
    (forall c c' d d' i j rq rq',
       c ∈ [1; 0; 2]%nat -> c' ∈ [1; 0; 2]%nat ->
       getIPCDriver c data' = Some d -> getIPCDriver c' data' = Some d' ->
       requests d !! i = Some rq -> requests d' !! j = Some rq' ->
       ipcBuffer rq = ipcBuffer rq' -> c = c' /\ i = j).
Proof.
  intros data.
  destruct (boot_buffers_disjoint 4 ltac:(lia) ltac:(lia) [1; 0; 2]%nat data)
    as (data' & Hrun & _ & _ & Hdisjoint).
  - intros c Hc. simpl.
    repeat (apply elem_of_cons in Hc; destruct Hc as [->|Hc]; [lia|]).
    apply elem_of_nil in Hc. contradiction.
  - intros d Hd. simpl in Hd.
    repeat (apply elem_of_cons in Hd; destruct Hd as [->|Hd];
            [split; [reflexivity|split; [reflexivity|exact sample_driver_not_allocated]]|]).
    apply elem_of_nil in Hd. contradiction.
  - assert (Hv : exists data0,
              boot 4 [1; 0; 2]%nat data = Done data0 /\
              (ipcBuffer <$> (getIPCDriver 0 data0 ≫= fun d => requests d !! 3%nat)) =
                Some (Some 1003) /\
              (ipcBuffer <$> (getIPCDriver 1 data0 ≫= fun d => requests d !! 0%nat)) =
                Some (Some 1004)).
    { eexists. split; [vm_compute; reflexivity|]. split; reflexivity. }
    destruct Hv as (data0 & Hrun0 & H0 & H1). rewrite Hrun in Hrun0.
    injection Hrun0 as <-.
    exists data'. split; [exact Hrun|]. split; [exact H0|]. split; [exact H1|exact Hdisjoint].
Defined.

(** ** When a chunked read is finalised *)

Section CompletionFacts.

Variable K : FSConstants.
Variable OSSendMessage : option Z -> bool.
Variable inv : FSFinishCmdFn -> Z -> World -> Outcome World.

Local Abbreviation finishRead := (fsCmdBlockFinishReadCmd K OSSendMessage inv).
Local Abbreviation finishCmd := (fsCmdBlockFinishCmd K OSSendMessage).
Local Abbreviation Cancelling := (FSCmdCancelFlags_Cancelling K).

(** C2 (as amended). A reply of [n] bytes (a non-negative FSStatus) to a
    chunked read whose chunk size is not zero: [fsCmdBlockFinishReadCmd]
    adds [n] to [bytesRead] and subtracts it from [bytesRemaining].  The
    read is complete when [bytesRemaining] has reached 0 or the reply is
    partial ([n < readSize]).  A complete read is finished through
    [fsCmdBlockFinishCmd] with the status [bytesRead / chunkSize]
    (converted to the 32-bit FSStatus: the same 32-bit word, and the
    same number whenever the quotient is below 2^31).  On a block that
    is not being cancelled the command is finalised exactly when the
    read is complete: when the function returns after a complete read,
    the one message it has sent carries that status, nothing was put
    into the queue and the block is Cancelled; after an incomplete read
    it always returns, has sent no message, has enqueued the block and
    the block is QueuedCommand.  On a block that is being cancelled an
    incomplete read is not requeued: the reply path is run with
    FSStatus::Cancelled on the block marked Cancelled. *)
Theorem finishReadCmd_completion (n : Z) (w : World) :
  0 <= n < 2 ^ 31 ->
  0 < chunkSize (readFile (w_block w)) ->
  let rs := readFile (w_block w) in
  let rs1 := read_progress n rs in
  let chunks := bytesRead rs1 / chunkSize rs in
  let complete := bytesRemaining rs1 = 0 \/ n < readSize rs in
  (bytesRead rs1 = uint32 (bytesRead rs + n) /\
   bytesRemaining rs1 = uint32 (bytesRemaining rs - n)) /\
  (complete ->
   finishRead n w =
   finishCmd (int32 chunks) (set_block (set_readFile rs1 (w_block w)) w)) /\
  (not_cancelling K w ->
   forall w',
     finishRead n w = Done w' ->
     exists new,
       w_calls w' = w_calls w ++ new /\
       (complete ->
        List.filter is_send new = [result_message (w_block w) (int32 chunks)] /\
        List.filter is_insertion new = [] /\
        blk_status (w_block w') = BlockStatus_Cancelled) /\
       (~ complete ->
        List.filter is_send new = [] /\
        List.filter is_insertion new =
          [Call_fsCmdQueueEnqueue (body_address (w_block w)) true] /\
        blk_status (w_block w') = BlockStatus_QueuedCommand)) /\
  (not_cancelling K w -> ~ complete -> exists w', finishRead n w = Done w') /\
  (~ not_cancelling K w -> ~ complete ->
   let wc := read_continuation K n rs1 w in
   finishRead n w =
   fsCmdBlockReplyResult inv (FSStatus_value K FS_Cancelled)
     (set_client (set_lastDequeuedCommand None (w_client wc))
        (set_block
           (set_blk_status BlockStatus_Cancelled
              (set_cancelFlags (Z.ldiff (cancelFlags (w_block wc)) Cancelling)
                 (w_block wc)))
           wc))) /\
  uint32 (int32 chunks) = chunks /\
  (chunks < 2 ^ 31 -> int32 chunks = chunks).
Proof.
  intros Hn Hchunk rs rs1 chunks complete.
  assert (Hu : uint32 n = n) by (apply uint32_small; lia).
  assert (Hneg : (n <? 0) = false) by (apply Z.ltb_ge; lia).
  assert (Hq : 0 <= chunks < 2 ^ 32).
  { subst chunks rs1 rs. simpl.
    pose proof (uint32_range (bytesRead (readFile (w_block w)) + n)) as Hr.
    split; [apply Z.div_pos; lia|].
    apply Z.div_lt_upper_bound; [exact Hchunk|]. nia. }
  assert (Hfinish : complete ->
            finishRead n w =
            finishCmd (int32 chunks) (set_block (set_readFile rs1 (w_block w)) w)).
  { intros Hdone. unfold fsCmdBlockFinishReadCmd. rewrite Hneg, Hu. cbv zeta.
    fold rs rs1.
    assert (Hcond : (bytesRemaining rs1 =? 0) || (n <? readSize rs1) = true).
    { apply orb_true_iff. destruct Hdone as [H0|Hlt];
        [left; apply Z.eqb_eq; exact H0 | right; apply Z.ltb_lt; exact Hlt]. }
    rewrite Hcond.
    assert (Hcs : (chunkSize rs1 =? 0) = false)
      by (apply Z.eqb_neq; subst rs1 rs; simpl; lia).
    rewrite Hcs. reflexivity. }
  assert (Hopen : ~ complete ->
            bytesRemaining (read_progress n (readFile (w_block w))) <> 0 /\
            readSize (readFile (w_block w)) <= n).
  { intros Hnot. fold rs rs1. subst complete. split; [tauto|lia]. }
  split; [split; reflexivity|]. split; [exact Hfinish|]. split; [|split; [|split; [|split]]].
  - intros Hnc w' Hret.
    destruct (Z.eq_dec (bytesRemaining rs1) 0) as [H0|H0];
      [|destruct (Z_lt_dec n (readSize rs)) as [Hlt|Hge]].
    + assert (Hc : complete) by (left; exact H0).
      rewrite (Hfinish Hc) in Hret. apply finishCmd_done in Hret. cbv zeta in Hret.
      destruct Hret as (_ & outputs & Hout & _ & ->).
      eexists. split; [reflexivity|]. split; [|intros Hnot; contradiction].
      intros _. split; [|split].
      * destruct Hout as [->|(cmd & ->)]; reflexivity.
      * destruct Hout as [->|(cmd & ->)]; reflexivity.
      * simpl. destruct (int32 chunks <? 0); reflexivity.
    + assert (Hc : complete) by (right; exact Hlt).
      rewrite (Hfinish Hc) in Hret. apply finishCmd_done in Hret. cbv zeta in Hret.
      destruct Hret as (_ & outputs & Hout & _ & ->).
      eexists. split; [reflexivity|]. split; [|intros Hnot; contradiction].
      intros _. split; [|split].
      * destruct Hout as [->|(cmd & ->)]; reflexivity.
      * destruct Hout as [->|(cmd & ->)]; reflexivity.
      * simpl. destruct (int32 chunks <? 0); reflexivity.
    + assert (Hnot : ~ complete) by (subst complete; intros [H|H]; [contradiction|lia]).
      destruct (Hopen Hnot) as (Hrem & Hfull).
      rewrite (finishRead_continue K OSSendMessage inv n w Hn Hnc Hrem Hfull) in Hret.
      injection Hret as <-.
      eexists. split; [reflexivity|]. split; [intros Hc; contradiction|].
      intros _. split; [reflexivity|]. split; reflexivity.
  - intros Hnc Hnot. destruct (Hopen Hnot) as (Hrem & Hfull). eexists.
    apply (finishRead_continue K OSSendMessage inv n w Hn Hnc Hrem Hfull).
  - intros Hc Hnot. cbv zeta.
    unfold fsCmdBlockFinishReadCmd. rewrite Hneg, Hu. cbv zeta. fold rs rs1.
    assert (Hcond : (bytesRemaining rs1 =? 0) || (n <? readSize rs1) = false).
    { apply orb_false_iff. subst complete.
      split; [apply Z.eqb_neq; tauto|apply Z.ltb_ge; subst rs1; simpl; lia]. }
    rewrite Hcond. unfold fsCmdBlockRequeue. cbv zeta.
    change (cancelFlags (w_block (read_continuation K n rs1 w)))
      with (cancelFlags (w_block w)).
    unfold not_cancelling in Hc.
    destruct (Z.eqb_spec (Z.land (cancelFlags (w_block w)) Cancelling) 0);
      [contradiction|]. reflexivity.
  - apply uint32_int32. exact Hq.
  - intros Hsmall. apply int32_small. lia.
Qed.

End CompletionFacts.

(** A read of 300 KB in chunks of 4096 bytes with 256 KB per request:
    the reply to the first request (256 KB) does not complete the read,
    the block is requeued for the remaining 44 KB and nothing is sent;
    the reply to the second finishes the command and sends status 75 to
    the user's queue. *)
Lemma finishReadCmd_completion_witness :
  (fsCmdBlockFinishReadCmd sample_constants sample_OSSendMessage
     (invokeFinishCmdFn sample_constants sample_OSSendMessage 2) 262144 sample_world =
   Done sample_world_second_round /\
   List.filter is_send (w_calls sample_world_second_round) = [] /\
   blk_status (w_block sample_world_second_round) = BlockStatus_QueuedCommand) /\
  exists w',
    fsCmdBlockFinishReadCmd sample_constants sample_OSSendMessage
      (invokeFinishCmdFn sample_constants sample_OSSendMessage 2) 45056
      sample_world_second_round = Done w' /\
    ar_status (asyncResult (w_block w')) = 75 /\
    w_calls w' = w_calls sample_world_second_round ++
                 [Call_OSSendMessage (Some 12288) (Some 4080) 75] /\
    bytesRead (readFile (w_block w')) = 307200 /\
    bytesRemaining (readFile (w_block w')) = 0 /\
    blk_status (w_block w') = BlockStatus_Cancelled.
Proof.
  split.
  - destruct (finishReadCmd_completion sample_constants sample_OSSendMessage
                (invokeFinishCmdFn sample_constants sample_OSSendMessage 2)
                262144 sample_world) as (_ & _ & Hret & Hex & _);
      [vm_compute; split; congruence | reflexivity |].
    assert (Hnot : ~ (bytesRemaining (read_progress 262144 (readFile (w_block sample_world)))
                      = 0 \/ 262144 < readSize (readFile (w_block sample_world)))).
    { vm_compute. intros [H|H]; discriminate H. }
    destruct (Hex eq_refl Hnot) as (w1 & Hw1).
    destruct (Hret eq_refl w1 Hw1) as (new & Hnew & _ & Hrequeued).
    destruct (Hrequeued Hnot) as (Hsend & _ & Hst).
    assert (Hrun : fsCmdBlockFinishReadCmd sample_constants sample_OSSendMessage
                     (invokeFinishCmdFn sample_constants sample_OSSendMessage 2)
                     262144 sample_world = Done sample_world_second_round)
      by (vm_compute; reflexivity).
    rewrite Hrun in Hw1. injection Hw1 as <-.
    split; [exact Hrun|]. split; [|exact Hst].
    rewrite Hnew. exact Hsend.
  - eexists. split.
    { destruct (finishReadCmd_completion sample_constants sample_OSSendMessage
                  (invokeFinishCmdFn sample_constants sample_OSSendMessage 2)
                  45056 sample_world_second_round) as (_ & Hdone & _);
        [vm_compute; split; congruence | reflexivity |].
      etransitivity; [apply Hdone; left; reflexivity|vm_compute; reflexivity]. }
    repeat split; reflexivity.
Defined.

(** The first reply to the sample read while the block is being
    cancelled: the reply is a full request (262144 bytes for a read size
    of 262144) and 45056 bytes remain, yet the command is finalised: the
    user's queue receives FSStatus::Cancelled (-1), the block is
    Cancelled and is not put back into the queue. *)
Lemma finishReadCmd_cancelled_incomplete :
  exists w',
    fsCmdBlockFinishReadCmd sample_constants sample_OSSendMessage
      (invokeFinishCmdFn sample_constants sample_OSSendMessage 2) 262144
      sample_world_cancelling = Done w' /\
    readSize (readFile (w_block sample_world_cancelling)) = 262144 /\
    bytesRemaining (readFile (w_block w')) = 45056 /\
    w_calls w' =
      [Call_fsCmdQueueFinishCmd; Call_OSSendMessage (Some 12288) (Some 4080) (-1);
       Call_fsCmdQueueProcessCmd] /\
    ar_status (asyncResult (w_block w')) = -1 /\
    blk_status (w_block w') = BlockStatus_Cancelled.
Proof.
  eexists. split; [vm_compute; reflexivity|]. repeat split; reflexivity.
Qed.
